(** * DocxCommentInjector: the linearisation engine of [main.py]

    A shallow embedding of the render engine of [main.py] (the traversal
    state [RenderState], the output buffer [RenderOut], the recursive
    [_render_node], the paragraph, table and document assemblers and the
    style parser), followed by the properties of the engine.

    Conventions of the embedding.
    - A Python [str] is a [string] holding the bytes of its UTF-8 text.
      [str.strip], [str.split], [int] and [re]'s [\s] and [\d] work on the
      characters of the text ([Py.chars]) with the white space and the
      decimal digits of CPython 3.11 (Unicode 14). [str.lower] is taken on
      the ASCII letters: [main.py] compares its results with ASCII words
      only, none of which the lower case of another character yields.
    - An [ElementTree.Element] is an [Element]: tag, attributes, text and
      children. The tail text is never read by [main.py].
    - A method that mutates its object returns the new object; a method that
      mutates the shared [RenderState] returns the new state as well.
    - A [dict] is a [gmap], a [set] a [gset]; no function of the engine
      depends on the iteration order of a dictionary.
    - A raised [ValueError] (from [int]) is the result [None]. *)

From Stdlib Require Import String Ascii ZArith List Bool Lia DecimalString.
From stdpp Require Import gmap strings list fin_maps.

Local Open Scope Z_scope.

(** ** Python strings *)

Declare Scope py_scope.
Notation "a =? b" := (String.eqb a b) (at level 70) : py_scope.
Local Open Scope py_scope.

Module Py.

(** *** The characters of a [str]

    A [str] is held as the bytes of its UTF-8 text. The first byte of a
    character tells how many bytes the character has; [chars] cuts the text
    into its characters and [cat] puts them together again. *)
Definition width (b : ascii) : nat :=
  let n := N_of_ascii b in
  if (n <? 192)%N then 1%nat
  else if (n <? 224)%N then 2%nat
  else if (n <? 240)%N then 3%nat
  else if (n <? 248)%N then 4%nat
  else 1%nat.

(** [chars_go k s]: the first [k] bytes of [s], which end a character begun
    before [s], and the characters of the rest. *)
Fixpoint chars_go (k : nat) (s : string) : string * list string :=
  match s with
  | EmptyString => (EmptyString, [])
  | String b s' =>
      match k with
      | S k' => let '(pre, cs) := chars_go k' s' in (String b pre, cs)
      | O =>
          let '(pre, cs) := chars_go (Nat.pred (width b)) s' in
          (EmptyString, String b pre :: cs)
      end
  end.

Definition chars (s : string) : list string := snd (chars_go 0 s).

Definition cat (cs : list string) : string := foldr String.append "" cs.

(** The six payload bits of a continuation byte. *)
Definition cont (b : ascii) : option N :=
  let n := N_of_ascii b in
  if ((128 <=? n) && (n <? 192))%N then Some (n - 128)%N else None.

(** [ord(ch)] of one character; [None] for bytes that are not the UTF-8
    text of a code point (no [str] of Python holds such bytes). *)
Definition code_point (ch : string) : option N :=
  match ch with
  | String b0 EmptyString =>
      let n := N_of_ascii b0 in
      if (n <? 128)%N then Some n else None
  | String b0 (String b1 EmptyString) =>
      let n := N_of_ascii b0 in
      if ((194 <=? n) && (n <? 224))%N then
        c1 ← cont b1; Some ((n - 192) * 64 + c1)%N
      else None
  | String b0 (String b1 (String b2 EmptyString)) =>
      let n := N_of_ascii b0 in
      if ((224 <=? n) && (n <? 240))%N then
        c1 ← cont b1; c2 ← cont b2;
        let cp := ((n - 224) * 4096 + c1 * 64 + c2)%N in
        if (2048 <=? cp)%N then Some cp else None
      else None
  | String b0 (String b1 (String b2 (String b3 EmptyString))) =>
      let n := N_of_ascii b0 in
      if ((240 <=? n) && (n <? 245))%N then
        c1 ← cont b1; c2 ← cont b2; c3 ← cont b3;
        let cp := ((n - 240) * 262144 + c1 * 4096 + c2 * 64 + c3)%N in
        if ((65536 <=? cp) && (cp <? 1114112))%N then Some cp else None
      else None
  | _ => None
  end.

(** The code points [c] with [chr(c).isspace()]; they are also the
    characters that [\s] of [re] matches in a [str] pattern. *)
Definition space_code_points : list N :=
  [9; 10; 11; 12; 13; 28; 29; 30; 31; 32; 133; 160; 5760;
   8192; 8193; 8194; 8195; 8196; 8197; 8198; 8199; 8200; 8201; 8202;
   8232; 8233; 8239; 8287; 12288]%N.

(** [ch.isspace()] for one character. *)
Definition is_space (ch : string) : bool :=
  match code_point ch with
  | Some cp => existsb (N.eqb cp) space_code_points
  | None => false
  end.

(** The code points of the digits zero of the decimal digit characters
    (Unicode category Nd); the digit of value [v] is at zero + [v]. They are
    the characters with [ch.isdecimal()], the ones [\d] of [re] matches in a
    [str] pattern and the ones [int] reads as digits. *)
Definition decimal_zeros : list N :=
  [48; 1632; 1776; 1984; 2406; 2534; 2662; 2790; 2918; 3046; 3174; 3302;
   3430; 3558; 3664; 3792; 3872; 4160; 4240; 6112; 6160; 6470; 6608; 6784;
   6800; 6992; 7088; 7232; 7248; 42528; 43216; 43264; 43472; 43504; 43600;
   44016; 65296; 66720; 68912; 69734; 69872; 69942; 70096; 70384; 70736;
   70864; 71248; 71360; 71472; 71904; 72016; 72784; 73040; 73120; 92768;
   92864; 93008; 120782; 120792; 120802; 120812; 120822; 123200; 123632;
   125264; 130032]%N.

Definition decimal_of_code_point (cp : N) : option Z :=
  (fun z => Z.of_N (cp - z)) <$>
  List.find (fun z => (z <=? cp) && (cp <? z + 10))%N decimal_zeros.

(** The value of a decimal digit character. *)
Definition digit_val (ch : string) : option Z :=
  cp ← code_point ch; decimal_of_code_point cp.

Definition is_digit (ch : string) : bool :=
  match digit_val ch with Some _ => true | None => false end.

Fixpoint drop_while {A} (P : A → bool) (l : list A) : list A :=
  match l with
  | [] => []
  | x :: l' => if P x then drop_while P l' else l
  end.

Fixpoint take_while {A} (P : A → bool) (l : list A) : list A :=
  match l with
  | [] => []
  | x :: l' => if P x then x :: take_while P l' else []
  end.

Definition lower_char (c : ascii) : ascii :=
  let n := N_of_ascii c in
  if ((65 <=? n) && (n <=? 90))%N then ascii_of_N (n + 32) else c.

(** [s.lower()] *)
Fixpoint lower (s : string) : string :=
  match s with
  | EmptyString => EmptyString
  | String c s' => String (lower_char c) (lower s')
  end.

(** [s.lstrip()], [s.rstrip()], [s.strip()] *)
Definition lstrip (s : string) : string :=
  cat (drop_while is_space (chars s)).

Definition rstrip (s : string) : string :=
  cat (rev (drop_while is_space (rev (chars s)))).

Definition strip (s : string) : string := rstrip (lstrip s).

(** [s.split()]: the maximal runs of characters that are not white space;
    [cur] holds the characters of the run being read, last one first. *)
Definition flush (cur : list string) : list string :=
  match cur with [] => [] | _ => [cat (rev cur)] end.

Fixpoint split_go (cur : list string) (cs : list string) : list string :=
  match cs with
  | [] => flush cur
  | ch :: cs' =>
      if is_space ch then flush cur ++ split_go [] cs'
      else split_go (ch :: cur) cs'
  end.

Definition split (s : string) : list string := split_go [] (chars s).

(** [sep.join(l)] *)
Fixpoint join (sep : string) (l : list string) : string :=
  match l with
  | [] => ""
  | [x] => x
  | x :: l' => x +:+ sep +:+ join sep l'
  end.

(** [s * n]: the empty string when [n <= 0]. *)
Definition mul (s : string) (n : Z) : string :=
  join "" (replicate (Z.to_nat n) s).

(** [str(n)] for an [int]. *)
Definition str_of_int (n : Z) : string :=
  NilZero.string_of_int (Z.to_int n).

(** The white space that [int] skips around the number: the ASCII
    characters tab to carriage return and the space, and the white space
    beyond ASCII. The separators U+001C to U+001F are white space for
    [str.isspace] and are not skipped by [int]. *)
Definition is_int_space (ch : string) : bool :=
  match code_point ch with
  | Some cp => is_space ch && negb ((28 <=? cp) && (cp <=? 31))%N
  | None => false
  end.

(** The value of a run of decimal digits with single underscores between
    them, as [int] reads it, and the number of its digits; [None] when the
    text is not of that shape. *)
Fixpoint digits_go (acc : Z) (count : nat) (after_digit : bool)
    (cs : list string) : option (Z * nat) :=
  match cs with
  | [] => if after_digit then Some (acc, count) else None
  | ch :: cs' =>
      match digit_val ch with
      | Some d => digits_go (10 * acc + d) (S count) true cs'
      | None =>
          if (ch =? "_") && after_digit then digits_go acc count false cs'
          else None
      end
  end.

(** [sys.get_int_max_str_digits()]: [int] refuses a text with more digits. *)
Definition int_max_str_digits : nat := 4300.

(** [int(s)]: surrounding white space, an optional sign, digits.
    [None] stands for the [ValueError]. *)
Definition int (s : string) : option Z :=
  let cs := drop_while is_int_space (chars s) in
  let cs := rev (drop_while is_int_space (rev cs)) in
  let '(sign, ds) :=
    match cs with
    | ch :: ds =>
        if ch =? "+" then (1, ds) else if ch =? "-" then (-1, ds) else (1, cs)
    | [] => (1, cs)
    end in
  match digits_go 0 0 false ds with
  | Some (v, count) =>
      if (count <=? int_max_str_digits)%nat then Some (sign * v) else None
  | None => None
  end.

(** Truthiness of a [str] and of an [Optional[str]]. *)
Definition truthy (s : string) : bool := negb (s =? "").
Definition otruthy (o : option string) : bool :=
  match o with Some s => truthy s | None => false end.

Fixpoint starts_with (p s : string) : option string :=
  match p, s with
  | EmptyString, _ => Some s
  | String a p', String b s' =>
      if Ascii.eqb a b then starts_with p' s' else None
  | _, _ => None
  end.

(** The longest prefix of digits, and what follows it. *)
Definition span_digits (s : string) : string * string :=
  let cs := chars s in
  (cat (take_while is_digit cs), cat (drop_while is_digit cs)).

End Py.

(** The first [k] bytes of a text, and the text without them. *)
Fixpoint take_bytes (k : nat) (s : string) : string :=
  match k, s with
  | S k', String b s' => String b (take_bytes k' s')
  | _, _ => EmptyString
  end.

Fixpoint drop_bytes (k : nat) (s : string) : string :=
  match k, s with
  | S k', String b s' => drop_bytes k' s'
  | _, _ => s
  end.

(** A character that has all the bytes its first byte announces. *)
Definition complete (ch : string) : Prop :=
  match ch with
  | EmptyString => False
  | String b r => String.length ch = Py.width b
  end.

(** ** The markup tree *)

Definition W_NS : string :=
  "http://schemas.openxmlformats.org/wordprocessingml/2006/main".
Definition W : string := "{" +:+ W_NS +:+ "}".

Definition _qn (local : string) : string := W +:+ local.

(** An [ElementTree.Element]. *)
Local Unset Elimination Schemes.
Inductive Element : Type :=
  mkElement (tag : string) (attrib : list (string * string))
            (text : option string) (children : list Element).
Local Set Elimination Schemes.

Definition tag (e : Element) : string :=
  let 'mkElement t _ _ _ := e in t.
Definition attrib (e : Element) : list (string * string) :=
  let 'mkElement _ a _ _ := e in a.
Definition text (e : Element) : option string :=
  let 'mkElement _ _ x _ := e in x.
Definition children (e : Element) : list Element :=
  let 'mkElement _ _ _ cs := e in cs.

Module ET.

(** [e.get(key)] *)
Fixpoint lookup_attr (key : string) (a : list (string * string))
  : option string :=
  match a with
  | [] => None
  | (k, v) :: a' => if k =? key then Some v else lookup_attr key a'
  end.

Definition get (e : Element) (key : string) : option string :=
  lookup_attr key (attrib e).

(** [e.findall("./name")]: the direct children with that tag. *)
Definition findall_child (e : Element) (name : string) : list Element :=
  List.filter (fun c => tag c =? name) (children e).

(** [e.find("./name")]: the first of them. *)
Definition find_child (e : Element) (name : string) : option Element :=
  head (findall_child e name).

(** The proper descendants of [e] in document order. *)
Fixpoint descendants (e : Element) : list Element :=
  let 'mkElement _ _ _ cs := e in
  (fix go (l : list Element) : list Element :=
     match l with
     | [] => []
     | c :: l' => c :: descendants c ++ go l'
     end) cs.

(** [e.findall(".//name")] and [e.find(".//name")]. *)
Definition findall_desc (e : Element) (name : string) : list Element :=
  List.filter (fun c => tag c =? name) (descendants e).

Definition find_desc (e : Element) (name : string) : option Element :=
  head (findall_desc e name).

End ET.

(** ** Data model *)

Module Comment.
Record t : Type := mk {
  comment_id : string;
  author : option string;
  date : option string;
  text : string
}.
End Comment.

Module NumberingLevel.
Record t : Type := mk {
  num_fmt : string;
  lvl_text : string;
  start : Z
}.
End NumberingLevel.

Module NumberingDefinition.
Record t : Type := mk { levels : gmap Z NumberingLevel.t }.
End NumberingDefinition.

Module NumberingInfo.
Record t : Type := mk {
  abstract_nums : gmap string NumberingDefinition.t;
  num_to_abstract : gmap string string
}.

Definition get_level (self : t) (num_id : string) (ilvl : Z)
  : option NumberingLevel.t :=
  match num_to_abstract self !! num_id with
  | None => None
  | Some abstract_id =>
      if negb (Py.truthy abstract_id) then None
      else
        match abstract_nums self !! abstract_id with
        | None => None
        | Some abstract => NumberingDefinition.levels abstract !! ilvl
        end
  end.
End NumberingInfo.

Module StyleInfo.
Record t : Type := mk { heading_levels : gmap string Z }.
End StyleInfo.

Module CommentRange.
Record t : Type := mk {
  comment_id : string;
  text_parts : list string
}.

(** [cr.text_parts.append(text)] *)
Definition append (text : string) (cr : t) : t :=
  mk (comment_id cr) (text_parts cr ++ [text]).
End CommentRange.

Module CollectedComment.
Record t : Type := mk {
  comment_id : string;
  author : option string;
  date : option string;
  original_text : string;
  comment_text : string
}.
End CollectedComment.

(** ** The traversal state *)

Module RenderState.
Record t : Type := mk {
  comments : gmap string Comment.t;
  numbering : NumberingInfo.t;
  styles : StyleInfo.t;
  active_comment_ranges : gmap string CommentRange.t;
  collected_comments : list CollectedComment.t;
  emitted_comment_ids : gset string;
  list_counters : gmap (string * Z) Z
}.

(** [RenderState(comments=..., numbering=..., styles=...)] *)
Definition new (c : gmap string Comment.t) (n : NumberingInfo.t)
    (s : StyleInfo.t) : t :=
  mk c n s ∅ [] ∅ ∅.

Definition set_active (a : gmap string CommentRange.t) (self : t) : t :=
  mk (comments self) (numbering self) (styles self) a
     (collected_comments self) (emitted_comment_ids self)
     (list_counters self).

Definition set_collected (q : list CollectedComment.t) (self : t) : t :=
  mk (comments self) (numbering self) (styles self)
     (active_comment_ranges self) q (emitted_comment_ids self)
     (list_counters self).

Definition set_emitted (e : gset string) (self : t) : t :=
  mk (comments self) (numbering self) (styles self)
     (active_comment_ranges self) (collected_comments self) e
     (list_counters self).

Definition set_counters (k : gmap (string * Z) Z) (self : t) : t :=
  mk (comments self) (numbering self) (styles self)
     (active_comment_ranges self) (collected_comments self)
     (emitted_comment_ids self) k.

Definition start_comment_range (self : t) (cid : string) : t :=
  match active_comment_ranges self !! cid with
  | Some _ => self
  | None =>
      set_active (<[cid := CommentRange.mk cid []]>
                    (active_comment_ranges self)) self
  end.

Definition append_to_active_ranges (self : t) (text : string) : t :=
  set_active (CommentRange.append text <$> active_comment_ranges self) self.

(** The queue entry of [comment] with the given original text, appended,
    and its id marked as emitted. *)
Definition enqueue (self : t) (cid : string) (comment : Comment.t)
    (original : string) : t :=
  set_emitted ({[cid]} ∪ emitted_comment_ids self)
    (set_collected
       (collected_comments self ++
          [CollectedComment.mk cid (Comment.author comment)
             (Comment.date comment) original (Comment.text comment)])
       self).

Definition end_comment_range (self : t) (cid : string) : t :=
  match active_comment_ranges self !! cid with
  | None => self
  | Some cr =>
      let self := set_active (delete cid (active_comment_ranges self)) self in
      let original := Py.strip (Py.join "" (CommentRange.text_parts cr)) in
      let original := Py.join " " (Py.split original) in
      match comments self !! cid with
      | Some comment =>
          if bool_decide (cid ∈ emitted_comment_ids self) then self
          else enqueue self cid comment original
      | None => self
      end
  end.

Definition handle_comment_reference (self : t) (cid : string) : t :=
  if bool_decide (cid ∈ emitted_comment_ids self) then self
  else
    match active_comment_ranges self !! cid with
    | Some _ => self
    | None =>
        match comments self !! cid with
        | Some comment => enqueue self cid comment ""
        | None => self
        end
    end.

Definition pop_collected_comments (self : t)
  : list CollectedComment.t * t :=
  (collected_comments self, set_collected [] self).

Definition ordered_fmt (f : string) : bool :=
  (f =? "decimal") || (f =? "upperLetter") || (f =? "lowerLetter")
  || (f =? "upperRoman") || (f =? "lowerRoman").

Definition get_list_marker (self : t) (num_id : string) (ilvl : Z)
  : string * t :=
  match NumberingInfo.get_level (numbering self) num_id ilvl with
  | None => ("- ", self)
  | Some level =>
      let indent := Py.mul "  " ilvl in
      if NumberingLevel.num_fmt level =? "bullet" then
        (indent +:+ "- ", self)
      else if ordered_fmt (NumberingLevel.num_fmt level) then
        let key := (num_id, ilvl) in
        let count :=
          default (NumberingLevel.start level) (list_counters self !! key) in
        (indent +:+ Py.str_of_int count +:+ ". ",
         set_counters (<[key := count + 1]> (list_counters self)) self)
      else (indent +:+ "- ", self)
  end.

Definition reset_list_counter (self : t) (num_id : string) (ilvl : Z) : t :=
  let key := (num_id, ilvl) in
  match NumberingInfo.get_level (numbering self) num_id ilvl with
  | Some level =>
      set_counters (<[key := NumberingLevel.start level]>
                      (list_counters self)) self
  | None => self
  end.

Definition get_heading_level (self : t) (style_id : option string)
  : option Z :=
  match style_id with
  | None => None
  | Some sid =>
      if negb (Py.truthy sid) then None
      else StyleInfo.heading_levels (styles self) !! sid
  end.
End RenderState.

(** ** The output buffer *)

Module RunContext.
Record t : Type := mk {
  highlight : bool;
  bold : bool;
  italic : bool
}.
Definition default : t := mk false false false.
End RunContext.

Module RenderOut.
Record t : Type := mk {
  parts : list string;
  _highlight_open : bool;
  _bold_open : bool;
  _italic_open : bool
}.

(** [RenderOut()] *)
Definition new : t := mk [] false false false.

Definition _close_all_formats (self : t) : t :=
  let self :=
    if _italic_open self then
      mk (parts self ++ ["*"]) (_highlight_open self) (_bold_open self) false
    else self in
  let self :=
    if _bold_open self then
      mk (parts self ++ ["**"]) (_highlight_open self) false
         (_italic_open self)
    else self in
  if _highlight_open self then
    mk (parts self ++ ["=="]) false (_bold_open self) (_italic_open self)
  else self.

Definition append_text (self : t) (text : string) (ctx : RunContext.t)
    (state : RenderState.t) : t * RenderState.t :=
  if negb (Py.truthy text) then (self, state)
  else
    let state := RenderState.append_to_active_ranges state text in
    let self :=
      if RunContext.highlight ctx && negb (_highlight_open self) then
        mk (parts self ++ ["=="]) true (_bold_open self) (_italic_open self)
      else if negb (RunContext.highlight ctx) && _highlight_open self then
        mk (parts self ++ ["=="]) false (_bold_open self) (_italic_open self)
      else self in
    let self :=
      if RunContext.bold ctx && negb (_bold_open self) then
        mk (parts self ++ ["**"]) (_highlight_open self) true
           (_italic_open self)
      else if negb (RunContext.bold ctx) && _bold_open self then
        mk (parts self ++ ["**"]) (_highlight_open self) false
           (_italic_open self)
      else self in
    let self :=
      if RunContext.italic ctx && negb (_italic_open self) then
        mk (parts self ++ ["*"]) (_highlight_open self) (_bold_open self)
           true
      else if negb (RunContext.italic ctx) && _italic_open self then
        mk (parts self ++ ["*"]) (_highlight_open self) (_bold_open self)
           false
      else self in
    (mk (parts self ++ [text]) (_highlight_open self) (_bold_open self)
        (_italic_open self), state).

(** [append_literal(literal, state)], as every caller in [main.py] uses
    it: a [RenderState] object is always truthy. *)
Definition append_literal (self : t) (literal : string)
    (state : RenderState.t) : t * RenderState.t :=
  let self := _close_all_formats self in
  if Py.truthy literal then
    (mk (parts self ++ [literal]) (_highlight_open self) (_bold_open self)
        (_italic_open self),
     RenderState.append_to_active_ranges state literal)
  else (self, state).

(** [append_literal(literal)], with the default [state=None]. *)
Definition append_literal_nostate (self : t) (literal : string) : t :=
  let self := _close_all_formats self in
  if Py.truthy literal then
    mk (parts self ++ [literal]) (_highlight_open self) (_bold_open self)
       (_italic_open self)
  else self.

(** [finish()] returns the text; the buffer is left with every marker
    closed. *)
Definition finish (self : t) : string * t :=
  let self := _close_all_formats self in
  (Py.join "" (parts self), self).
End RenderOut.

(** ** Run and paragraph properties *)

Definition NL : string := String "010" "".
Definition TAB : string := String "009" "".
(** U+2011 and U+00AD in UTF-8. *)
Definition NO_BREAK_HYPHEN : string :=
  String "226" (String "128" (String "145" "")).
Definition SOFT_HYPHEN : string := String "194" (String "173" "").

(** [val is None or val.lower() not in ("false", "0")] *)
Definition flag_on (val : option string) : bool :=
  match val with
  | None => true
  | Some v => negb ((Py.lower v =? "false") || (Py.lower v =? "0"))
  end.

Definition _get_run_context (run : Element) : RunContext.t :=
  match ET.find_child run (_qn "rPr") with
  | None => RunContext.default
  | Some rpr =>
      let highlight :=
        match ET.find_child rpr (_qn "highlight") with
        | Some hl =>
            let val := Py.lower (Py.strip (default "" (ET.get hl (_qn "val")))) in
            negb ((val =? "") || (val =? "none"))
        | None => false
        end in
      let bold :=
        match ET.find_child rpr (_qn "b") with
        | Some b => flag_on (ET.get b (_qn "val"))
        | None => false
        end in
      let italic :=
        match ET.find_child rpr (_qn "i") with
        | Some i => flag_on (ET.get i (_qn "val"))
        | None => false
        end in
      RunContext.mk highlight bold italic
  end.

Module ParagraphProps.
Record t : Type := mk {
  style_id : option string;
  num_id : option string;
  ilvl : Z
}.
End ParagraphProps.

(** [x or "0"] for an [Optional[str]] *)
Definition or_zero (o : option string) : string :=
  match o with
  | Some v => if Py.truthy v then v else "0"
  | None => "0"
  end.

(** [None] when [int] raises. *)
Definition _get_paragraph_props (p : Element) : option ParagraphProps.t :=
  match ET.find_child p (_qn "pPr") with
  | None => Some (ParagraphProps.mk None None 0)
  | Some ppr =>
      let style_id :=
        match ET.find_child ppr (_qn "pStyle") with
        | Some pstyle => ET.get pstyle (_qn "val")
        | None => None
        end in
      match ET.find_child ppr (_qn "numPr") with
      | None => Some (ParagraphProps.mk style_id None 0)
      | Some numpr =>
          let num_id :=
            match ET.find_child numpr (_qn "numId") with
            | Some numid_el => ET.get numid_el (_qn "val")
            | None => None
            end in
          match ET.find_child numpr (_qn "ilvl") with
          | Some ilvl_el =>
              match Py.int (or_zero (ET.get ilvl_el (_qn "val"))) with
              | Some ilvl => Some (ParagraphProps.mk style_id num_id ilvl)
              | None => None
              end
          | None => Some (ParagraphProps.mk style_id num_id 0)
          end
      end
  end.

(** ** Rendering *)

(** [cid = node.get(_qn("id")); if cid: ...] *)
Definition with_id (node : Element) (f : string → RenderState.t)
    (state : RenderState.t) : RenderState.t :=
  match ET.get node (_qn "id") with
  | Some cid => if Py.truthy cid then f cid else state
  | None => state
  end.

(** [while len(row) < max_cols: row.append("")], [n] rounds of it. *)
Fixpoint pad_row (n : nat) (row : list string) : list string :=
  match n with
  | O => row
  | S n' => pad_row n' (row ++ [""])
  end.

Definition table_line (row : list string) : string :=
  "| " +:+ Py.join " | " row +:+ " |".

(** The output loop of [_render_table]: [for i, row in enumerate(rows)]. *)
Fixpoint emit_rows (i : nat) (rows : list (list string)) (max_cols : nat)
    (out : RenderOut.t) (state : RenderState.t)
  : RenderOut.t * RenderState.t :=
  match rows with
  | [] => (out, state)
  | row :: rest =>
      let row := pad_row (max_cols - length row) row in
      let line := table_line row in
      let '(out, state) := RenderOut.append_literal out (line +:+ NL) state in
      let '(out, state) :=
        if Nat.eqb i 0 then
          let sep := table_line (replicate max_cols "---") in
          RenderOut.append_literal out (sep +:+ NL) state
        else (out, state) in
      emit_rows (S i) rest max_cols out state
  end.

(** [_render_table] once the cell texts are collected in [rows]. *)
Definition emit_table (rows : list (list string)) (out : RenderOut.t)
    (state : RenderState.t) : RenderOut.t * RenderState.t :=
  match rows with
  | [] => (out, state)
  | _ =>
      let max_cols := list_max (List.map (@length string) rows) in
      if Nat.eqb max_cols 0 then (out, state)
      else emit_rows 0 rows max_cols out state
  end.

(** [_render_node], together with the parts of [_render_table] that
    descend into the table: the cells of one row ([render_row]) and the
    paragraphs below one cell, in document order ([render_cell_paras], the
    loop over [tc.findall(".//p")]). *)
Fixpoint _render_node (node : Element) (ctx : RunContext.t)
    (out : RenderOut.t) (state : RenderState.t) {struct node}
  : RenderOut.t * RenderState.t :=
  let 'mkElement ntag _ _ nchildren := node in
  if ntag =? _qn "commentRangeStart" then
    (out, with_id node (RenderState.start_comment_range state) state)
  else if ntag =? _qn "commentRangeEnd" then
    (out, with_id node (RenderState.end_comment_range state) state)
  else if ntag =? _qn "ins" then
    let '(inner, state) :=
      (fix each (cs : list Element) (o : RenderOut.t) (s : RenderState.t) :=
         match cs with
         | [] => (o, s)
         | child :: cs' =>
             let '(o, s) := _render_node child ctx o s in each cs' o s
         end) nchildren RenderOut.new state in
    let txt := fst (RenderOut.finish inner) in
    if Py.truthy txt then
      RenderOut.append_literal out ("{+" +:+ txt +:+ "+}") state
    else (out, state)
  else if ntag =? _qn "del" then
    let '(inner, state) :=
      (fix each (cs : list Element) (o : RenderOut.t) (s : RenderState.t) :=
         match cs with
         | [] => (o, s)
         | child :: cs' =>
             let '(o, s) := _render_node child ctx o s in each cs' o s
         end) nchildren RenderOut.new state in
    let txt := fst (RenderOut.finish inner) in
    if Py.truthy txt then
      RenderOut.append_literal out ("[-" +:+ txt +:+ "-]") state
    else (out, state)
  else if ntag =? _qn "r" then
    let run_ctx := _get_run_context node in
    let merged_ctx :=
      RunContext.mk
        (RunContext.highlight ctx || RunContext.highlight run_ctx)
        (RunContext.bold ctx || RunContext.bold run_ctx)
        (RunContext.italic ctx || RunContext.italic run_ctx) in
    (fix each (cs : list Element) (o : RenderOut.t) (s : RenderState.t) :=
       match cs with
       | [] => (o, s)
       | child :: cs' =>
           let ctag := tag child in
           let '(o, s) :=
             if ctag =? _qn "rPr" then (o, s)
             else if ctag =? _qn "commentReference" then
               (o, with_id child (RenderState.handle_comment_reference s) s)
             else if (ctag =? _qn "t") || (ctag =? _qn "delText") then
               RenderOut.append_text o (default "" (text child)) merged_ctx s
             else if ctag =? _qn "tab" then
               RenderOut.append_literal o TAB s
             else if (ctag =? _qn "br") || (ctag =? _qn "cr") then
               RenderOut.append_literal o NL s
             else if ctag =? _qn "noBreakHyphen" then
               RenderOut.append_text o NO_BREAK_HYPHEN merged_ctx s
             else if ctag =? _qn "softHyphen" then
               RenderOut.append_text o SOFT_HYPHEN merged_ctx s
             else _render_node child merged_ctx o s in
           each cs' o s
       end) nchildren out state
  else if ntag =? _qn "p" then
    (fix each (cs : list Element) (o : RenderOut.t) (s : RenderState.t) :=
       match cs with
       | [] => (o, s)
       | child :: cs' =>
           let '(o, s) :=
             if tag child =? _qn "pPr" then (o, s)
             else _render_node child ctx o s in
           each cs' o s
       end) nchildren out state
  else if ntag =? _qn "tbl" then
    let '(rows, state) :=
      (fix each (cs : list Element) (s : RenderState.t) :=
         match cs with
         | [] => ([], s)
         | tr :: cs' =>
             if tag tr =? _qn "tr" then
               let '(row_cells, s) := render_row tr s in
               let '(rows, s) := each cs' s in
               (row_cells :: rows, s)
             else each cs' s
         end) nchildren state in
    emit_table rows out state
  else
    (fix each (cs : list Element) (o : RenderOut.t) (s : RenderState.t) :=
       match cs with
       | [] => (o, s)
       | child :: cs' =>
           let '(o, s) := _render_node child ctx o s in each cs' o s
       end) nchildren out state

with render_row (tr : Element) (state : RenderState.t) {struct tr}
  : list string * RenderState.t :=
  let 'mkElement _ _ _ nchildren := tr in
  (fix each (cs : list Element) (s : RenderState.t) :=
     match cs with
     | [] => ([], s)
     | tc :: cs' =>
         if tag tc =? _qn "tc" then
           let '(cell_parts, s) := render_cell_paras tc [] s in
           let cell := Py.strip (Py.join " " cell_parts) in
           let '(row_cells, s) := each cs' s in
           (cell :: row_cells, s)
         else each cs' s
     end) nchildren state

with render_cell_paras (e : Element) (cell_parts : list string)
    (state : RenderState.t) {struct e} : list string * RenderState.t :=
  let 'mkElement _ _ _ nchildren := e in
  (fix each (cs : list Element) (acc : list string) (s : RenderState.t) :=
     match cs with
     | [] => (acc, s)
     | c :: cs' =>
         let '(acc, s) :=
           if tag c =? _qn "p" then
             let '(o, s) := _render_node c RunContext.default RenderOut.new s in
             let content := Py.rstrip (fst (RenderOut.finish o)) in
             (if Py.truthy content then acc ++ [content] else acc, s)
           else (acc, s) in
         let '(acc, s) := render_cell_paras c acc s in
         each cs' acc s
     end) nchildren cell_parts state.

Definition _render_paragraph_content (p : Element) (state : RenderState.t)
  : string * RenderState.t :=
  let '(out, state) := _render_node p RunContext.default RenderOut.new state in
  (Py.rstrip (fst (RenderOut.finish out)), state).

(** [for p in ps: content = ...; if content: cell_parts.append(content)] *)
Fixpoint cell_parts_of (ps : list Element) (cell_parts : list string)
    (state : RenderState.t) : list string * RenderState.t :=
  match ps with
  | [] => (cell_parts, state)
  | p :: ps' =>
      let '(content, state) := _render_paragraph_content p state in
      cell_parts_of ps'
        (if Py.truthy content then cell_parts ++ [content] else cell_parts)
        state
  end.

(** [for tc in tcs: ...; row_cells.append(" ".join(cell_parts).strip())] *)
Fixpoint row_cells_of (tcs : list Element) (state : RenderState.t)
  : list string * RenderState.t :=
  match tcs with
  | [] => ([], state)
  | tc :: tcs' =>
      let '(cell_parts, state) :=
        cell_parts_of (ET.findall_desc tc (_qn "p")) [] state in
      let cell := Py.strip (Py.join " " cell_parts) in
      let '(row_cells, state) := row_cells_of tcs' state in
      (cell :: row_cells, state)
  end.

(** [for tr in trs: ...; rows.append(row_cells)] *)
Fixpoint rows_of (trs : list Element) (state : RenderState.t)
  : list (list string) * RenderState.t :=
  match trs with
  | [] => ([], state)
  | tr :: trs' =>
      let '(row_cells, state) :=
        row_cells_of (ET.findall_child tr (_qn "tc")) state in
      let '(rows, state) := rows_of trs' state in
      (row_cells :: rows, state)
  end.

Definition _render_table (tbl : Element) (_ctx : RunContext.t)
    (out : RenderOut.t) (state : RenderState.t)
  : RenderOut.t * RenderState.t :=
  let '(rows, state) := rows_of (ET.findall_child tbl (_qn "tr")) state in
  emit_table rows out state.

Definition _format_comment_block (c : CollectedComment.t) : string :=
  let meta_parts :=
    ["**[批注 #" +:+ CollectedComment.comment_id c +:+ "]**"]
    ++ match CollectedComment.author c with
       | Some a => if Py.truthy a then [a] else []
       | None => []
       end
    ++ match CollectedComment.date c with
       | Some d => if Py.truthy d then ["(" +:+ d +:+ ")"] else []
       | None => []
       end in
  let lines :=
    ["> " +:+ Py.join " " meta_parts]
    ++ (if Py.truthy (CollectedComment.original_text c)
        then ["> **原文**：" +:+ CollectedComment.original_text c] else [])
    ++ (if Py.truthy (CollectedComment.comment_text c)
        then ["> **批注**：" +:+ CollectedComment.comment_text c] else []) in
  Py.join NL lines.

(** [for c in comments: lines.append(""); lines.append(block(c))] *)
Definition comment_lines (comments : list CollectedComment.t) : list string :=
  concat (List.map (fun c => [""; _format_comment_block c]) comments).

(** Truthiness of the [Optional[int]] heading level. *)
Definition heading_on (h : option Z) : bool :=
  match h with Some n => negb (Z.eqb n 0) | None => false end.

(** [None] when [_get_paragraph_props] raises. *)
Definition _render_paragraph (p : Element) (state : RenderState.t)
  : option (list string * RenderState.t) :=
  match _get_paragraph_props p with
  | None => None
  | Some props =>
      let '(content, state) := _render_paragraph_content p state in
      let '(comments, state) := RenderState.pop_collected_comments state in
      match content, comments with
      | EmptyString, [] => Some ([], state)
      | _, _ =>
          let heading_level :=
            RenderState.get_heading_level state (ParagraphProps.style_id props) in
          let '(lines, state) :=
            if heading_on heading_level && Py.truthy content then
              ([Py.mul "#" (default 0 heading_level) +:+ " " +:+ content],
               state)
            else if Py.otruthy (ParagraphProps.num_id props)
                    && Py.truthy content then
              let '(marker, state) :=
                RenderState.get_list_marker state
                  (default "" (ParagraphProps.num_id props))
                  (ParagraphProps.ilvl props) in
              ([marker +:+ content], state)
            else if Py.truthy content then ([content], state)
            else ([], state) in
          Some (lines ++ comment_lines comments, state)
      end
  end.

(** The loop of [linearize_docx] over the children of the body. *)
Fixpoint body_lines (cs : list Element) (output_lines : list string)
    (state : RenderState.t) : option (list string * RenderState.t) :=
  match cs with
  | [] => Some (output_lines, state)
  | child :: cs' =>
      if tag child =? _qn "p" then
        match _render_paragraph child state with
        | Some (para_lines, state) =>
            body_lines cs' (output_lines ++ para_lines) state
        | None => None
        end
      else if tag child =? _qn "tbl" then
        let '(out, state) :=
          _render_table child RunContext.default RenderOut.new state in
        let chunk := Py.rstrip (fst (RenderOut.finish out)) in
        body_lines cs'
          (if Py.truthy chunk then output_lines ++ [chunk] else output_lines)
          state
      else body_lines cs' output_lines state
  end.

(** [linearize_docx] from the parsed parts of the document: the root of
    [word/document.xml], the comment registry, the numbering table and the
    style table. The result carries the final traversal state next to the
    returned text. [None] when a [ValueError] escapes. *)
Definition linearize_docx_state (document_root : Element)
    (comments : gmap string Comment.t) (numbering : NumberingInfo.t)
    (styles : StyleInfo.t) : option (string * RenderState.t) :=
  let state := RenderState.new comments numbering styles in
  match ET.find_desc document_root (_qn "body") with
  | None => Some ("", state)
  | Some body =>
      match body_lines (children body) [] state with
      | None => None
      | Some (output_lines, state) =>
          let '(remaining, state) :=
            RenderState.pop_collected_comments state in
          let output_lines := output_lines ++ comment_lines remaining in
          let text := Py.rstrip (Py.join NL output_lines) in
          Some (if Py.truthy text then text +:+ NL else "", state)
      end
  end.

Definition linearize_docx (document_root : Element)
    (comments : gmap string Comment.t) (numbering : NumberingInfo.t)
    (styles : StyleInfo.t) : option string :=
  fst <$> linearize_docx_state document_root comments numbering styles.

(** ** The style parser *)

(** [re.match(r"(?:heading|标题)\s*(\d+)", s)]: the text of group 1. *)
Definition match_heading_name (s : string) : option string :=
  let after :=
    match Py.starts_with "heading" s with
    | Some r => Some r
    | None => Py.starts_with "标题" s
    end in
  match after with
  | None => None
  | Some r =>
      let '(digits, _) := Py.span_digits (Py.lstrip r) in
      if Py.truthy digits then Some digits else None
  end.

(** The outline-level part of the loop body of [_parse_styles]. *)
Definition style_outline (style : Element) (style_id : string)
    (heading_levels : gmap string Z) : option (gmap string Z) :=
  match ET.find_child style (_qn "pPr") with
  | None => Some heading_levels
  | Some ppr =>
      match ET.find_child ppr (_qn "outlineLvl") with
      | None => Some heading_levels
      | Some outline =>
          match ET.get outline (_qn "val") with
          | None => Some heading_levels
          | Some val =>
              match Py.int val with
              | None => None
              | Some lvl =>
                  if (0 <=? lvl) && (lvl <=? 5) then
                    Some (<[style_id := lvl + 1]> heading_levels)
                  else Some heading_levels
              end
          end
      end
  end.

(** The style-name part of the loop body. *)
Definition style_name (style : Element) (style_id : string)
    (heading_levels : gmap string Z) : option (gmap string Z) :=
  match ET.find_child style (_qn "name") with
  | None => Some heading_levels
  | Some name_el =>
      let name := default "" (ET.get name_el (_qn "val")) in
      let name_lower := Py.lower name in
      match match_heading_name name_lower with
      | None => Some heading_levels
      | Some group1 =>
          match Py.int group1 with
          | None => None
          | Some lvl =>
              if (1 <=? lvl) && (lvl <=? 6) then
                Some (<[style_id := lvl]> heading_levels)
              else Some heading_levels
          end
      end
  end.

(** One round of [for style in styles_root.findall(...)]. *)
Definition parse_style (heading_levels : gmap string Z) (style : Element)
  : option (gmap string Z) :=
  match ET.get style (_qn "styleId") with
  | None => Some heading_levels
  | Some style_id =>
      if negb (Py.truthy style_id) then Some heading_levels
      else
        match style_outline style style_id heading_levels with
        | None => None
        | Some heading_levels => style_name style style_id heading_levels
        end
  end.

Fixpoint parse_style_list (l : list Element) (heading_levels : gmap string Z)
  : option (gmap string Z) :=
  match l with
  | [] => Some heading_levels
  | style :: l' =>
      match parse_style heading_levels style with
      | None => None
      | Some heading_levels => parse_style_list l' heading_levels
      end
  end.

(** [None] when [int] raises on an outline level. *)
Definition _parse_styles (styles_root : option Element) : option StyleInfo.t :=
  match styles_root with
  | None => Some (StyleInfo.mk ∅)
  | Some root =>
      StyleInfo.mk <$>
        parse_style_list (ET.findall_desc root (_qn "style")) ∅
  end.

(** ** The loops of [_render_node] by name

    [_render_node] unfolds to these loops over the children of its node
    ([_render_node_unfold] below). *)

(** [for child in list(node): _render_node(child, ctx, out, state)] *)
Definition render_children (ctx : RunContext.t)
  : list Element → RenderOut.t → RenderState.t → RenderOut.t * RenderState.t :=
  fix each (cs : list Element) (o : RenderOut.t) (s : RenderState.t) :=
    match cs with
    | [] => (o, s)
    | child :: cs' =>
        let '(o, s) := _render_node child ctx o s in each cs' o s
    end.

(** One child of a run. *)
Definition render_run_child (merged_ctx : RunContext.t) (child : Element)
    (o : RenderOut.t) (s : RenderState.t) : RenderOut.t * RenderState.t :=
  let ctag := tag child in
  if ctag =? _qn "rPr" then (o, s)
  else if ctag =? _qn "commentReference" then
    (o, with_id child (RenderState.handle_comment_reference s) s)
  else if (ctag =? _qn "t") || (ctag =? _qn "delText") then
    RenderOut.append_text o (default "" (text child)) merged_ctx s
  else if ctag =? _qn "tab" then
    RenderOut.append_literal o TAB s
  else if (ctag =? _qn "br") || (ctag =? _qn "cr") then
    RenderOut.append_literal o NL s
  else if ctag =? _qn "noBreakHyphen" then
    RenderOut.append_text o NO_BREAK_HYPHEN merged_ctx s
  else if ctag =? _qn "softHyphen" then
    RenderOut.append_text o SOFT_HYPHEN merged_ctx s
  else _render_node child merged_ctx o s.

Definition render_run_children (merged_ctx : RunContext.t)
  : list Element → RenderOut.t → RenderState.t → RenderOut.t * RenderState.t :=
  fix each (cs : list Element) (o : RenderOut.t) (s : RenderState.t) :=
    match cs with
    | [] => (o, s)
    | child :: cs' =>
        let '(o, s) := render_run_child merged_ctx child o s in each cs' o s
    end.

Definition render_para_children (ctx : RunContext.t)
  : list Element → RenderOut.t → RenderState.t → RenderOut.t * RenderState.t :=
  fix each (cs : list Element) (o : RenderOut.t) (s : RenderState.t) :=
    match cs with
    | [] => (o, s)
    | child :: cs' =>
        let '(o, s) :=
          if tag child =? _qn "pPr" then (o, s)
          else _render_node child ctx o s in
        each cs' o s
    end.

Definition render_rows
  : list Element → RenderState.t → list (list string) * RenderState.t :=
  fix each (cs : list Element) (s : RenderState.t) :=
    match cs with
    | [] => ([], s)
    | tr :: cs' =>
        if tag tr =? _qn "tr" then
          let '(row_cells, s) := render_row tr s in
          let '(rows, s) := each cs' s in
          (row_cells :: rows, s)
        else each cs' s
    end.

Definition merge_ctx (ctx run_ctx : RunContext.t) : RunContext.t :=
  RunContext.mk
    (RunContext.highlight ctx || RunContext.highlight run_ctx)
    (RunContext.bold ctx || RunContext.bold run_ctx)
    (RunContext.italic ctx || RunContext.italic run_ctx).

(** [_render_node] on an insertion or a deletion, with its two brackets. *)
Definition render_revision (l r : string) (ctx : RunContext.t)
    (cs : list Element) (out : RenderOut.t) (state : RenderState.t)
  : RenderOut.t * RenderState.t :=
  let '(inner, state) := render_children ctx cs RenderOut.new state in
  let txt := fst (RenderOut.finish inner) in
  if Py.truthy txt then RenderOut.append_literal out (l +:+ txt +:+ r) state
  else (out, state).

Definition render_cells
  : list Element → RenderState.t → list string * RenderState.t :=
  fix each (cs : list Element) (s : RenderState.t) :=
    match cs with
    | [] => ([], s)
    | tc :: cs' =>
        if tag tc =? _qn "tc" then
          let '(cell_parts, s) := render_cell_paras tc [] s in
          let cell := Py.strip (Py.join " " cell_parts) in
          let '(row_cells, s) := each cs' s in
          (cell :: row_cells, s)
        else each cs' s
    end.

Definition render_paras_below
  : list Element → list string → RenderState.t
    → list string * RenderState.t :=
  fix each (cs : list Element) (acc : list string) (s : RenderState.t) :=
    match cs with
    | [] => (acc, s)
    | c :: cs' =>
        let '(acc, s) :=
          if tag c =? _qn "p" then
            let '(o, s) := _render_node c RunContext.default RenderOut.new s in
            let content := Py.rstrip (fst (RenderOut.finish o)) in
            (if Py.truthy content then acc ++ [content] else acc, s)
          else (acc, s) in
        let '(acc, s) := render_cell_paras c acc s in
        each cs' acc s
    end.

(** The descendants of a list of siblings, in document order. *)
Definition descendants_of_list : list Element → list Element :=
  fix go (l : list Element) : list Element :=
    match l with
    | [] => []
    | c :: l' => c :: ET.descendants c ++ go l'
    end.

(** ** The traversal as a sequence of state operations

    [_render_node], [_render_paragraph] and [linearize_docx] touch the
    [RenderState] through its methods only. [reset_list_counter] has no
    caller in [main.py], so it is no event of a traversal. *)

Inductive event : Type :=
| StartRange (cid : string)
| AppendText (text : string)
| EndRange (cid : string)
| Reference (cid : string)
| PopCollected
| ListMarker (num_id : string) (ilvl : Z).

Module Trace.

Definition step (st : RenderState.t) (e : event) : RenderState.t :=
  match e with
  | StartRange cid => RenderState.start_comment_range st cid
  | AppendText text => RenderState.append_to_active_ranges st text
  | EndRange cid => RenderState.end_comment_range st cid
  | Reference cid => RenderState.handle_comment_reference st cid
  | PopCollected => snd (RenderState.pop_collected_comments st)
  | ListMarker num_id ilvl => snd (RenderState.get_list_marker st num_id ilvl)
  end.

(** What [pop_collected_comments] hands to the caller at this event. *)
Definition handed (st : RenderState.t) (e : event)
  : list CollectedComment.t :=
  match e with
  | PopCollected => fst (RenderState.pop_collected_comments st)
  | _ => []
  end.

Fixpoint run (evs : list event) (st : RenderState.t) : RenderState.t :=
  match evs with
  | [] => st
  | e :: evs' => run evs' (step st e)
  end.

(** The comments handed out over the whole run, in order, after [log]. *)
Fixpoint run_log (evs : list event) (st : RenderState.t)
    (log : list CollectedComment.t)
  : list CollectedComment.t * RenderState.t :=
  match evs with
  | [] => (log, st)
  | e :: evs' => run_log evs' (step st e) (log ++ handed st e)
  end.


Definition is_marker (num_id : string) (ilvl : Z) (e : event) : bool :=
  match e with
  | ListMarker n i => (n =? num_id) && (Z.eqb i ilvl)
  | _ => false
  end.

(** How many times the marker of [(num_id, ilvl)] was asked for. *)
Definition marker_calls (num_id : string) (ilvl : Z) (evs : list event)
  : nat :=
  length (List.filter (is_marker num_id ilvl) evs).

End Trace.

Definition with_id_count (cid : string) (l : list CollectedComment.t) : nat :=
  length (List.filter (fun c => CollectedComment.comment_id c =? cid) l).

(** [" ".join("".join(parts).strip().split())] *)
Definition collapsed (parts : list string) : string :=
  Py.join " " (Py.split (Py.strip (Py.join "" parts))).

(** The two triggers of a comment, as the specification words them: the
    end of its range and its bare reference; the first one that fires
    gives the block. *)
Module Triggers.

(** The queue entry of [comment] with the original text [original]. *)
Definition block (cid : string) (comment : Comment.t) (original : string)
  : CollectedComment.t :=
  CollectedComment.mk cid (Comment.author comment) (Comment.date comment)
    original (Comment.text comment).

(** The block of the first trigger of comment [cid] that fires in [evs],
    if one does. [range] is the text that the open range of [cid] has
    collected, when there is one. The end of the range fires when the range
    is open, and gives its text, collapsed; the reference fires when no
    range of [cid] is open, and gives no original text. *)
Fixpoint first_block (cid : string) (comment : Comment.t)
    (range : option (list string)) (evs : list event)
  : option CollectedComment.t :=
  match evs with
  | [] => None
  | StartRange i :: evs' =>
      first_block cid comment
        (if i =? cid then Some (default [] range) else range) evs'
  | AppendText text :: evs' =>
      first_block cid comment ((fun parts => parts ++ [text]) <$> range) evs'
  | EndRange i :: evs' =>
      if i =? cid then
        match range with
        | Some parts => Some (block cid comment (collapsed parts))
        | None => first_block cid comment None evs'
        end
      else first_block cid comment range evs'
  | Reference i :: evs' =>
      if i =? cid then
        match range with
        | Some _ => first_block cid comment range evs'
        | None => Some (block cid comment "")
        end
      else first_block cid comment range evs'
  | PopCollected :: evs' => first_block cid comment range evs'
  | ListMarker _ _ :: evs' => first_block cid comment range evs'
  end.

(** The comments of [l] with the id [cid]. *)
Definition with_id (cid : string) (l : list CollectedComment.t)
  : list CollectedComment.t :=
  List.filter (fun c => CollectedComment.comment_id c =? cid) l.

End Triggers.

(** ** Sample documents *)

Module Sample.

(** An element of the main namespace. *)
Definition el (name : string) (a : list (string * string))
    (x : option string) (cs : list Element) : Element :=
  mkElement (_qn name) a x cs.

(** [<w:r><w:t>s</w:t></w:r>] *)
Definition run (s : string) : Element :=
  el "r" [] None [el "t" [] (Some s) []].


Definition range_start (cid : string) : Element :=
  el "commentRangeStart" [(_qn "id", cid)] None [].
Definition range_end (cid : string) : Element :=
  el "commentRangeEnd" [(_qn "id", cid)] None [].
Definition reference (cid : string) : Element :=
  el "r" [] None [el "commentReference" [(_qn "id", cid)] None []].

Definition document (body : list Element) : Element :=
  el "document" [] None [el "body" [] None body].

Definition registry : gmap string Comment.t :=
  {[ "1" := Comment.mk "1" (Some "Alice") (Some "2024-01-02") "fix this";
     "A" := Comment.mk "A" None None "first";
     "B" := Comment.mk "B" None None "second" ]}.

Definition no_numbering : NumberingInfo.t := NumberingInfo.mk ∅ ∅.
Definition no_styles : StyleInfo.t := StyleInfo.mk ∅.

Definition state0 : RenderState.t :=
  RenderState.new registry no_numbering no_styles.

(** The ranges of "A" and "B" both open. *)
Definition state_AB : RenderState.t :=
  RenderState.start_comment_range
    (RenderState.start_comment_range state0 "A") "B".

(** The range of "1" open. *)
Definition state_1 : RenderState.t :=
  RenderState.start_comment_range state0 "1".

(** An insertion of plain text, and one of bold text. *)
Definition plain_ins : Element := el "ins" [] None [run "new"].
Definition plain_del : Element :=
  el "del" [] None [el "r" [] None [el "delText" [] (Some "old") []]].

(** A paragraph whose comment range is opened and never closed. *)
Definition unterminated : Element :=
  document [el "p" [] None [range_start "1"; run "hello"]].

(** Two ranges open over the same text. *)
Definition overlapping : Element :=
  document [el "p" [] None
              [range_start "A"; range_start "B"; run "x";
               range_end "A"; range_end "B"]].

Definition cell (s : string) : Element :=
  el "tc" [] None [el "p" [] None [run s]].

(** A table with a row of two cells and a row of three. *)
Definition table : Element :=
  el "tbl" [] None
    [el "tr" [] None [cell "a"; cell "b"];
     el "tr" [] None [cell "c"; cell "d"; cell "e"]].

(** A style with outline level 1 and the name "Heading 1". *)
Definition heading_style : Element :=
  el "style" [(_qn "styleId", "H")] None
    [el "name" [(_qn "val", "Heading 1")] None [];
     el "pPr" [] None [el "outlineLvl" [(_qn "val", "1")] None []]].

(** A style sheet: an earlier definition of style "H" by outline level
    alone, the style above, and a style "G" named "heading 2". *)
Definition style_sheet : Element :=
  el "styles" [] None
    [el "style" [(_qn "styleId", "H")] None
       [el "pPr" [] None [el "outlineLvl" [(_qn "val", "3")] None []]];
     heading_style;
     el "style" [(_qn "styleId", "G")] None
       [el "name" [(_qn "val", "heading 2")] None []]].

(** One decimal list (id 3, start 1) and one bullet list (id 4). *)
Definition numbering : NumberingInfo.t :=
  NumberingInfo.mk
    {[ "10" := NumberingDefinition.mk
                 {[ 0 := NumberingLevel.mk "decimal" "%1." 1;
                    1 := NumberingLevel.mk "lowerRoman" "%2." 4 ]};
       "11" := NumberingDefinition.mk
                 {[ 1 := NumberingLevel.mk "bullet" "*" 1 ]} ]}
    {[ "3" := "10"; "4" := "11" ]}.

End Sample.

(** The ids of the comments queued so far are pairwise distinct and all
    marked as emitted. *)
Definition queued_once (log : list CollectedComment.t) (st : RenderState.t)
  : Prop :=
  let all := log ++ RenderState.collected_comments st in
  NoDup (CollectedComment.comment_id <$> all)
  ∧ ∀ c, c ∈ all →
      CollectedComment.comment_id c ∈ RenderState.emitted_comment_ids st.


(** [st'] is reached from [st] by state operations that hand out the
    comments [handed], in order. *)
Definition traverses (st : RenderState.t) (handed : list CollectedComment.t)
    (st' : RenderState.t) : Prop :=
  ∃ evs, ∀ log, Trace.run_log evs st log = (log ++ handed, st').

(** The lines of one stretch of output: what was rendered, then the blocks
    of the comments handed out there. *)
Definition stretch_lines (seg : list string * list CollectedComment.t)
  : list string :=
  fst seg ++ comment_lines (snd seg).

(** The three walks of the rendering keep to the state operations. *)
Definition walks_quietly (e : Element) : Prop :=
  (∀ ctx out st, traverses st [] (snd (_render_node e ctx out st)))
  ∧ (∀ st, traverses st [] (snd (render_row e st)))
  ∧ (∀ acc st, traverses st [] (snd (render_cell_paras e acc st))).

(** ** The buffer seen from outside: calls and marker pieces *)

Module Api.

(** One call of the interface of [RenderOut]. *)
Inductive call : Type :=
| EmitText (text : string) (ctx : RunContext.t)
| EmitLiteral (literal : string)
| Finish.

Definition step (o : RenderOut.t) (st : RenderState.t) (c : call)
  : RenderOut.t * RenderState.t :=
  match c with
  | EmitText text ctx => RenderOut.append_text o text ctx st
  | EmitLiteral literal => RenderOut.append_literal o literal st
  | Finish => (snd (RenderOut.finish o), st)
  end.

Fixpoint run (calls : list call) (o : RenderOut.t) (st : RenderState.t)
  : RenderOut.t * RenderState.t :=
  match calls with
  | [] => (o, st)
  | c :: calls' => let '(o, st) := step o st c in run calls' o st
  end.

(** The text a call hands to the buffer, when it is not empty. *)
Definition payload (c : call) : list string :=
  match c with
  | EmitText text _ => if Py.truthy text then [text] else []
  | EmitLiteral literal => if Py.truthy literal then [literal] else []
  | Finish => []
  end.

End Api.

Module Marks.

Inductive marker : Type := Highlight | Bold | Italic.

Definition marker_eqb (a b : marker) : bool :=
  match a, b with
  | Highlight, Highlight | Bold, Bold | Italic, Italic => true
  | _, _ => false
  end.

Definition marker_str (m : marker) : string :=
  match m with Highlight => "==" | Bold => "**" | Italic => "*" end.

(** A part of the buffer: the opening or the closing of a marker, or
    text handed in by the caller. *)
Inductive piece : Type :=
| Open (m : marker)
| Close (m : marker)
| Text (s : string).

Definition piece_str (p : piece) : string :=
  match p with
  | Open m | Close m => marker_str m
  | Text s => s
  end.

Definition texts (ps : list piece) : list string :=
  concat (List.map (fun p => match p with Text s => [s] | _ => [] end) ps).

(** Whether marker [m] is open after the pieces [ps], starting from
    [open]; [None] when a marker is opened twice or closed while closed. *)
Fixpoint scan (m : marker) (open : bool) (ps : list piece) : option bool :=
  match ps with
  | [] => Some open
  | Open m' :: ps' =>
      if marker_eqb m m' then
        if open then None else scan m true ps'
      else scan m open ps'
  | Close m' :: ps' =>
      if marker_eqb m m' then
        if open then scan m false ps' else None
      else scan m open ps'
  | Text _ :: ps' => scan m open ps'
  end.

(** Every marker is opened and closed in turn, and closed at the end. *)
Definition balanced (ps : list piece) : Prop :=
  ∀ m, scan m false ps = Some false.

(** Whether marker [m] is open after the pieces [ps], starting from
    [open]: the last opening or closing of [m] decides. *)
Fixpoint open_after (m : marker) (open : bool) (ps : list piece) : bool :=
  match ps with
  | [] => open
  | Open m' :: ps' => open_after m (if marker_eqb m m' then true else open) ps'
  | Close m' :: ps' =>
      open_after m (if marker_eqb m m' then false else open) ps'
  | Text _ :: ps' => open_after m open ps'
  end.

Definition opened (ps : list piece) (m : marker) : bool :=
  open_after m false ps.

(** The state of marker [m] that the context asks for. *)
Definition wanted (ctx : RunContext.t) (m : marker) : bool :=
  match m with
  | Highlight => RunContext.highlight ctx
  | Bold => RunContext.bold ctx
  | Italic => RunContext.italic ctx
  end.

(** For highlight, bold and italic in this order: the marker, when the
    state asked for differs from the state after [ps]. *)
Definition toggles (ps : list piece) (ctx : RunContext.t) : list piece :=
  flat_map
    (fun m =>
       if Bool.eqb (wanted ctx m) (opened ps m) then []
       else [if wanted ctx m then Open m else Close m])
    [Highlight; Bold; Italic].

(** The closing of every marker open after [ps], in the order italic,
    bold, highlight. *)
Definition closers (ps : list piece) : list piece :=
  Close <$> List.filter (opened ps) [Italic; Bold; Highlight].

(** The pieces a call adds after the pieces [ps]; a call with an empty
    text adds nothing. *)
Definition added (ps : list piece) (c : Api.call) : list piece :=
  match c with
  | Api.EmitText text ctx =>
      if Py.truthy text then toggles ps ctx ++ [Text text] else []
  | Api.EmitLiteral literal =>
      closers ps ++ (if Py.truthy literal then [Text literal] else [])
  | Api.Finish => closers ps
  end.

(** The pieces after the calls, from the pieces [ps]. *)
Fixpoint trace (ps : list piece) (calls : list Api.call) : list piece :=
  match calls with
  | [] => ps
  | c :: calls' => trace (ps ++ added ps c) calls'
  end.

Definition is_open (o : RenderOut.t) (m : marker) : bool :=
  match m with
  | Highlight => RenderOut._highlight_open o
  | Bold => RenderOut._bold_open o
  | Italic => RenderOut._italic_open o
  end.

(** The pieces [ps] are the parts of [o], account for its flags, and open
    and close every marker in turn. *)
Definition describes (ps : list piece) (o : RenderOut.t) : Prop :=
  RenderOut.parts o = piece_str <$> ps
  ∧ (∀ m, is_open o m = opened ps m)
  ∧ ∀ m, scan m false ps = Some (opened ps m).

End Marks.

(** ** The table as the specification words it *)

Module TableSpec.

(** A row right-padded with empty cells to [width]. *)
Definition padded (width : nat) (row : list string) : list string :=
  row ++ replicate (width - length row) "".

Definition width (rows : list (list string)) : nat :=
  list_max (List.map (@length string) rows).

(** ["| " + cells.join(" | ") + " |"] *)
Definition line (cells : list string) : string :=
  "| " +:+ Py.join " | " cells +:+ " |".

(** Each row padded to the width, and the separator row right after the
    first one. *)
Definition lines (rows : list (list string)) : list string :=
  match rows with
  | [] => []
  | first :: rest =>
      line (padded (width rows) first)
      :: line (replicate (width rows) "---")
      :: List.map (fun row => line (padded (width rows) row)) rest
  end.

End TableSpec.

(** The literals the loop of [emit_rows] writes from round [i] on. *)
Fixpoint emitted_lines (i : nat) (rows : list (list string)) (max_cols : nat)
  : list string :=
  match rows with
  | [] => []
  | row :: rest =>
      (table_line (pad_row (max_cols - length row) row) +:+ NL)
      :: (if Nat.eqb i 0
          then [table_line (replicate max_cols "---") +:+ NL] else [])
      ++ emitted_lines (S i) rest max_cols
  end.

Definition all_closed (o : RenderOut.t) : Prop :=
  RenderOut._highlight_open o = false
  ∧ RenderOut._bold_open o = false
  ∧ RenderOut._italic_open o = false.

(** ** The heading pattern as the specification words it *)

Module StyleSpec.

(** Every character of [s] is in the class [P]. *)
Definition all_chars (P : string → bool) (s : string) : bool :=
  forallb P (Py.chars s).

Definition no_leading_digit (s : string) : bool :=
  match Py.chars s with
  | [] => true
  | ch :: _ => negb (Py.is_digit ch)
  end.

(** [s] is "heading" or "标题", white space, the digits [digits], and a
    rest that does not go on with a digit. *)
Definition heading_name (s digits : string) : Prop :=
  ∃ kw ws rest,
    (kw = "heading" ∨ kw = "标题")
    ∧ s = kw +:+ ws +:+ digits +:+ rest
    ∧ all_chars Py.is_space ws = true
    ∧ digits ≠ ""
    ∧ all_chars Py.is_digit digits = true
    ∧ no_leading_digit rest = true.

End StyleSpec.

(** ** Revisions of plain text *)

(** A [t] or [delText] leaf. *)
Definition is_text_leaf (e : Element) : bool :=
  (tag e =? _qn "t") || (tag e =? _qn "delText").

(** A run that holds text leaves only (so no run properties either). *)
Definition is_plain_run (e : Element) : bool :=
  (tag e =? _qn "r") && forallb is_text_leaf (children e).

(** The texts of the leaves, as [append_text] receives them, empty ones
    left out. *)
Definition leaf_texts (leaves : list Element) : list string :=
  List.filter Py.truthy (List.map (fun k => default "" (text k)) leaves).

Definition run_texts (runs : list Element) : list string :=
  concat (List.map (fun c => leaf_texts (children c)) runs).

(** The state after the fragments went to the active ranges one by one. *)
Definition forward (fragments : list string) (st : RenderState.t)
  : RenderState.t :=
  fold_left RenderState.append_to_active_ranges fragments st.

(** A buffer with no marker open. *)
Definition closed_out (parts : list string) : RenderOut.t :=
  RenderOut.mk parts false false false.

(** The text the inner buffer of a revision node returns. *)
Definition inner_text (node : Element) (ctx : RunContext.t)
    (st : RenderState.t) : string :=
  fst (RenderOut.finish
         (fst (render_children ctx (children node) RenderOut.new st))).

(** The state after the content of a revision node went into the inner
    buffer. *)
Definition inner_state (node : Element) (ctx : RunContext.t)
    (st : RenderState.t) : RenderState.t :=
  snd (render_children ctx (children node) RenderOut.new st).


(** * Further properties of the engine: definitions *)

(** ** What rendering keeps *)

(** The read-only inputs of a traversal and the list counters are the
    same in both states. *)
Definition same_inputs (st st' : RenderState.t) : Prop :=
  RenderState.comments st' = RenderState.comments st
  ∧ RenderState.numbering st' = RenderState.numbering st
  ∧ RenderState.styles st' = RenderState.styles st
  ∧ RenderState.list_counters st' = RenderState.list_counters st.

(** The queued comment [c] carries the registry entry of its id. *)
Definition from_registry (reg : gmap string Comment.t)
    (c : CollectedComment.t) : Prop :=
  ∃ cm,
    reg !! CollectedComment.comment_id c = Some cm
    ∧ CollectedComment.author c = Comment.author cm
    ∧ CollectedComment.date c = Comment.date cm
    ∧ CollectedComment.comment_text c = Comment.text cm.

(** From [st] to [st'] the queue only got longer, by registry comments
    whose ids were not emitted before and are emitted now; no emitted id
    was forgotten. *)
Definition queue_grows (st st' : RenderState.t) : Prop :=
  RenderState.comments st' = RenderState.comments st
  ∧ RenderState.emitted_comment_ids st ⊆ RenderState.emitted_comment_ids st'
  ∧ ∃ new,
      RenderState.collected_comments st'
        = RenderState.collected_comments st ++ new
      ∧ Forall (fun c =>
                  from_registry (RenderState.comments st) c
                  ∧ (CollectedComment.comment_id c
                       ∉ RenderState.emitted_comment_ids st)
                  ∧ (CollectedComment.comment_id c
                       ∈ RenderState.emitted_comment_ids st')) new.

(** The buffer [o'] holds the parts of [o] and then more. *)
Definition extends (o o' : RenderOut.t) : Prop :=
  ∃ suffix, RenderOut.parts o' = RenderOut.parts o ++ suffix.

(** Two relations, one on buffers and one on states, between the arguments
    and the result of a rendering step. *)
Definition keeps (R : RenderState.t → RenderState.t → Prop)
    (Q : RenderOut.t → RenderOut.t → Prop) (o : RenderOut.t)
    (s : RenderState.t) (r : RenderOut.t * RenderState.t) : Prop :=
  Q o (fst r) ∧ R s (snd r).

(** The three walks of a node keep both relations. *)
Definition node_keeps (R : RenderState.t → RenderState.t → Prop)
    (Q : RenderOut.t → RenderOut.t → Prop) (e : Element) : Prop :=
  (∀ ctx o s, keeps R Q o s (_render_node e ctx o s))
  ∧ (∀ s, R s (snd (render_row e s)))
  ∧ (∀ acc s, R s (snd (render_cell_paras e acc s))).

(** ** Calls without formatting *)

(** A call that asks for no marker: a literal, or text in the default
    context. *)
Definition plain_call (c : Api.call) : bool :=
  match c with
  | Api.EmitText _ ctx =>
      negb (RunContext.highlight ctx) && negb (RunContext.bold ctx)
      && negb (RunContext.italic ctx)
  | Api.EmitLiteral _ => true
  | Api.Finish => true
  end.

(** The open flags of a buffer, as a context. *)
Definition open_flags (o : RenderOut.t) : RunContext.t :=
  RunContext.mk (RenderOut._highlight_open o) (RenderOut._bold_open o)
    (RenderOut._italic_open o).

(** ** The life of one comment range *)

(** The state after the range of [cid] was opened, received the
    fragments, and was closed. *)
Definition range_cycle (st : RenderState.t) (cid : string)
    (fragments : list string) : RenderState.t :=
  RenderState.end_comment_range
    (forward fragments (RenderState.start_comment_range st cid)) cid.

(** Every field of the state but the list counters is the same. *)
Definition same_but_counters (st st' : RenderState.t) : Prop :=
  RenderState.comments st' = RenderState.comments st
  ∧ RenderState.numbering st' = RenderState.numbering st
  ∧ RenderState.styles st' = RenderState.styles st
  ∧ RenderState.active_comment_ranges st'
    = RenderState.active_comment_ranges st
  ∧ RenderState.collected_comments st' = RenderState.collected_comments st
  ∧ RenderState.emitted_comment_ids st' = RenderState.emitted_comment_ids st.

(** ** Paragraphs that cannot be read *)



(** ** More sample data *)

Module SampleX.

(** Style "H" is a heading of level 2. *)
Definition styles : StyleInfo.t := StyleInfo.mk {[ "H" := 2 ]}.

Definition state : RenderState.t :=
  RenderState.new Sample.registry Sample.numbering styles.

(** The properties of a paragraph of style [style] in list [num_id] at
    depth [ilvl]. *)
Definition ppr (style num_id ilvl : string) : Element :=
  Sample.el "pPr" [] None
    [Sample.el "pStyle" [(_qn "val", style)] None [];
     Sample.el "numPr" [] None
       [Sample.el "ilvl" [(_qn "val", ilvl)] None [];
        Sample.el "numId" [(_qn "val", num_id)] None []]].

(** A heading that is also an item of the decimal list "3". *)
Definition heading_item : Element :=
  Sample.el "p" [] None [ppr "H" "3" "0"; Sample.run "Title"].

(** An item of list "3" whose depth is not a number. *)
Definition bad_item : Element :=
  Sample.el "p" [] None [ppr "N" "3" "x"; Sample.run "text"].

End SampleX.

(** ** Styles that cannot be read *)

(** The style has an id and an outline level whose value [int] rejects. *)
Definition bad_outline (style : Element) : Prop :=
  ∃ style_id ppr outline val,
    ET.get style (_qn "styleId") = Some style_id
    ∧ style_id ≠ ""
    ∧ ET.find_child style (_qn "pPr") = Some ppr
    ∧ ET.find_child ppr (_qn "outlineLvl") = Some outline
    ∧ ET.get outline (_qn "val") = Some val
    ∧ Py.int val = None.

(** The style has an id and a name that matches the heading pattern with
    more digits than [int] reads. *)
Definition long_heading_name (style : Element) : Prop :=
  ∃ style_id name_el group1,
    ET.get style (_qn "styleId") = Some style_id
    ∧ style_id ≠ ""
    ∧ ET.find_child style (_qn "name") = Some name_el
    ∧ match_heading_name
        (Py.lower (default "" (ET.get name_el (_qn "val")))) = Some group1
    ∧ (Py.int_max_str_digits < length (Py.chars group1))%nat.

(** The style makes [_parse_styles] raise. *)
Definition bad_style (style : Element) : Prop :=
  bad_outline style ∨ long_heading_name style.

(** The level of [style_id] in [new] was already in [old], or it is a
    level from 1 to 6 read off a style of [styles] with that id. *)
Definition level_from (styles : list Element) (old new : gmap string Z)
  : Prop :=
  ∀ style_id h,
    new !! style_id = Some h →
    old !! style_id = Some h
    ∨ (1 ≤ h ≤ 6
       ∧ ∃ style, style ∈ styles
                  ∧ ET.get style (_qn "styleId") = Some style_id).

(** ** Plain text of a node, and the comment registry *)

(** The strings [_iter_plain_text_nodes] yields, in order. *)
Fixpoint _iter_plain_text_nodes (node : Element) : list string :=
  let 'mkElement ntag _ ntext nchildren := node in
  if (ntag =? _qn "t") || (ntag =? _qn "delText") then
    match ntext with
    | Some s => if Py.truthy s then [s] else []
    | None => []
    end
  else if ntag =? _qn "tab" then [TAB]
  else if (ntag =? _qn "br") || (ntag =? _qn "cr") then [NL]
  else if ntag =? _qn "noBreakHyphen" then [NO_BREAK_HYPHEN]
  else if ntag =? _qn "softHyphen" then [SOFT_HYPHEN]
  else
    (fix each (cs : list Element) : list string :=
       match cs with
       | [] => []
       | child :: cs' => _iter_plain_text_nodes child ++ each cs'
       end) nchildren.

Definition _text_of (node : Element) : string :=
  Py.join "" (_iter_plain_text_nodes node).

(** The loop of [_iter_plain_text_nodes] over the children, by name. *)
Definition iter_children : list Element → list string :=
  fix each (cs : list Element) : list string :=
    match cs with
    | [] => []
    | child :: cs' => _iter_plain_text_nodes child ++ each cs'
    end.

(** [s.replace("Z", "+00:00")] *)
Fixpoint replace_Z (s : string) : string :=
  match s with
  | EmptyString => EmptyString
  | String c s' =>
      if Ascii.eqb c "Z" then "+00:00" +:+ replace_Z s'
      else String c (replace_Z s')
  end.

Section Dates.

(** [datetime.fromisoformat(v).date().isoformat()] of the standard
    library: the date of an ISO text, [None] when it raises [ValueError]. *)
Variable fromisoformat_date : string → option string.

Definition _parse_iso_date (value : option string) : option string :=
  match value with
  | None => None
  | Some value =>
      if negb (Py.truthy value) then None
      else
        let value := Py.strip value in
        if negb (Py.truthy value) then None
        else
          match fromisoformat_date (replace_Z value) with
          | Some d => Some d
          | None => Some value
          end
  end.

(** The registry entry built from the comment element [c] with id [cid]. *)
Definition comment_of (cid : string) (c : Element) : Comment.t :=
  let author := ET.get c (_qn "author") in
  let date := _parse_iso_date (ET.get c (_qn "date")) in
  let text_raw := Py.strip (_text_of c) in
  let text := Py.join " " (Py.split text_raw) in
  Comment.mk cid author date text.

(** The loop of [_parse_comments]. *)
Fixpoint parse_comment_list (l : list Element)
    (comments : gmap string Comment.t) : gmap string Comment.t :=
  match l with
  | [] => comments
  | c :: l' =>
      match ET.get c (_qn "id") with
      | None => parse_comment_list l' comments
      | Some cid =>
          if negb (Py.truthy cid) then parse_comment_list l' comments
          else parse_comment_list l' (<[cid := comment_of cid c]> comments)
      end
  end.

Definition _parse_comments (comments_root : option Element)
  : gmap string Comment.t :=
  match comments_root with
  | None => ∅
  | Some root =>
      parse_comment_list (ET.findall_desc root (_qn "comment")) ∅
  end.

End Dates.

(** A comment element with a non-empty id [cid]. *)
Definition comment_with_id (cid : string) (c : Element) : Prop :=
  ET.get c (_qn "id") = Some cid ∧ cid ≠ "".

Module SampleX2.

(** A date reader that knows one date and rejects the rest. *)
Definition fromisoformat_date (s : string) : option string :=
  if s =? "2024-01-02T03:04:05+00:00" then Some "2024-01-02" else None.

Definition comment (cid : string) (date : string) (body : string) : Element :=
  Sample.el "comment"
    [(_qn "id", cid); (_qn "author", "Alice"); (_qn "date", date)] None
    [Sample.el "p" [] None [Sample.run body]].

Definition comments_root : Element :=
  Sample.el "comments" [] None
    [comment "1" "2024-01-02T03:04:05Z" "  fix   this ";
     comment "2" " soon " "later"].

End SampleX2.

(** * Properties *)

(** ** Unfolding [_render_node] *)

Lemma _render_node_unfold (node : Element) (ctx : RunContext.t)
    (out : RenderOut.t) (state : RenderState.t) :
  _render_node node ctx out state =
    let ntag := tag node in
    if ntag =? _qn "commentRangeStart" then
      (out, with_id node (RenderState.start_comment_range state) state)
    else if ntag =? _qn "commentRangeEnd" then
      (out, with_id node (RenderState.end_comment_range state) state)
    else if ntag =? _qn "ins" then
      render_revision "{+" "+}" ctx (children node) out state
    else if ntag =? _qn "del" then
      render_revision "[-" "-]" ctx (children node) out state
    else if ntag =? _qn "r" then
      render_run_children (merge_ctx ctx (_get_run_context node))
        (children node) out state
    else if ntag =? _qn "p" then
      render_para_children ctx (children node) out state
    else if ntag =? _qn "tbl" then
      let '(rows, state) := render_rows (children node) state in
      emit_table rows out state
    else render_children ctx (children node) out state.
Proof. destruct node; reflexivity. Qed.

Lemma render_row_unfold (tr : Element) (state : RenderState.t) :
  render_row tr state = render_cells (children tr) state.
Proof. destruct tr; reflexivity. Qed.

Lemma render_cell_paras_unfold (e : Element) (acc : list string)
    (state : RenderState.t) :
  render_cell_paras e acc state = render_paras_below (children e) acc state.
Proof. destruct e; reflexivity. Qed.

Lemma descendants_unfold (e : Element) :
  ET.descendants e = descendants_of_list (children e).
Proof. destruct e; reflexivity. Qed.

(** Induction on the markup tree: the property holds of a node when it
    holds of all its children. *)
Lemma Element_tree_ind (P : Element → Prop) :
  (∀ t a x cs, Forall P cs → P (mkElement t a x cs)) → ∀ e, P e.
Proof.
  intros step. fix IH 1. intros [t a x cs]. apply step.
  induction cs as [|c cs IHcs]; constructor; [apply IH | exact IHcs].
Qed.

(** ** The table walk of [_render_node] is [_render_table] *)

Lemma cell_parts_of_app (l1 l2 : list Element) (acc : list string)
    (s : RenderState.t) :
  cell_parts_of (l1 ++ l2) acc s =
    let '(acc, s) := cell_parts_of l1 acc s in cell_parts_of l2 acc s.
Proof.
  revert acc s. induction l1 as [|p l1 IH]; intros acc s; simpl; [done|].
  destruct (_render_paragraph_content p s) as [content s']. apply IH.
Qed.

Lemma render_cell_paras_findall (e : Element) (acc : list string)
    (s : RenderState.t) :
  render_cell_paras e acc s = cell_parts_of (ET.findall_desc e (_qn "p")) acc s.
Proof.
  revert acc s. induction e as [t a x cs IH] using Element_tree_ind.
  intros acc s. rewrite render_cell_paras_unfold.
  unfold ET.findall_desc. rewrite descendants_unfold. simpl children.
  revert acc s. induction IH as [|c cs Hc _ IHcs]; intros acc s; [done|].
  simpl. rewrite List.filter_app.
  destruct (tag c =? _qn "p") eqn:Htag.
  - simpl. unfold _render_paragraph_content at 1.
    destruct (_render_node c RunContext.default RenderOut.new s) as [o s1].
    simpl. rewrite Hc, cell_parts_of_app. unfold ET.findall_desc.
    destruct (cell_parts_of _ _ s1) as [acc2 s2]. apply IHcs.
  - rewrite Hc, cell_parts_of_app. unfold ET.findall_desc.
    destruct (cell_parts_of _ acc s) as [acc2 s2]. apply IHcs.
Qed.

Lemma render_cells_findall (cs : list Element) (s : RenderState.t) :
  render_cells cs s =
    row_cells_of (List.filter (fun c => tag c =? _qn "tc") cs) s.
Proof.
  revert s. induction cs as [|c cs IH]; intros s; [done|].
  simpl. destruct (tag c =? _qn "tc"); [|apply IH].
  simpl. rewrite render_cell_paras_findall.
  destruct (cell_parts_of _ [] s) as [parts s1]. by rewrite IH.
Qed.

Lemma render_rows_findall (cs : list Element) (s : RenderState.t) :
  render_rows cs s = rows_of (List.filter (fun c => tag c =? _qn "tr") cs) s.
Proof.
  revert s. induction cs as [|c cs IH]; intros s; [done|].
  simpl. destruct (tag c =? _qn "tr"); [|apply IH].
  simpl. rewrite render_row_unfold, render_cells_findall.
  unfold ET.findall_child.
  destruct (row_cells_of _ s) as [row s1]. by rewrite IH.
Qed.

(** On a table node, [_render_node] does what [_render_table] does. *)
Lemma _render_node_tbl (node : Element) (ctx : RunContext.t)
    (out : RenderOut.t) (state : RenderState.t) :
  tag node = _qn "tbl" →
  _render_node node ctx out state = _render_table node ctx out state.
Proof.
  intros Htag. rewrite _render_node_unfold. simpl. rewrite Htag.
  unfold _render_table, ET.findall_child.
  by rewrite render_rows_findall.
Qed.

(** ** Strings *)

Lemma append_cons (c : ascii) (s t : string) :
  String c s +:+ t = String c (s +:+ t).
Proof. reflexivity. Qed.

Lemma append_nil_l (s : string) : "" +:+ s = s.
Proof. reflexivity. Qed.

Lemma append_nil_r (s : string) : s +:+ "" = s.
Proof. induction s as [|c s IH]; [done|]. by rewrite append_cons, IH. Qed.

Lemma append_assoc (s t u : string) : (s +:+ t) +:+ u = s +:+ t +:+ u.
Proof.
  induction s as [|c s IH]; [done|]. by rewrite !append_cons, IH.
Qed.

Lemma truthy_true (s : string) : Py.truthy s = true ↔ s ≠ "".
Proof.
  unfold Py.truthy. rewrite negb_true_iff. apply String.eqb_neq.
Qed.

Lemma truthy_false (s : string) : Py.truthy s = false ↔ s = "".
Proof.
  unfold Py.truthy. rewrite negb_false_iff. apply String.eqb_eq.
Qed.

Lemma join_empty_cons (x : string) (l : list string) :
  Py.join "" (x :: l) = x +:+ Py.join "" l.
Proof.
  destruct l as [|y l]; simpl; [by rewrite append_nil_r | done].
Qed.

Lemma join_empty_app (l1 l2 : list string) :
  Py.join "" (l1 ++ l2) = Py.join "" l1 +:+ Py.join "" l2.
Proof.
  induction l1 as [|x l1 IH]; [done|].
  change ((x :: l1) ++ l2) with (x :: (l1 ++ l2)).
  by rewrite !join_empty_cons, IH, append_assoc.
Qed.

Lemma join_empty_snoc (l : list string) (x : string) :
  Py.join "" (l ++ [x]) = Py.join "" l +:+ x.
Proof. rewrite join_empty_app. simpl. done. Qed.

(** ** The characters of a text *)

Lemma take_drop_bytes (k : nat) (s : string) :
  take_bytes k s +:+ drop_bytes k s = s.
Proof.
  revert s. induction k as [|k IH]; intros [|b s]; try done.
  cbn [take_bytes drop_bytes]. rewrite append_cons. by rewrite IH.
Qed.

Lemma chars_go_spec (k : nat) (s : string) :
  Py.chars_go k s = (take_bytes k s, Py.chars (drop_bytes k s)).
Proof.
  revert k. induction s as [|b s IH]; intros k.
  - by destruct k.
  - destruct k as [|k].
    + cbn [take_bytes drop_bytes]. unfold Py.chars.
      cbn [Py.chars_go]. by destruct (Py.chars_go _ s).
    + cbn [Py.chars_go take_bytes drop_bytes]. by rewrite IH.
Qed.

Lemma chars_nil : Py.chars "" = [].
Proof. reflexivity. Qed.

Lemma chars_cons (b : ascii) (s : string) :
  Py.chars (String b s)
  = String b (take_bytes (Nat.pred (Py.width b)) s)
    :: Py.chars (drop_bytes (Nat.pred (Py.width b)) s).
Proof.
  unfold Py.chars at 1. cbn [Py.chars_go]. by rewrite chars_go_spec.
Qed.

Lemma drop_bytes_length (k : nat) (s : string) :
  (String.length (drop_bytes k s) <= String.length s)%nat.
Proof.
  revert s. induction k as [|k IH]; intros [|b s]; cbn; try lia.
  specialize (IH s). lia.
Qed.

Lemma string_length_ind (P : string → Prop) :
  (∀ s, (∀ t, (String.length t < String.length s)%nat → P t) → P s) →
  ∀ s, P s.
Proof.
  intros H s. remember (String.length s) as n eqn:Hn.
  revert s Hn. induction n as [n IH] using lt_wf_ind.
  intros s ->. apply H. intros t Ht. by apply (IH _ Ht).
Qed.

Lemma cat_chars (s : string) : Py.cat (Py.chars s) = s.
Proof.
  induction s as [s IH] using string_length_ind.
  destruct s as [|b s]; [done|].
  rewrite chars_cons. cbn [Py.cat foldr]. fold (Py.cat (Py.chars
    (drop_bytes (Nat.pred (Py.width b)) s))).
  rewrite IH.
  - rewrite append_cons. by rewrite take_drop_bytes.
  - cbn. pose proof (drop_bytes_length (Nat.pred (Py.width b)) s). lia.
Qed.

Lemma cat_app (a b : list string) : Py.cat (a ++ b) = Py.cat a +:+ Py.cat b.
Proof.
  induction a as [|x a IH]; [done|].
  cbn [Py.cat foldr app]. fold (Py.cat (a ++ b)). fold (Py.cat a).
  by rewrite IH, append_assoc.
Qed.

Lemma take_bytes_app (r t : string) :
  take_bytes (String.length r) (r +:+ t) = r.
Proof.
  induction r as [|c r IH]; [by destruct t|].
  rewrite append_cons. cbn [String.length take_bytes]. by rewrite IH.
Qed.

Lemma drop_bytes_app (r t : string) :
  drop_bytes (String.length r) (r +:+ t) = t.
Proof.
  induction r as [|c r IH]; [by destruct t|].
  rewrite append_cons. cbn [String.length drop_bytes]. by rewrite IH.
Qed.

Lemma chars_app_complete (ch t : string) :
  complete ch → Py.chars (ch +:+ t) = ch :: Py.chars t.
Proof.
  destruct ch as [|b r]; [done|]. cbn [complete String.length]. intros Hw.
  rewrite append_cons, chars_cons.
  replace (Nat.pred (Py.width b)) with (String.length r) by lia.
  by rewrite take_bytes_app, drop_bytes_app.
Qed.

Lemma chars_app (a : list string) (t : string) :
  Forall complete a → Py.chars (Py.cat a +:+ t) = a ++ Py.chars t.
Proof.
  induction 1 as [|ch a Hch _ IH]; [done|].
  cbn [Py.cat foldr]. fold (Py.cat a).
  by rewrite append_assoc, chars_app_complete, IH.
Qed.

Lemma width_pos (b : ascii) : (1 <= Py.width b)%nat.
Proof. unfold Py.width. repeat case_match; lia. Qed.

Lemma take_bytes_length (k : nat) (s : string) :
  (k <= String.length s)%nat → String.length (take_bytes k s) = k.
Proof.
  revert s. induction k as [|k IH]; intros [|b s]; cbn; try lia.
  intros H. rewrite IH; lia.
Qed.

Lemma drop_bytes_short (k : nat) (s : string) :
  (String.length s <= k)%nat → drop_bytes k s = "".
Proof.
  revert s. induction k as [|k IH]; intros [|b s]; cbn; try done; try lia.
  intros H. apply IH. lia.
Qed.

(** Every character of a text but the last one has all its bytes. *)
Lemma chars_complete (s : string) (a : list string) (c : string)
    (b : list string) :
  Py.chars s = a ++ c :: b → Forall complete a.
Proof.
  revert s. induction a as [|ch a IH]; intros s Hs; [constructor|].
  destruct s as [|b0 s]; [done|].
  rewrite chars_cons in Hs. injection Hs as <- Hs.
  constructor; [|by eapply IH].
  cbn [complete String.length].
  destruct (decide (Nat.pred (Py.width b0) <= String.length s)%nat) as [Hle|Hgt].
  - rewrite take_bytes_length by done. pose proof (width_pos b0). lia.
  - rewrite drop_bytes_short in Hs by lia. by destruct a.
Qed.

Lemma chars_prefix (s : string) (a b : list string) :
  Py.chars s = a ++ b → Py.chars (Py.cat a) = a.
Proof.
  intros Hs. destruct b as [|c b].
  - rewrite List.app_nil_r in Hs. by rewrite <- Hs, cat_chars.
  - rewrite <- (append_nil_r (Py.cat a)), chars_app; [by rewrite List.app_nil_r|].
    by eapply chars_complete.
Qed.

Lemma chars_suffix (s : string) (a b : list string) :
  Py.chars s = a ++ b → Py.chars (Py.cat b) = b.
Proof.
  revert s. induction a as [|ch a IH]; intros s Hs.
  - cbn [app] in Hs. by rewrite <- Hs, cat_chars.
  - destruct s as [|b0 s]; [done|].
    rewrite chars_cons in Hs. injection Hs as _ Hs. by eapply IH.
Qed.

Lemma code_point_complete (ch : string) (cp : N) :
  Py.code_point ch = Some cp → complete ch.
Proof.
  destruct ch as [|b0 [|b1 [|b2 [|b3 [|b4 r]]]]]; try done;
    cbn [Py.code_point complete String.length]; unfold Py.width;
    generalize (N_of_ascii b0); intros n;
    repeat match goal with
    | |- context [(?a <? ?b)%N] => destruct (N.ltb_spec a b)
    | |- context [(?a <=? ?b)%N] => destruct (N.leb_spec a b)
    end; cbn [andb]; try done; lia.
Qed.

Lemma is_space_complete (ch : string) : Py.is_space ch = true → complete ch.
Proof.
  unfold Py.is_space. destruct (Py.code_point ch) eqn:H; [|done].
  intros _. by eapply code_point_complete.
Qed.

Lemma is_digit_complete (ch : string) : Py.is_digit ch = true → complete ch.
Proof.
  unfold Py.is_digit, Py.digit_val.
  destruct (Py.code_point ch) eqn:H; [|done].
  intros _. by eapply code_point_complete.
Qed.

(** ** Dropping and taking *)

Lemma drop_while_idem {A} (P : A → bool) (l : list A) :
  Py.drop_while P (Py.drop_while P l) = Py.drop_while P l.
Proof.
  induction l as [|x l IH]; [done|]. cbn.
  destruct (P x) eqn:Hx; [done|]. cbn. by rewrite Hx.
Qed.

Lemma drop_while_suffix {A} (P : A → bool) (l : list A) :
  ∃ a, l = a ++ Py.drop_while P l ∧ forallb P a = true.
Proof.
  induction l as [|x l (a & IH & Ha)]; [by exists []|]. cbn.
  destruct (P x) eqn:Hx.
  - exists (x :: a). cbn. rewrite Hx, Ha. by rewrite <- IH.
  - by exists [].
Qed.

Lemma take_drop_while {A} (P : A → bool) (l : list A) :
  Py.take_while P l ++ Py.drop_while P l = l.
Proof.
  induction l as [|x l IH]; [done|]. cbn.
  destruct (P x); [|done]. cbn. by rewrite IH.
Qed.

Lemma drop_while_all {A} (P : A → bool) (a l : list A) :
  forallb P a = true → Py.drop_while P (a ++ l) = Py.drop_while P l.
Proof.
  induction a as [|x a IH]; [done|]. cbn.
  intros [-> Ha]%andb_true_iff. by apply IH.
Qed.

Lemma take_while_all {A} (P : A → bool) (a l : list A) :
  forallb P a = true →
  Py.take_while P (a ++ l) = a ++ Py.take_while P l.
Proof.
  induction a as [|x a IH]; [done|]. cbn.
  intros [-> Ha]%andb_true_iff. by rewrite IH.
Qed.

Lemma take_while_forall {A} (P : A → bool) (l : list A) :
  forallb P (Py.take_while P l) = true.
Proof.
  induction l as [|x l IH]; [done|]. cbn.
  destruct (P x) eqn:Hx; [|done]. cbn. by rewrite Hx.
Qed.

(** ** Stripping *)

Lemma lstrip_chars (s : string) :
  Py.chars (Py.lstrip s) = Py.drop_while Py.is_space (Py.chars s).
Proof.
  unfold Py.lstrip.
  destruct (drop_while_suffix Py.is_space (Py.chars s)) as (a & Ha & _).
  by eapply chars_suffix.
Qed.

Lemma rstrip_chars (s : string) :
  Py.chars (Py.rstrip s)
  = rev (Py.drop_while Py.is_space (rev (Py.chars s))).
Proof.
  unfold Py.rstrip.
  destruct (drop_while_suffix Py.is_space (rev (Py.chars s))) as (a & Ha & _).
  apply (chars_prefix s _ (rev a)).
  rewrite <- rev_app_distr, <- Ha. by rewrite rev_involutive.
Qed.

Lemma lstrip_idem (s : string) : Py.lstrip (Py.lstrip s) = Py.lstrip s.
Proof.
  unfold Py.lstrip at 1. rewrite lstrip_chars. by rewrite drop_while_idem.
Qed.

Lemma rstrip_idem (s : string) : Py.rstrip (Py.rstrip s) = Py.rstrip s.
Proof.
  unfold Py.rstrip at 1. rewrite rstrip_chars, rev_involutive.
  by rewrite drop_while_idem.
Qed.

(** Decide the tests between two qualified tag names. *)
Ltac tag_tests :=
  repeat match goal with
    | |- context [String.eqb (_qn ?a) (_qn ?b)] =>
        let v := eval vm_compute in (String.eqb (_qn a) (_qn b)) in
        change (String.eqb (_qn a) (_qn b)) with v
    end;
  cbv beta iota.

(** ** The traversal state *)

Lemma end_comment_range_inactive (st : RenderState.t) (cid : string) :
  RenderState.active_comment_ranges st !! cid = None →
  RenderState.end_comment_range st cid = st.
Proof. intros H. unfold RenderState.end_comment_range. by rewrite H. Qed.

(** C10. A [commentRangeEnd] node whose id has no active range leaves the
    output buffer and the whole traversal state as they were: no range is
    popped, nothing is queued, the emitted ids are untouched. Nothing is
    assumed about the comment registry. *)
Theorem range_end_without_active_range (node : Element) (ctx : RunContext.t)
    (out : RenderOut.t) (st : RenderState.t) (cid : string) :
  tag node = _qn "commentRangeEnd" →
  ET.get node (_qn "id") = Some cid →
  RenderState.active_comment_ranges st !! cid = None →
  _render_node node ctx out st = (out, st).
Proof.
  intros Htag Hid Hnone. rewrite _render_node_unfold. cbv zeta.
  rewrite Htag. tag_tests. unfold with_id. rewrite Hid.
  rewrite end_comment_range_inactive by done. by destruct (Py.truthy cid).
Qed.

Lemma range_end_without_active_range_witness :
  _render_node (Sample.range_end "9") RunContext.default RenderOut.new
    Sample.state0 = (RenderOut.new, Sample.state0).
Proof.
  apply (range_end_without_active_range _ _ _ _ "9"); reflexivity.
Defined.

Lemma append_to_active_lookup (st : RenderState.t) (text cid : string) :
  RenderState.active_comment_ranges
    (RenderState.append_to_active_ranges st text) !! cid =
  CommentRange.append text <$> RenderState.active_comment_ranges st !! cid.
Proof. unfold RenderState.append_to_active_ranges. simpl. apply lookup_fmap. Qed.

Lemma append_text_state (out : RenderOut.t) (text : string)
    (ctx : RunContext.t) (st : RenderState.t) :
  snd (RenderOut.append_text out text ctx st) =
    if Py.truthy text then RenderState.append_to_active_ranges st text else st.
Proof.
  unfold RenderOut.append_text. by destruct (Py.truthy text).
Qed.

Lemma append_literal_state (out : RenderOut.t) (literal : string)
    (st : RenderState.t) :
  snd (RenderOut.append_literal out literal st) =
    if Py.truthy literal then RenderState.append_to_active_ranges st literal
    else st.
Proof.
  unfold RenderOut.append_literal. by destruct (Py.truthy literal).
Qed.

(** What a range holds once [text] went through the buffer. *)
Lemma forwarded (st : RenderState.t) (text cid : string) (cr : CommentRange.t) :
  RenderState.active_comment_ranges st !! cid = Some cr →
  ∃ cr',
    RenderState.active_comment_ranges
      (if Py.truthy text then RenderState.append_to_active_ranges st text
       else st) !! cid = Some cr'
    ∧ CommentRange.comment_id cr' = CommentRange.comment_id cr
    ∧ Py.join "" (CommentRange.text_parts cr') =
        Py.join "" (CommentRange.text_parts cr) +:+ text.
Proof.
  intros Hcr. destruct (Py.truthy text) eqn:Htext.
  - exists (CommentRange.append text cr).
    rewrite append_to_active_lookup, Hcr. split; [done|]. split; [done|].
    apply join_empty_snoc.
  - apply truthy_false in Htext as ->. exists cr.
    by rewrite append_nil_r.
Qed.

(** C6. Whatever text goes through the buffer, by [append_text] or by
    [append_literal], every range that is active at that moment stays active
    and its accumulated text grows by exactly that text, however many ranges
    are open at once. *)
Theorem active_ranges_receive_text (out : RenderOut.t) (text : string)
    (ctx : RunContext.t) (st : RenderState.t) (cid : string)
    (cr : CommentRange.t) :
  RenderState.active_comment_ranges st !! cid = Some cr →
  (∃ cr',
      RenderState.active_comment_ranges
        (snd (RenderOut.append_text out text ctx st)) !! cid = Some cr'
      ∧ CommentRange.comment_id cr' = CommentRange.comment_id cr
      ∧ Py.join "" (CommentRange.text_parts cr') =
          Py.join "" (CommentRange.text_parts cr) +:+ text)
  ∧ (∃ cr',
      RenderState.active_comment_ranges
        (snd (RenderOut.append_literal out text st)) !! cid = Some cr'
      ∧ CommentRange.comment_id cr' = CommentRange.comment_id cr
      ∧ Py.join "" (CommentRange.text_parts cr') =
          Py.join "" (CommentRange.text_parts cr) +:+ text).
Proof.
  intros Hcr. rewrite append_text_state, append_literal_state.
  split; by apply forwarded.
Qed.

Lemma active_ranges_receive_text_witness :
  (∃ cr',
      RenderState.active_comment_ranges
        (snd (RenderOut.append_text RenderOut.new "x" RunContext.default
                Sample.state_AB)) !! "B" = Some cr'
      ∧ CommentRange.comment_id cr' = "B"
      ∧ Py.join "" (CommentRange.text_parts cr') = "x")
  ∧ (∃ cr',
      RenderState.active_comment_ranges
        (snd (RenderOut.append_literal RenderOut.new "x" Sample.state_AB))
        !! "B" = Some cr'
      ∧ CommentRange.comment_id cr' = "B"
      ∧ Py.join "" (CommentRange.text_parts cr') = "x").
Proof.
  apply (active_ranges_receive_text RenderOut.new "x" RunContext.default
           Sample.state_AB "B" (CommentRange.mk "B" [])).
  reflexivity.
Defined.

(** The two overlapping ranges of the sample document: both blocks carry
    the original text "x". *)
Example overlapping_ranges_collect_x :
  linearize_docx Sample.overlapping Sample.registry Sample.no_numbering
    Sample.no_styles
  = Some (Py.join NL
            ["x"; "";
             "> **[批注 #A]**"; "> **原文**：x"; "> **批注**：first"; "";
             "> **[批注 #B]**"; "> **原文**：x"; "> **批注**：second"; ""]).
Proof. vm_compute. reflexivity. Qed.

(** ** List markers *)

Lemma get_list_marker_no_level (st : RenderState.t) (num_id : string)
    (ilvl : Z) :
  NumberingInfo.get_level (RenderState.numbering st) num_id ilvl = None →
  RenderState.get_list_marker st num_id ilvl = ("- ", st).
Proof. intros H. unfold RenderState.get_list_marker. by rewrite H. Qed.

(** C2. With no numbering level for list "7" at depth 2,
    [get_list_marker] returns "- " and leaves the state alone; the marker
    with two spaces per depth would be "    - ". The depth is not looked at
    on this path. *)
Theorem unresolved_marker_not_indented :
  NumberingInfo.get_level (RenderState.numbering Sample.state0) "7" 2 = None
  ∧ RenderState.get_list_marker Sample.state0 "7" 2 = ("- ", Sample.state0)
  ∧ Py.mul "  " 2 +:+ "- " = "    - ".
Proof. split; [reflexivity|]. split; reflexivity. Qed.

(** ** Unterminated ranges *)

(** C1. The sample document opens the range of comment "1" around "hello"
    and never closes it. [linearize_docx] returns the paragraph text alone:
    no annotation block follows, although comment "1" is in the registry;
    the range is still active in the final state, with its text. *)
Theorem unterminated_range_is_dropped :
  ∃ st,
    linearize_docx_state Sample.unterminated Sample.registry
      Sample.no_numbering Sample.no_styles = Some ("hello" +:+ NL, st)
    ∧ RenderState.active_comment_ranges st !! "1"
        = Some (CommentRange.mk "1" ["hello"])
    ∧ RenderState.collected_comments st = []
    ∧ RenderState.emitted_comment_ids st = ∅.
Proof.
  eexists. split; [vm_compute; reflexivity|].
  split; [reflexivity|]. split; reflexivity.
Qed.

Lemma ordered_not_bullet (f : string) :
  RenderState.ordered_fmt f = true → (f =? "bullet") = false.
Proof.
  unfold RenderState.ordered_fmt. rewrite !orb_true_iff, !String.eqb_eq.
  intros [[[[->| ->]| ->]| ->]| ->]; reflexivity.
Qed.

Lemma get_list_marker_ordered (st : RenderState.t) (num_id : string)
    (ilvl : Z) (level : NumberingLevel.t) :
  NumberingInfo.get_level (RenderState.numbering st) num_id ilvl = Some level →
  RenderState.ordered_fmt (NumberingLevel.num_fmt level) = true →
  RenderState.get_list_marker st num_id ilvl =
    let count :=
      default (NumberingLevel.start level)
        (RenderState.list_counters st !! (num_id, ilvl)) in
    (Py.mul "  " ilvl +:+ Py.str_of_int count +:+ ". ",
     RenderState.set_counters
       (<[(num_id, ilvl) := count + 1]> (RenderState.list_counters st)) st).
Proof.
  intros Hlevel Hord. unfold RenderState.get_list_marker.
  by rewrite Hlevel, (ordered_not_bullet _ Hord), Hord.
Qed.

Lemma get_list_marker_bullet (st : RenderState.t) (num_id : string)
    (ilvl : Z) (level : NumberingLevel.t) :
  NumberingInfo.get_level (RenderState.numbering st) num_id ilvl = Some level →
  NumberingLevel.num_fmt level = "bullet" →
  RenderState.get_list_marker st num_id ilvl =
    (Py.mul "  " ilvl +:+ "- ", st).
Proof.
  intros Hlevel Hfmt. unfold RenderState.get_list_marker.
  by rewrite Hlevel, Hfmt.
Qed.

(** The counters after asking for a marker: one key may have moved. *)
Lemma get_list_marker_counters (st : RenderState.t) (num_id : string)
    (ilvl : Z) :
  let st' := snd (RenderState.get_list_marker st num_id ilvl) in
  RenderState.numbering st' = RenderState.numbering st
  ∧ ∀ key, key ≠ (num_id, ilvl) →
      RenderState.list_counters st' !! key = RenderState.list_counters st !! key.
Proof.
  unfold RenderState.get_list_marker.
  destruct (NumberingInfo.get_level _ _ _) as [level|]; [|done].
  destruct (_ =? "bullet"); [done|].
  destruct (RenderState.ordered_fmt _); [|done].
  simpl. split; [done|]. intros key Hkey. by rewrite lookup_insert_ne.
Qed.

(** No other operation of a traversal touches the numbering table or the
    counters. *)
Lemma step_keeps_counters (st : RenderState.t) (e : event) :
  (∀ n i, e ≠ ListMarker n i) →
  RenderState.numbering (Trace.step st e) = RenderState.numbering st
  ∧ RenderState.list_counters (Trace.step st e) = RenderState.list_counters st.
Proof.
  intros Hne. destruct e as [cid|text|cid|cid| |n i]; simpl.
  - unfold RenderState.start_comment_range.
    by destruct (RenderState.active_comment_ranges st !! cid).
  - done.
  - unfold RenderState.end_comment_range.
    destruct (RenderState.active_comment_ranges st !! cid); [|done]. simpl.
    destruct (RenderState.comments st !! cid); [|done].
    by case_bool_decide.
  - unfold RenderState.handle_comment_reference.
    case_bool_decide; [done|].
    destruct (RenderState.active_comment_ranges st !! cid); [done|].
    by destruct (RenderState.comments st !! cid).
  - done.
  - by destruct (Hne n i).
Qed.

Lemma step_numbering (st : RenderState.t) (e : event) :
  RenderState.numbering (Trace.step st e) = RenderState.numbering st.
Proof.
  destruct e as [cid|text|cid|cid| |n i];
    try (apply step_keeps_counters; intros; discriminate).
  apply get_list_marker_counters.
Qed.

Lemma is_marker_true (num_id : string) (ilvl : Z) (e : event) :
  Trace.is_marker num_id ilvl e = true ↔ e = ListMarker num_id ilvl.
Proof.
  destruct e as [cid|text|cid|cid| |n i]; simpl; try (split; discriminate).
  rewrite andb_true_iff, String.eqb_eq, Z.eqb_eq. split.
  - by intros [-> ->].
  - intros [= -> ->]. done.
Qed.

Lemma step_other_counter (st : RenderState.t) (e : event) (num_id : string)
    (ilvl : Z) :
  e ≠ ListMarker num_id ilvl →
  RenderState.list_counters (Trace.step st e) !! (num_id, ilvl)
  = RenderState.list_counters st !! (num_id, ilvl).
Proof.
  intros Hne.
  destruct e as [cid|text|cid|cid| |n i];
    try (match goal with
         | |- context [Trace.step st ?e] =>
             destruct (step_keeps_counters st e) as [_ ->];
             [intros; discriminate | done]
         end).
  apply get_list_marker_counters. congruence.
Qed.

(** The counter of an ordered list, at any point of a traversal: the start
    value plus the number of markers asked for so far. *)
Lemma ordered_counter (evs : list event) (st : RenderState.t)
    (num_id : string) (ilvl : Z) (level : NumberingLevel.t) :
  NumberingInfo.get_level (RenderState.numbering st) num_id ilvl = Some level →
  RenderState.ordered_fmt (NumberingLevel.num_fmt level) = true →
  default (NumberingLevel.start level)
    (RenderState.list_counters (Trace.run evs st) !! (num_id, ilvl))
  = default (NumberingLevel.start level)
      (RenderState.list_counters st !! (num_id, ilvl))
    + Z.of_nat (Trace.marker_calls num_id ilvl evs).
Proof.
  intros Hlevel Hord. revert st Hlevel.
  induction evs as [|e evs IH]; intros st Hlevel.
  { unfold Trace.marker_calls. simpl. lia. }
  simpl Trace.run. rewrite IH by (by rewrite step_numbering).
  unfold Trace.marker_calls. simpl List.filter.
  destruct (Trace.is_marker num_id ilvl e) eqn:He.
  - apply is_marker_true in He as ->. simpl Trace.step.
    rewrite (get_list_marker_ordered _ _ _ _ Hlevel Hord). simpl.
    rewrite lookup_insert_eq. simpl. lia.
  - rewrite step_other_counter; [done|].
    intros ->. by rewrite (proj2 (is_marker_true _ _ _) eq_refl) in He.
Qed.

Lemma run_numbering (evs : list event) (st : RenderState.t) :
  RenderState.numbering (Trace.run evs st) = RenderState.numbering st.
Proof.
  revert st. induction evs as [|e evs IH]; intros st; [done|].
  simpl. by rewrite IH, step_numbering.
Qed.

(** C5. In a traversal that starts from the fresh state, the [k]-th request
    for the marker of a list whose level is of an ordered family returns the
    indent, the decimal text of [start + k - 1] and ". ", whatever the
    family; the requests for other lists and every other state operation in
    between do not matter. On a bullet level the request returns the indent
    and "- " and hands the state back untouched. *)
Theorem kth_list_marker (c : gmap string Comment.t) (n : NumberingInfo.t)
    (s : StyleInfo.t) (evs : list event) (num_id : string) (ilvl : Z)
    (level : NumberingLevel.t) (k : nat) :
  NumberingInfo.get_level n num_id ilvl = Some level →
  k = S (Trace.marker_calls num_id ilvl evs) →
  (RenderState.ordered_fmt (NumberingLevel.num_fmt level) = true →
   fst (RenderState.get_list_marker
          (Trace.run evs (RenderState.new c n s)) num_id ilvl) =
     Py.mul "  " ilvl
     +:+ Py.str_of_int (NumberingLevel.start level + Z.of_nat k - 1)
     +:+ ". ")
  ∧ (NumberingLevel.num_fmt level = "bullet" →
     RenderState.get_list_marker
       (Trace.run evs (RenderState.new c n s)) num_id ilvl =
       (Py.mul "  " ilvl +:+ "- ", Trace.run evs (RenderState.new c n s))).
Proof.
  intros Hlevel ->.
  assert (NumberingInfo.get_level
            (RenderState.numbering (Trace.run evs (RenderState.new c n s)))
            num_id ilvl = Some level) as Hst by (by rewrite run_numbering).
  split.
  - intros Hord. rewrite (get_list_marker_ordered _ _ _ _ Hst Hord).
    cbv zeta. unfold fst.
    rewrite (ordered_counter evs _ _ _ level) by done.
    simpl RenderState.list_counters. rewrite lookup_empty. simpl default.
    do 3 f_equal. lia.
  - intros Hfmt. by apply (get_list_marker_bullet _ _ _ level).
Qed.

(** The third marker of the decimal list "3" (start 1) is "3. ", after
    two requests and a bullet request in between. *)
Lemma kth_list_marker_witness :
  (RenderState.ordered_fmt "decimal" = true →
   fst (RenderState.get_list_marker
          (Trace.run [ListMarker "3" 0; ListMarker "4" 1; ListMarker "3" 0]
             (RenderState.new Sample.registry Sample.numbering
                Sample.no_styles)) "3" 0) =
     Py.mul "  " 0 +:+ Py.str_of_int (1 + Z.of_nat 3 - 1) +:+ ". ")
  ∧ ("decimal" = "bullet" →
     RenderState.get_list_marker
       (Trace.run [ListMarker "3" 0; ListMarker "4" 1; ListMarker "3" 0]
          (RenderState.new Sample.registry Sample.numbering
             Sample.no_styles)) "3" 0 =
       (Py.mul "  " 0 +:+ "- ",
        Trace.run [ListMarker "3" 0; ListMarker "4" 1; ListMarker "3" 0]
          (RenderState.new Sample.registry Sample.numbering
             Sample.no_styles))).
Proof.
  apply (kth_list_marker Sample.registry Sample.numbering Sample.no_styles
           [ListMarker "3" 0; ListMarker "4" 1; ListMarker "3" 0] "3" 0
           (NumberingLevel.mk "decimal" "%1." 1) 3);
    reflexivity.
Defined.

(** The markers of the spec's example: "1. ", "2. ", "3. " for the decimal
    list, "  - " for the bullet list at depth 1, before and after. *)
Example decimal_markers :
  let st0 := RenderState.new Sample.registry Sample.numbering
               Sample.no_styles in
  let '(m1, st1) := RenderState.get_list_marker st0 "3" 0 in
  let '(b1, st2) := RenderState.get_list_marker st1 "4" 1 in
  let '(m2, st3) := RenderState.get_list_marker st2 "3" 0 in
  let '(m3, st4) := RenderState.get_list_marker st3 "3" 0 in
  let '(b2, st5) := RenderState.get_list_marker st4 "4" 1 in
  let '(r1, _) := RenderState.get_list_marker st5 "3" 1 in
  [m1; b1; m2; m3; b2; r1] = ["1. "; "  - "; "2. "; "3. "; "  - "; "  4. "]
  ∧ st2 = st1 ∧ st5 = st4.
Proof. vm_compute. split; [reflexivity|]. split; reflexivity. Qed.

(** ** Each comment is queued once *)

Lemma queued_once_enqueue (log : list CollectedComment.t)
    (st : RenderState.t) (cid : string) (comment : Comment.t)
    (original : string) :
  cid ∉ RenderState.emitted_comment_ids st →
  queued_once log st →
  queued_once log (RenderState.enqueue st cid comment original).
Proof.
  intros Hfresh [Hnodup Hem]. unfold queued_once. simpl.
  rewrite app_assoc. split.
  - rewrite fmap_app. simpl. apply NoDup_app. split; [done|]. split.
    + intros x Hx ->%list_elem_of_singleton.
      apply list_elem_of_fmap in Hx as (c & -> & Hc).
      apply Hfresh, Hem, Hc.
    + apply NoDup_singleton.
  - intros c Hc. rewrite elem_of_app in Hc. destruct Hc as [Hold|Hnew].
    + apply elem_of_union_r, Hem, Hold.
    + apply list_elem_of_singleton in Hnew as ->. simpl.
      apply elem_of_union_l, elem_of_singleton. done.
Qed.

Lemma queued_once_active (log : list CollectedComment.t)
    (st : RenderState.t) (a : gmap string CommentRange.t) :
  queued_once log st → queued_once log (RenderState.set_active a st).
Proof. done. Qed.

Lemma queued_once_counters (log : list CollectedComment.t)
    (st : RenderState.t) (k : gmap (string * Z) Z) :
  queued_once log st → queued_once log (RenderState.set_counters k st).
Proof. done. Qed.

Lemma queued_once_step (log : list CollectedComment.t) (st : RenderState.t)
    (e : event) :
  queued_once log st →
  queued_once (log ++ Trace.handed st e) (Trace.step st e).
Proof.
  intros Hinv. destruct e as [cid|text|cid|cid| |n i]; simpl;
    rewrite ?app_nil_r.
  - unfold RenderState.start_comment_range.
    by destruct (RenderState.active_comment_ranges st !! cid).
  - done.
  - unfold RenderState.end_comment_range.
    destruct (RenderState.active_comment_ranges st !! cid); [|done].
    cbv zeta.
    destruct (RenderState.comments _ !! cid); [|done].
    case_bool_decide; [done|].
    apply queued_once_enqueue; done.
  - unfold RenderState.handle_comment_reference.
    case_bool_decide; [done|].
    destruct (RenderState.active_comment_ranges st !! cid); [done|].
    destruct (RenderState.comments st !! cid); [|done].
    by apply queued_once_enqueue.
  - unfold queued_once in *. simpl. rewrite app_nil_r. done.
  - unfold RenderState.get_list_marker.
    destruct (NumberingInfo.get_level _ _ _) as [level|]; [|done].
    destruct (_ =? "bullet"); [done|].
    by destruct (RenderState.ordered_fmt _).
Qed.

Lemma queued_once_run (evs : list event) (log : list CollectedComment.t)
    (st : RenderState.t) :
  queued_once log st →
  queued_once (fst (Trace.run_log evs st log)) (snd (Trace.run_log evs st log)).
Proof.
  revert log st. induction evs as [|e evs IH]; intros log st Hinv; [done|].
  simpl. by apply IH, queued_once_step.
Qed.

Lemma with_id_count_nodup (cid : string) (l : list CollectedComment.t) :
  NoDup (CollectedComment.comment_id <$> l) → (with_id_count cid l ≤ 1)%nat.
Proof.
  unfold with_id_count. induction l as [|c l IH]; simpl; [lia|].
  intros [Hnotin Hnodup]%NoDup_cons. specialize (IH Hnodup).
  destruct (CollectedComment.comment_id c =? cid) eqn:Hc; [|done].
  apply String.eqb_eq in Hc. simpl.
  destruct (List.filter _ l) as [|c' l'] eqn:Hf; [simpl; lia|].
  exfalso. apply Hnotin.
  assert (List.In c' (List.filter
            (fun c => CollectedComment.comment_id c =? cid) l)) as Hin
    by (rewrite Hf; by left).
  apply List.filter_In in Hin as [Hin Hid]. apply String.eqb_eq in Hid.
  apply list_elem_of_fmap. exists c'. split; [congruence|].
  by apply list_elem_of_In.
Qed.


(** The range of comment "1" around "hello world" with its reference
    inside: one block. *)
Example range_and_reference_one_block :
  linearize_docx
    (Sample.document
       [Sample.el "p" [] None
          [Sample.range_start "1"; Sample.run "hello world";
           Sample.reference "1"; Sample.range_end "1"]])
    Sample.registry Sample.no_numbering Sample.no_styles
  = Some (Py.join NL
            ["hello world"; "";
             "> **[批注 #1]** Alice (2024-01-02)";
             "> **原文**：hello world"; "> **批注**：fix this"; ""]).
Proof. vm_compute. reflexivity. Qed.

(** ** A traversal is a sequence of state operations *)

Lemma run_log_app (evs1 evs2 : list event) (st : RenderState.t)
    (log : list CollectedComment.t) :
  Trace.run_log (evs1 ++ evs2) st log =
    Trace.run_log evs2 (snd (Trace.run_log evs1 st log))
      (fst (Trace.run_log evs1 st log)).
Proof.
  revert st log. induction evs1 as [|e evs1 IH]; intros st log; [done|].
  simpl. apply IH.
Qed.

Lemma traverses_refl (st : RenderState.t) : traverses st [] st.
Proof. exists []. intros log. simpl. by rewrite app_nil_r. Qed.

Lemma traverses_trans (st1 st2 st3 : RenderState.t)
    (h1 h2 : list CollectedComment.t) :
  traverses st1 h1 st2 → traverses st2 h2 st3 → traverses st1 (h1 ++ h2) st3.
Proof.
  intros [evs1 H1] [evs2 H2]. exists (evs1 ++ evs2). intros log.
  rewrite run_log_app, H1. simpl. by rewrite H2, app_assoc.
Qed.

Lemma traverses_quiet (st1 st2 st3 : RenderState.t) :
  traverses st1 [] st2 → traverses st2 [] st3 → traverses st1 [] st3.
Proof. intros H1 H2. apply (traverses_trans _ _ _ [] [] H1 H2). Qed.

Lemma traverses_event (st : RenderState.t) (e : event) :
  traverses st (Trace.handed st e) (Trace.step st e).
Proof. exists [e]. intros log. reflexivity. Qed.

Lemma traverses_with_id (node : Element) (f : string → RenderState.t)
    (st : RenderState.t) :
  (∀ cid, traverses st [] (f cid)) → traverses st [] (with_id node f st).
Proof.
  intros Hf. unfold with_id. destruct (ET.get node (_qn "id")) as [cid|].
  - destruct (Py.truthy cid); [apply Hf | apply traverses_refl].
  - apply traverses_refl.
Qed.

Lemma traverses_append_text (o : RenderOut.t) (text : string)
    (ctx : RunContext.t) (st : RenderState.t) :
  traverses st [] (snd (RenderOut.append_text o text ctx st)).
Proof.
  rewrite append_text_state. destruct (Py.truthy text).
  - apply (traverses_event st (AppendText text)).
  - apply traverses_refl.
Qed.

Lemma traverses_append_literal (o : RenderOut.t) (literal : string)
    (st : RenderState.t) :
  traverses st [] (snd (RenderOut.append_literal o literal st)).
Proof.
  rewrite append_literal_state. destruct (Py.truthy literal).
  - apply (traverses_event st (AppendText literal)).
  - apply traverses_refl.
Qed.

Lemma traverses_emit_rows (rows : list (list string)) (i max_cols : nat)
    (out : RenderOut.t) (st : RenderState.t) :
  traverses st [] (snd (emit_rows i rows max_cols out st)).
Proof.
  revert i out st. induction rows as [|row rows IH]; intros i out st.
  { apply traverses_refl. }
  cbn [emit_rows].
  pose proof (traverses_append_literal out
    (table_line (pad_row (max_cols - length row) row) +:+ NL) st) as H1.
  destruct (RenderOut.append_literal out _ st) as [o1 s1]. simpl in H1.
  destruct (Nat.eqb i 0).
  - pose proof (traverses_append_literal o1
      (table_line (replicate max_cols "---") +:+ NL) s1) as H2.
    destruct (RenderOut.append_literal o1 _ s1) as [o2 s2]. simpl in H2.
    eapply traverses_quiet; [|apply IH].
    eapply traverses_quiet; eassumption.
  - eapply traverses_quiet; [eassumption | apply IH].
Qed.

Lemma traverses_emit_table (rows : list (list string)) (out : RenderOut.t)
    (st : RenderState.t) :
  traverses st [] (snd (emit_table rows out st)).
Proof.
  unfold emit_table. destruct rows as [|row rows]; [apply traverses_refl|].
  destruct (Nat.eqb _ 0); [apply traverses_refl | apply traverses_emit_rows].
Qed.

Lemma walk_children (ctx : RunContext.t) (cs : list Element)
    (o : RenderOut.t) (s : RenderState.t) :
  Forall walks_quietly cs →
  traverses s [] (snd (render_children ctx cs o s)).
Proof.
  intros Hcs. revert o s.
  induction Hcs as [|c cs Hc _ IH]; intros o s; [apply traverses_refl|].
  cbn [render_children]. pose proof (proj1 Hc ctx o s) as H1.
  destruct (_render_node c ctx o s) as [o1 s1].
  eapply traverses_quiet; [exact H1 | apply IH].
Qed.

Lemma walk_run_child (merged : RunContext.t) (c : Element) (o : RenderOut.t)
    (s : RenderState.t) :
  walks_quietly c → traverses s [] (snd (render_run_child merged c o s)).
Proof.
  intros Hc. unfold render_run_child.
  repeat match goal with
    | |- context [if ?b then _ else _] => destruct b
    end;
    first [ apply traverses_refl
          | apply traverses_append_text
          | apply traverses_append_literal
          | apply (proj1 Hc)
          | idtac ].
  simpl. apply traverses_with_id. intros cid.
  apply (traverses_event s (Reference cid)).
Qed.

Lemma walk_run_children (merged : RunContext.t) (cs : list Element)
    (o : RenderOut.t) (s : RenderState.t) :
  Forall walks_quietly cs →
  traverses s [] (snd (render_run_children merged cs o s)).
Proof.
  intros Hcs. revert o s.
  induction Hcs as [|c cs Hc _ IH]; intros o s; [apply traverses_refl|].
  cbn [render_run_children]. pose proof (walk_run_child merged c o s Hc) as H1.
  destruct (render_run_child merged c o s) as [o1 s1].
  eapply traverses_quiet; [exact H1 | apply IH].
Qed.

Lemma walk_para_children (ctx : RunContext.t) (cs : list Element)
    (o : RenderOut.t) (s : RenderState.t) :
  Forall walks_quietly cs →
  traverses s [] (snd (render_para_children ctx cs o s)).
Proof.
  intros Hcs. revert o s.
  induction Hcs as [|c cs Hc _ IH]; intros o s; [apply traverses_refl|].
  cbn [render_para_children]. destruct (tag c =? _qn "pPr"); [apply IH|].
  pose proof (proj1 Hc ctx o s) as H1.
  destruct (_render_node c ctx o s) as [o1 s1].
  eapply traverses_quiet; [exact H1 | apply IH].
Qed.

Lemma walk_rows (cs : list Element) (s : RenderState.t) :
  Forall walks_quietly cs → traverses s [] (snd (render_rows cs s)).
Proof.
  intros Hcs. revert s.
  induction Hcs as [|c cs Hc _ IH]; intros s; [apply traverses_refl|].
  cbn [render_rows]. destruct (tag c =? _qn "tr"); [|apply IH].
  pose proof (proj1 (proj2 Hc) s) as H1.
  destruct (render_row c s) as [row s1].
  specialize (IH s1). destruct (render_rows cs s1) as [rows s2].
  eapply traverses_quiet; [exact H1 | exact IH].
Qed.

Lemma walk_cells (cs : list Element) (s : RenderState.t) :
  Forall walks_quietly cs → traverses s [] (snd (render_cells cs s)).
Proof.
  intros Hcs. revert s.
  induction Hcs as [|c cs Hc _ IH]; intros s; [apply traverses_refl|].
  cbn [render_cells]. destruct (tag c =? _qn "tc"); [|apply IH].
  pose proof (proj2 (proj2 Hc) [] s) as H1.
  destruct (render_cell_paras c [] s) as [parts s1].
  specialize (IH s1). destruct (render_cells cs s1) as [row s2].
  eapply traverses_quiet; [exact H1 | exact IH].
Qed.

Lemma walk_paras_below (cs : list Element) (acc : list string)
    (s : RenderState.t) :
  Forall walks_quietly cs →
  traverses s [] (snd (render_paras_below cs acc s)).
Proof.
  intros Hcs. revert acc s.
  induction Hcs as [|c cs Hc _ IH]; intros acc s; [apply traverses_refl|].
  cbn [render_paras_below]. destruct (tag c =? _qn "p").
  - pose proof (proj1 Hc RunContext.default RenderOut.new s) as H1.
    destruct (_render_node c RunContext.default RenderOut.new s) as [o1 s1].
    match goal with
    | |- context [render_cell_paras c ?a s1] =>
        pose proof (proj2 (proj2 Hc) a s1) as H2;
        destruct (render_cell_paras c a s1) as [acc2 s2]
    end.
    eapply traverses_quiet; [exact H1|].
    eapply traverses_quiet; [exact H2 | apply IH].
  - pose proof (proj2 (proj2 Hc) acc s) as H2.
    destruct (render_cell_paras c acc s) as [acc2 s2].
    eapply traverses_quiet; [exact H2 | apply IH].
Qed.

Lemma walk_revision (l r : string) (ctx : RunContext.t) (cs : list Element)
    (out : RenderOut.t) (s : RenderState.t) :
  Forall walks_quietly cs →
  traverses s [] (snd (render_revision l r ctx cs out s)).
Proof.
  intros Hcs. unfold render_revision.
  pose proof (walk_children ctx cs RenderOut.new s Hcs) as H1.
  destruct (render_children ctx cs RenderOut.new s) as [inner s1].
  destruct (Py.truthy _); [|exact H1].
  eapply traverses_quiet; [exact H1 | apply traverses_append_literal].
Qed.

(** Rendering a node changes the traversal state by the state operations
    only, and hands out no comment. *)
Lemma render_walks_quietly (e : Element) : walks_quietly e.
Proof.
  induction e as [t a x cs IH] using Element_tree_ind.
  split; [|split].
  - intros ctx out st. rewrite _render_node_unfold. cbv zeta.
    simpl tag. simpl children.
    repeat match goal with
      | |- context [if ?b then _ else _] => destruct b
      end.
    + apply traverses_with_id. intros cid.
      apply (traverses_event st (StartRange cid)).
    + apply traverses_with_id. intros cid.
      apply (traverses_event st (EndRange cid)).
    + by apply walk_revision.
    + by apply walk_revision.
    + by apply walk_run_children.
    + by apply walk_para_children.
    + pose proof (walk_rows cs st IH) as H1.
      destruct (render_rows cs st) as [rows s1].
      eapply traverses_quiet; [exact H1 | apply traverses_emit_table].
    + by apply walk_children.
  - intros st. rewrite render_row_unfold. by apply walk_cells.
  - intros acc st. rewrite render_cell_paras_unfold. by apply walk_paras_below.
Qed.

Lemma render_paragraph_content_traverses (p : Element) (st : RenderState.t) :
  traverses st [] (snd (_render_paragraph_content p st)).
Proof.
  unfold _render_paragraph_content.
  pose proof (proj1 (render_walks_quietly p) RunContext.default
                RenderOut.new st) as H1.
  by destruct (_render_node p RunContext.default RenderOut.new st).
Qed.

(** A paragraph yields its rendered line, then the blocks of the comments
    it takes from the queue. *)
Lemma render_paragraph_traverses (p : Element) (st st' : RenderState.t)
    (lines : list string) :
  _render_paragraph p st = Some (lines, st') →
  ∃ seg, lines = stretch_lines seg ∧ traverses st (snd seg) st'.
Proof.
  unfold _render_paragraph.
  destruct (_get_paragraph_props p) as [props|]; [|done].
  pose proof (render_paragraph_content_traverses p st) as H1.
  destruct (_render_paragraph_content p st) as [content s1]. simpl in H1.
  pose proof (traverses_event s1 PopCollected) as H2.
  unfold RenderState.pop_collected_comments. simpl in H2.
  set (comments := RenderState.collected_comments s1) in *.
  set (s2 := RenderState.set_collected [] s1) in *.
  assert (traverses st comments s2) as H12
    by apply (traverses_trans _ _ _ [] comments H1 H2).
  assert (∀ lines' s3,
    (let '(l, s) :=
       if heading_on (RenderState.get_heading_level s2
                        (ParagraphProps.style_id props))
          && Py.truthy content
       then ([Py.mul "#" (default 0 (RenderState.get_heading_level s2
                 (ParagraphProps.style_id props))) +:+ " " +:+ content], s2)
       else if Py.otruthy (ParagraphProps.num_id props) && Py.truthy content
       then
         let '(marker, s) :=
           RenderState.get_list_marker s2
             (default "" (ParagraphProps.num_id props))
             (ParagraphProps.ilvl props) in
         ([marker +:+ content], s)
       else if Py.truthy content then ([content], s2) else ([], s2) in
     Some (l ++ comment_lines comments, s)) = Some (lines', s3) →
    ∃ seg, lines' = stretch_lines seg ∧ traverses st (snd seg) s3) as Hrest.
  { intros lines' s3.
    destruct (_ && _).
    - match goal with
      | |- Some (?l ++ _, _) = _ → _ =>
          intros [= <- <-]; exists (l, comments)
      end.
      split; [reflexivity | exact H12].
    - destruct (_ && _).
      + pose proof (traverses_event s2
          (ListMarker (default "" (ParagraphProps.num_id props))
             (ParagraphProps.ilvl props))) as H3.
        simpl in H3.
        destruct (RenderState.get_list_marker s2 _ _) as [marker s4].
        intros [= <- <-]. exists ([marker +:+ content], comments).
        split; [reflexivity|]. simpl.
        rewrite <- (app_nil_r comments).
        eapply traverses_trans; [exact H12 | exact H3].
      + destruct (Py.truthy content);
          match goal with
          | |- Some (?l ++ _, _) = _ → _ =>
              intros [= <- <-]; exists (l, comments)
          end;
          (split; [reflexivity | exact H12]). }
  destruct content as [|ch content']; [destruct comments as [|c0 cs0] eqn:Hc|].
  - intros [= <- <-]. by exists ([], []).
  - apply Hrest.
  - apply Hrest.
Qed.

Lemma render_table_traverses (tbl : Element) (ctx : RunContext.t)
    (out : RenderOut.t) (st : RenderState.t) :
  traverses st [] (snd (_render_table tbl ctx out st)).
Proof.
  destruct (String.eqb_spec (tag tbl) (_qn "tbl")) as [Htag|Hne].
  - rewrite <- (_render_node_tbl tbl ctx out st Htag).
    apply render_walks_quietly.
  - unfold _render_table, ET.findall_child.
    rewrite <- render_rows_findall.
    pose proof (walk_rows (children tbl) st) as H1.
    destruct (render_rows (children tbl) st) as [rows s1].
    eapply traverses_quiet; [|apply traverses_emit_table].
    apply H1. apply Forall_forall. intros c _. apply render_walks_quietly.
Qed.

Lemma body_lines_traverses (cs : list Element) (lines0 lines : list string)
    (st st' : RenderState.t) :
  body_lines cs lines0 st = Some (lines, st') →
  ∃ segs,
    lines = lines0 ++ concat (stretch_lines <$> segs)
    ∧ traverses st (concat (snd <$> segs)) st'.
Proof.
  revert lines0 st. induction cs as [|c cs IH]; intros lines0 st.
  { intros [= <- <-]. exists []. simpl. rewrite app_nil_r.
    split; [done | apply traverses_refl]. }
  cbn [body_lines]. destruct (tag c =? _qn "p").
  - destruct (_render_paragraph c st) as [[para s1]|] eqn:Hp; [|done].
    apply render_paragraph_traverses in Hp as (seg & -> & Hseg).
    intros (segs & -> & Hsegs)%IH. exists (seg :: segs). split.
    + simpl. by rewrite app_assoc.
    + simpl. eapply traverses_trans; eassumption.
  - destruct (tag c =? _qn "tbl").
    + pose proof (render_table_traverses c RunContext.default RenderOut.new st)
        as H1.
      destruct (_render_table c RunContext.default RenderOut.new st)
        as [out s1]. simpl in H1.
      intros (segs & -> & Hsegs)%IH.
      exists ((if Py.truthy (Py.rstrip (fst (RenderOut.finish out)))
               then [Py.rstrip (fst (RenderOut.finish out))] else [], [])
              :: segs).
      split.
      * destruct (Py.truthy _); [rewrite <- app_assoc|]; reflexivity.
      * simpl. eapply (traverses_trans _ _ _ []); eassumption.
    + apply IH.
Qed.

(** The whole conversion: its text is made of the rendered stretches, each
    followed by the blocks of the comments handed out there; the state is
    reached by state operations handing out exactly those comments. *)
Lemma linearize_traverses (document_root : Element)
    (c : gmap string Comment.t) (n : NumberingInfo.t) (s : StyleInfo.t)
    (text : string) (st : RenderState.t) :
  linearize_docx_state document_root c n s = Some (text, st) →
  ∃ segs,
    traverses (RenderState.new c n s) (concat (snd <$> segs)) st
    ∧ RenderState.collected_comments st = []
    ∧ text =
        let body := Py.rstrip (Py.join NL (concat (stretch_lines <$> segs))) in
        if Py.truthy body then body +:+ NL else "".
Proof.
  unfold linearize_docx_state.
  destruct (ET.find_desc document_root (_qn "body")) as [body|].
  - destruct (body_lines (children body) [] (RenderState.new c n s))
      as [[lines s1]|] eqn:Hb; [|done].
    apply body_lines_traverses in Hb as (segs & -> & Hsegs).
    unfold RenderState.pop_collected_comments.
    intros [= <- <-].
    exists (segs ++ [([], RenderState.collected_comments s1)]).
    split; [|split].
    + rewrite fmap_app, concat_app. simpl. rewrite app_nil_r.
      eapply traverses_trans; [exact Hsegs|].
      apply (traverses_event s1 PopCollected).
    + done.
    + rewrite fmap_app, concat_app. simpl. unfold stretch_lines at 3. simpl.
      by rewrite app_nil_r.
  - intros [= <- <-]. exists []. split; [apply traverses_refl|]. done.
Qed.

(** No comment id has two blocks in the text of a conversion. *)
Lemma linearize_blocks_once (document_root : Element)
    (c : gmap string Comment.t) (n : NumberingInfo.t) (s : StyleInfo.t)
    (text : string) (st : RenderState.t) :
  linearize_docx_state document_root c n s = Some (text, st) →
  ∃ segs,
    text =
      (let body := Py.rstrip (Py.join NL (concat (stretch_lines <$> segs))) in
       if Py.truthy body then body +:+ NL else "")
    ∧ ∀ cid, (with_id_count cid (concat (snd <$> segs)) ≤ 1)%nat.
Proof.
  intros (segs & [evs Hevs] & Hq & Htext)%linearize_traverses.
  exists segs. split; [done|]. intros cid.
  apply with_id_count_nodup.
  assert (queued_once (fst (Trace.run_log evs (RenderState.new c n s) []))
            (snd (Trace.run_log evs (RenderState.new c n s) []))) as Hinv.
  { apply queued_once_run.
    split; [constructor | intros x Hx; by apply elem_of_nil in Hx]. }
  rewrite Hevs in Hinv. destruct Hinv as [Hnd _]. cbn [fst snd] in Hnd.
  by rewrite Hq, app_nil_r in Hnd.
Qed.

(** ** The output buffer *)

Lemma scan_app (m : Marks.marker) (b : bool) (ps qs : list Marks.piece) :
  Marks.scan m b (ps ++ qs) =
    match Marks.scan m b ps with
    | Some b' => Marks.scan m b' qs
    | None => None
    end.
Proof.
  revert b. induction ps as [|p ps IH]; intros b; [done|].
  destruct p as [m'|m'|s]; simpl; [| |apply IH];
    destruct (Marks.marker_eqb m m'), b; auto.
Qed.

Lemma open_after_app (m : Marks.marker) (b : bool)
    (ps qs : list Marks.piece) :
  Marks.open_after m b (ps ++ qs)
  = Marks.open_after m (Marks.open_after m b ps) qs.
Proof.
  revert b. induction ps as [|p ps IH]; intros b; [done|].
  destruct p as [m'|m'|s]; simpl; apply IH.
Qed.

Lemma texts_app (ps qs : list Marks.piece) :
  Marks.texts (ps ++ qs) = Marks.texts ps ++ Marks.texts qs.
Proof. unfold Marks.texts. by rewrite List.map_app, concat_app. Qed.

(** Pieces [qs] after [ps] that take the buffer from the flags of [o] to
    those of [o']. *)
Lemma describes_app (ps qs : list Marks.piece) (o o' : RenderOut.t) :
  Marks.describes ps o →
  RenderOut.parts o' = RenderOut.parts o ++ (Marks.piece_str <$> qs) →
  (∀ m, Marks.open_after m (Marks.is_open o m) qs = Marks.is_open o' m) →
  (∀ m, Marks.scan m (Marks.is_open o m) qs = Some (Marks.is_open o' m)) →
  Marks.describes (ps ++ qs) o'.
Proof.
  intros (Hparts & Hflags & Hscan) Hp Ho Hs. split; [|split].
  - by rewrite Hp, Hparts, fmap_app.
  - intros m. unfold Marks.opened. rewrite open_after_app.
    fold (Marks.opened ps m). by rewrite <- Hflags, Ho.
  - intros m. unfold Marks.opened. rewrite scan_app, Hscan, open_after_app.
    fold (Marks.opened ps m). by rewrite <- Hflags, Hs, Ho.
Qed.

(** One call adds the pieces that the protocol of the markers tells, and
    the text it was given. *)
Lemma describes_step (ps : list Marks.piece) (o : RenderOut.t)
    (st : RenderState.t) (c : Api.call) :
  Marks.describes ps o →
  Marks.describes (ps ++ Marks.added ps c) (fst (Api.step o st c))
  ∧ Marks.texts (Marks.added ps c) = Api.payload c.
Proof.
  intros Hd. pose proof Hd as (_ & Hflags & _).
  pose proof (Hflags Marks.Highlight) as Hh.
  pose proof (Hflags Marks.Bold) as Hb.
  pose proof (Hflags Marks.Italic) as Hi.
  destruct o as [parts hl b i]. cbn [Marks.is_open RenderOut._highlight_open
    RenderOut._bold_open RenderOut._italic_open] in Hh, Hb, Hi.
  destruct c as [text [chl cb ci]|literal|].
  - cbn [Api.step Api.payload Marks.added]. unfold RenderOut.append_text.
    destruct (Py.truthy text); cbn [negb fst].
    + unfold Marks.toggles. cbn [flat_map Marks.wanted RunContext.highlight
        RunContext.bold RunContext.italic]. rewrite <- Hh, <- Hb, <- Hi.
      split; [|by destruct chl, cb, ci, hl, b, i].
      apply (describes_app ps _ _ _ Hd).
      * destruct chl, cb, ci, hl, b, i; cbn; rewrite <- ?app_assoc;
          reflexivity.
      * intros m. destruct m, chl, cb, ci, hl, b, i; reflexivity.
      * intros m. destruct m, chl, cb, ci, hl, b, i; reflexivity.
    + split; [|done]. by rewrite List.app_nil_r.
  - cbn [Api.step Api.payload Marks.added]. unfold RenderOut.append_literal.
    unfold Marks.closers. cbn [List.filter]. rewrite <- Hh, <- Hb, <- Hi.
    destruct (Py.truthy literal); cbn [fst].
    + split; [|by destruct hl, b, i].
      apply (describes_app ps _ _ _ Hd).
      * destruct hl, b, i; cbn; rewrite <- ?app_assoc; reflexivity.
      * intros m. destruct m, hl, b, i; reflexivity.
      * intros m. destruct m, hl, b, i; reflexivity.
    + split; [|by destruct hl, b, i].
      apply (describes_app ps _ _ _ Hd).
      * destruct hl, b, i; cbn; rewrite <- ?app_assoc, ?List.app_nil_r;
          reflexivity.
      * intros m. destruct m, hl, b, i; reflexivity.
      * intros m. destruct m, hl, b, i; reflexivity.
  - cbn [Api.step Api.payload Marks.added]. unfold Marks.closers.
    cbn [List.filter]. rewrite <- Hh, <- Hb, <- Hi.
    split; [|by destruct hl, b, i].
    apply (describes_app ps _ _ _ Hd).
    + destruct hl, b, i; cbn; rewrite <- ?app_assoc, ?List.app_nil_r;
        reflexivity.
    + intros m. destruct m, hl, b, i; reflexivity.
    + intros m. destruct m, hl, b, i; reflexivity.
Qed.

Lemma describes_run (calls : list Api.call) (ps : list Marks.piece)
    (o : RenderOut.t) (st : RenderState.t) :
  Marks.describes ps o →
  Marks.describes (Marks.trace ps calls) (fst (Api.run calls o st))
  ∧ Marks.texts (Marks.trace ps calls)
    = Marks.texts ps ++ concat (Api.payload <$> calls).
Proof.
  revert ps o st. induction calls as [|c calls IH]; intros ps o st Hd.
  { split; [done | by rewrite List.app_nil_r]. }
  destruct (describes_step ps o st c Hd) as [Hd1 Ht1].
  cbn [Api.run Marks.trace]. destruct (Api.step o st c) as [o1 st1].
  cbn [fst] in Hd1.
  destruct (IH _ o1 st1 Hd1) as [Hd2 Ht2]. split; [done|].
  rewrite Ht2, texts_app, Ht1. cbn [fmap list_fmap concat].
  by rewrite <- app_assoc.
Qed.

(** The closing markers leave every marker closed. *)
Lemma closers_close (ps : list Marks.piece) (m : Marks.marker) :
  Marks.open_after m (Marks.opened ps m) (Marks.closers ps) = false.
Proof.
  unfold Marks.closers. cbn [List.filter].
  destruct m, (Marks.opened ps Marks.Italic), (Marks.opened ps Marks.Bold),
    (Marks.opened ps Marks.Highlight); reflexivity.
Qed.

(** C3. After any sequence of calls on a fresh buffer ([append_text],
    [append_literal] and [finish], in any order), the parts of the buffer
    are, one by one, the pieces that the protocol of the markers tells for
    these calls ([Marks.trace]: before a text the markers whose state
    changes, asked in the order highlight, bold, italic; before a literal
    and at [finish] the closing of what is open, in the order italic,
    bold, highlight), and its flags are the states these pieces leave.
    [finish] appends the closing of the markers that the pieces leave
    open, in the order italic, bold, highlight, and returns the parts put
    together. In the pieces of the returned string the texts are exactly
    those handed in by the calls, and every marker is opened and closed in
    turn and closed at the end. *)
Theorem finish_balanced (calls : list Api.call) (st : RenderState.t) :
  let o := fst (Api.run calls RenderOut.new st) in
  let ps := Marks.trace [] calls in
  let all := ps ++ Marks.closers ps in
  RenderOut.parts o = Marks.piece_str <$> ps
  ∧ (∀ m, Marks.is_open o m = Marks.opened ps m)
  ∧ RenderOut.parts (snd (RenderOut.finish o)) = Marks.piece_str <$> all
  ∧ fst (RenderOut.finish o) = Py.join "" (Marks.piece_str <$> all)
  ∧ Marks.texts all = concat (Api.payload <$> calls)
  ∧ Marks.balanced all.
Proof.
  intros o ps all.
  destruct (describes_run calls [] RenderOut.new st) as [Hd Ht].
  { split; [done|]. split; by intros []. }
  fold o ps in Hd, Ht.
  destruct (describes_step ps o st Api.Finish Hd) as [Hd2 Ht2].
  cbn [Marks.added Api.step fst Api.payload] in Hd2, Ht2. fold all in Hd2.
  destruct Hd as (Hparts & Hflags & _).
  destruct Hd2 as (Hparts2 & _ & Hscan2).
  split; [done|]. split; [done|]. split; [done|]. split; [|split].
  - unfold RenderOut.finish. cbn [fst]. cbn [RenderOut.finish snd] in Hparts2.
    by rewrite Hparts2.
  - unfold all. rewrite texts_app, Ht, Ht2. cbn [Marks.texts List.map concat].
    by rewrite List.app_nil_r.
  - intros m. rewrite Hscan2. f_equal. unfold all, Marks.opened.
    rewrite open_after_app. apply closers_close.
Qed.

(** The pieces of three calls: the bold that the second text no longer
    asks for is closed before it, and [finish] has nothing left to
    close. *)
Example trace_closes_bold :
  Marks.trace []
    [Api.EmitText "a" (RunContext.mk false true false);
     Api.EmitText "b" RunContext.default]
  = [Marks.Open Marks.Bold; Marks.Text "a"; Marks.Close Marks.Bold;
     Marks.Text "b"]
  ∧ RenderOut.parts
      (fst (Api.run [Api.EmitText "a" (RunContext.mk false true false);
                     Api.EmitText "b" RunContext.default]
              RenderOut.new Sample.state0))
    = ["**"; "a"; "**"; "b"].
Proof. split; reflexivity. Qed.

(** Highlight, bold and italic opened together, italic dropped for the
    next text: the closing order is the fixed one. *)
Example markers_fixed_order :
  let all := RunContext.mk true true true in
  let no_italic := RunContext.mk true true false in
  let '(o, _) :=
    Api.run [Api.EmitText "a" all; Api.EmitText "b" no_italic]
      RenderOut.new Sample.state0 in
  fst (RenderOut.finish (fst (RenderOut.append_text RenderOut.new "a" all
                                Sample.state0)))
    = "==***a***=="
  ∧ fst (RenderOut.finish o) = "==***a*b**==".
Proof. split; reflexivity. Qed.

(** ** Tables *)

Lemma pad_row_spec (n : nat) (row : list string) :
  pad_row n row = row ++ replicate n "".
Proof.
  revert row. induction n as [|n IH]; intros row; simpl.
  - by rewrite app_nil_r.
  - rewrite IH, <- app_assoc. done.
Qed.

Lemma table_line_truthy (row : list string) :
  Py.truthy (table_line row +:+ NL) = true.
Proof. reflexivity. Qed.

Lemma close_all_closed (o : RenderOut.t) :
  all_closed o → RenderOut._close_all_formats o = o.
Proof.
  destruct o as [parts hl b i]. intros (H1 & H2 & H3). simpl in *.
  by subst.
Qed.

Lemma close_all_is_closed (o : RenderOut.t) :
  all_closed (RenderOut._close_all_formats o).
Proof. destruct o as [parts [] [] []]; by repeat split. Qed.

(** A table line written to the buffer. *)
Lemma append_table_line (o : RenderOut.t) (row : list string)
    (st : RenderState.t) :
  let o' := fst (RenderOut.append_literal o (table_line row +:+ NL) st) in
  RenderOut.parts o' =
    RenderOut.parts (RenderOut._close_all_formats o)
    ++ [table_line row +:+ NL]
  ∧ all_closed o'.
Proof.
  unfold RenderOut.append_literal. rewrite table_line_truthy. simpl.
  split; [done|]. apply (close_all_is_closed o).
Qed.

Lemma emit_rows_parts (rows : list (list string)) (i max_cols : nat)
    (out : RenderOut.t) (st : RenderState.t) :
  all_closed out →
  let o' := fst (emit_rows i rows max_cols out st) in
  RenderOut.parts o' = RenderOut.parts out ++ emitted_lines i rows max_cols
  ∧ all_closed o'.
Proof.
  revert i out st. induction rows as [|row rows IH]; intros i out st Hc.
  { simpl. by rewrite app_nil_r. }
  cbn [emit_rows emitted_lines].
  destruct (append_table_line out (pad_row (max_cols - length row) row) st)
    as [Hp1 Hc1].
  destruct (RenderOut.append_literal out _ st) as [o1 s1].
  cbn [fst] in Hp1, Hc1. rewrite (close_all_closed out Hc) in Hp1.
  destruct (Nat.eqb i 0).
  - destruct (append_table_line o1 (replicate max_cols "---") s1)
      as [Hp2 Hc2].
    destruct (RenderOut.append_literal o1 _ s1) as [o2 s2].
    cbn [fst] in Hp2, Hc2. rewrite (close_all_closed o1 Hc1) in Hp2.
    destruct (IH (S i) o2 s2 Hc2) as [Hp3 Hc3]. split; [|done].
    rewrite Hp3, Hp2, Hp1, <- !app_assoc. done.
  - destruct (IH (S i) o1 s1 Hc1) as [Hp3 Hc3]. split; [|done].
    rewrite Hp3, Hp1, <- !app_assoc. done.
Qed.

(** After the first round no separator is written any more. *)
Lemma emitted_lines_later (i : nat) (rows : list (list string))
    (max_cols : nat) :
  emitted_lines (S i) rows max_cols =
    List.map (fun row =>
                TableSpec.line (TableSpec.padded max_cols row) +:+ NL) rows.
Proof.
  revert i. induction rows as [|row rows IH]; intros i; [done|].
  cbn [emitted_lines Nat.eqb List.map app]. rewrite IH, pad_row_spec. done.
Qed.

(** The output loop writes the lines of the specification. *)
Lemma emitted_lines_spec (rows : list (list string)) :
  emitted_lines 0 rows (TableSpec.width rows) =
    List.map (fun l => l +:+ NL) (TableSpec.lines rows).
Proof.
  destruct rows as [|first rest]; [done|].
  cbn [emitted_lines Nat.eqb app]. rewrite emitted_lines_later, pad_row_spec.
  unfold TableSpec.lines. cbn [List.map]. rewrite List.map_map. done.
Qed.

Lemma padded_length (w : nat) (row : list string) :
  (length row ≤ w)%nat → length (TableSpec.padded w row) = w.
Proof.
  intros H. unfold TableSpec.padded. rewrite length_app, length_replicate. lia.
Qed.

(** C8. For a table whose rows hold at least one cell, [_render_table]
    closes the open markers of the buffer and then writes, each with its
    line break: the first row, the separator row of "---" cells, and the
    other rows; every row is padded with empty cells to the greatest cell
    count (which is then the length of every row and of the separator) and
    written as "| " + cells joined by " | " + " |". *)
Theorem table_rows_padded_and_separated (tbl : Element) (ctx : RunContext.t)
    (out : RenderOut.t) (st st1 : RenderState.t) (rows : list (list string)) :
  rows_of (ET.findall_child tbl (_qn "tr")) st = (rows, st1) →
  rows ≠ [] →
  (0 < TableSpec.width rows)%nat →
  RenderOut.parts (fst (_render_table tbl ctx out st)) =
    RenderOut.parts (RenderOut._close_all_formats out)
    ++ List.map (fun l => l +:+ NL) (TableSpec.lines rows)
  ∧ Forall (fun row => length (TableSpec.padded (TableSpec.width rows) row)
                       = TableSpec.width rows) rows
  ∧ length (replicate (TableSpec.width rows) "---") = TableSpec.width rows.
Proof.
  intros Hrows Hne Hw. split; [|split].
  - unfold _render_table. rewrite Hrows. unfold emit_table.
    destruct rows as [|first rest]; [done|].
    fold (TableSpec.width (first :: rest)).
    destruct (Nat.eqb_spec (TableSpec.width (first :: rest)) 0) as [H0|_];
      [lia|].
    set (w := TableSpec.width (first :: rest)).
    cbn [emit_rows].
    destruct (append_table_line out (pad_row (w - length first) first) st1)
      as [Hp1 Hc1].
    destruct (RenderOut.append_literal out _ st1) as [o1 s1].
    cbn [fst] in Hp1, Hc1. cbn [Nat.eqb].
    destruct (append_table_line o1 (replicate w "---") s1) as [Hp2 Hc2].
    destruct (RenderOut.append_literal o1 _ s1) as [o2 s2].
    cbn [fst] in Hp2, Hc2. rewrite (close_all_closed o1 Hc1) in Hp2.
    destruct (emit_rows_parts rest 1 w o2 s2 Hc2) as [Hp3 _].
    rewrite Hp3, Hp2, Hp1, <- !app_assoc.
    f_equal. rewrite <- emitted_lines_spec. fold w. done.
  - apply Forall_forall. intros row Hrow. apply padded_length.
    unfold TableSpec.width.
    pose proof (proj1 (list_max_le (List.map (@length string) rows)
                         (list_max (List.map (@length string) rows)))
                  (le_n _)) as Hall.
    rewrite Forall_forall in Hall. apply Hall.
    apply list_elem_of_In in Hrow. apply list_elem_of_In.
    by apply List.in_map.
  - apply length_replicate.
Qed.

Lemma table_rows_padded_and_separated_witness :
  RenderOut.parts
    (fst (_render_table Sample.table RunContext.default RenderOut.new
            Sample.state0)) =
    RenderOut.parts (RenderOut._close_all_formats RenderOut.new)
    ++ List.map (fun l => l +:+ NL)
         (TableSpec.lines [["a"; "b"]; ["c"; "d"; "e"]])
  ∧ Forall (fun row =>
              length (TableSpec.padded
                        (TableSpec.width [["a"; "b"]; ["c"; "d"; "e"]]) row)
              = TableSpec.width [["a"; "b"]; ["c"; "d"; "e"]])
      [["a"; "b"]; ["c"; "d"; "e"]]
  ∧ length (replicate (TableSpec.width [["a"; "b"]; ["c"; "d"; "e"]]) "---")
    = TableSpec.width [["a"; "b"]; ["c"; "d"; "e"]].
Proof.
  apply (table_rows_padded_and_separated Sample.table RunContext.default
           RenderOut.new Sample.state0 Sample.state0
           [["a"; "b"]; ["c"; "d"; "e"]]).
  - reflexivity.
  - discriminate.
  - vm_compute. lia.
Defined.

(** The table of the specification: the short row gets an empty third
    cell, and the separator follows the first row. *)
Example table_two_and_three :
  RenderOut.parts
    (fst (_render_table Sample.table RunContext.default RenderOut.new
            Sample.state0))
  = ["| a | b |  |" +:+ NL; "| --- | --- | --- |" +:+ NL;
     "| c | d | e |" +:+ NL].
Proof. reflexivity. Qed.

(** ** Styles *)

Lemma decimal_not_space (cp : N) (d : Z) :
  Py.decimal_of_code_point cp = Some d →
  existsb (N.eqb cp) Py.space_code_points = false.
Proof.
  intros Hd. destruct (existsb _ _) eqn:Hex; [|done].
  apply existsb_exists in Hex as (sp & Hin & ->%N.eqb_eq).
  unfold Py.space_code_points in Hin. cbn [In] in Hin.
  repeat (destruct Hin as [<- | Hin]; [by vm_compute in Hd|]). done.
Qed.

Lemma digit_not_space (ch : string) :
  Py.is_digit ch = true → Py.is_space ch = false.
Proof.
  unfold Py.is_digit, Py.digit_val, Py.is_space.
  destruct (Py.code_point ch) as [cp|]; [|done]. cbn [mbind option_bind].
  destruct (Py.decimal_of_code_point cp) eqn:Hd; [|done].
  intros _. by eapply decimal_not_space.
Qed.

Lemma starts_with_app (p s : string) : Py.starts_with p (p +:+ s) = Some s.
Proof.
  induction p as [|c p IH]; [by destruct s|].
  rewrite append_cons. simpl. by rewrite Ascii.eqb_refl.
Qed.

Lemma forallb_complete (P : string → bool) (cs : list string) :
  (∀ ch, P ch = true → complete ch) →
  forallb P cs = true → Forall complete cs.
Proof.
  intros HP. induction cs as [|ch cs IH]; [constructor|]. cbn.
  intros [Hch Hcs]%andb_true_iff. constructor; auto.
Qed.

(** A text of characters of one class, followed by more text. *)
Lemma chars_app_all (P : string → bool) (a t : string) :
  (∀ ch, P ch = true → complete ch) →
  StyleSpec.all_chars P a = true →
  Py.chars (a +:+ t) = Py.chars a ++ Py.chars t.
Proof.
  intros HP Ha. rewrite <- (cat_chars a) at 1. apply chars_app.
  by eapply forallb_complete.
Qed.

Lemma lstrip_spaces (ws s : string) :
  StyleSpec.all_chars Py.is_space ws = true →
  Py.lstrip s = s →
  Py.lstrip (ws +:+ s) = s.
Proof.
  intros Hws Hs. unfold Py.lstrip.
  rewrite (chars_app_all Py.is_space) by auto using is_space_complete.
  by rewrite drop_while_all.
Qed.

Lemma span_digits_app (ds rest : string) :
  StyleSpec.all_chars Py.is_digit ds = true →
  StyleSpec.no_leading_digit rest = true →
  Py.span_digits (ds +:+ rest) = (ds, rest).
Proof.
  intros Hds Hrest. unfold Py.span_digits.
  rewrite (chars_app_all Py.is_digit) by auto using is_digit_complete.
  rewrite take_while_all, drop_while_all by done.
  unfold StyleSpec.no_leading_digit in Hrest.
  rewrite <- (cat_chars rest) at 3.
  destruct (Py.chars rest) as [|ch cs].
  - cbn [Py.take_while Py.drop_while]. rewrite List.app_nil_r.
    by rewrite cat_chars.
  - apply negb_true_iff in Hrest. cbn [Py.take_while Py.drop_while].
    rewrite Hrest, List.app_nil_r. by rewrite cat_chars.
Qed.

(** Text that begins with a digit has no white space to strip there. *)
Lemma lstrip_digits (ds rest : string) :
  ds ≠ "" →
  StyleSpec.all_chars Py.is_digit ds = true →
  Py.lstrip (ds +:+ rest) = ds +:+ rest.
Proof.
  intros Hne Hds. unfold Py.lstrip.
  rewrite (chars_app_all Py.is_digit) by auto using is_digit_complete.
  unfold StyleSpec.all_chars in Hds.
  destruct (Py.chars ds) as [|d cs] eqn:Hcs.
  { destruct ds; [done|]. by rewrite chars_cons in Hcs. }
  cbn [forallb] in Hds. apply andb_true_iff in Hds as [Hd Hds].
  cbn [app Py.drop_while]. rewrite (digit_not_space d Hd).
  change (d :: cs ++ Py.chars rest) with ((d :: cs) ++ Py.chars rest).
  by rewrite <- Hcs, cat_app, !cat_chars.
Qed.

(** The pattern of [_parse_styles] finds the digits of a heading name. *)
Lemma match_heading_name_spec (s digits : string) :
  StyleSpec.heading_name s digits → match_heading_name s = Some digits.
Proof.
  intros (kw & ws & rest & Hkw & -> & Hws & Hne & Hds & Hrest).
  unfold match_heading_name.
  assert (match Py.starts_with "heading" (kw +:+ ws +:+ digits +:+ rest) with
          | Some r => Some r
          | None => Py.starts_with "标题" (kw +:+ ws +:+ digits +:+ rest)
          end = Some (ws +:+ digits +:+ rest)) as ->.
  { destruct Hkw as [-> | ->].
    - by rewrite starts_with_app.
    - change (Py.starts_with "heading" ("标题" +:+ ws +:+ digits +:+ rest))
        with (@None string).
      by rewrite starts_with_app. }
  rewrite lstrip_spaces; [|done|by apply lstrip_digits].
  rewrite span_digits_app by done. by apply truthy_true in Hne as ->.
Qed.

(** The rounds of [_parse_styles] over a list of styles in two parts. *)
Lemma parse_style_list_app (l1 l2 : list Element) (hl : gmap string Z) :
  parse_style_list (l1 ++ l2) hl
  = parse_style_list l1 hl ≫= parse_style_list l2.
Proof.
  revert hl. induction l1 as [|s l1 IH]; intros hl; [done|].
  cbn [app parse_style_list]. destruct (parse_style hl s); [apply IH|done].
Qed.

(** A round for a style only writes the entry of the style's own id. *)
Lemma parse_style_other (hl hl' : gmap string Z) (s : Element)
    (style_id : string) :
  ET.get s (_qn "styleId") ≠ Some style_id →
  parse_style hl s = Some hl' →
  hl' !! style_id = hl !! style_id.
Proof.
  intros Hid. unfold parse_style.
  destruct (ET.get s (_qn "styleId")) as [sid|]; [|by intros [= <-]].
  assert (sid ≠ style_id) as Hne by congruence.
  destruct (negb (Py.truthy sid)); [by intros [= <-]|].
  destruct (style_outline s sid hl) as [hl1|] eqn:H1; [|done].
  intros H2.
  assert (hl1 !! style_id = hl !! style_id) as <-.
  { revert H1. unfold style_outline.
    repeat case_match; intros [= <-]; by rewrite ?lookup_insert_ne. }
  revert H2. unfold style_name.
  repeat case_match; intros [= <-]; by rewrite ?lookup_insert_ne.
Qed.

Lemma parse_style_list_other (l : list Element) (hl hl' : gmap string Z)
    (style_id : string) :
  Forall (fun s => ET.get s (_qn "styleId") ≠ Some style_id) l →
  parse_style_list l hl = Some hl' →
  hl' !! style_id = hl !! style_id.
Proof.
  intros Hl. revert hl. induction Hl as [|s l Hs _ IH]; intros hl.
  - by intros [= <-].
  - cbn [parse_style_list].
    destruct (parse_style hl s) as [hl1|] eqn:H1; [|done].
    intros H2. rewrite (IH _ H2). by eapply parse_style_other.
Qed.

(** Whether a round raises does not depend on the levels recorded so
    far. *)
Lemma parse_style_total (hl hl0 : gmap string Z) (s : Element) :
  is_Some (parse_style hl0 s) → is_Some (parse_style hl s).
Proof.
  unfold parse_style.
  destruct (ET.get s (_qn "styleId")) as [sid|]; [|done].
  destruct (negb (Py.truthy sid)); [done|].
  unfold style_outline, style_name.
  repeat case_match; try done; by intros [? [=]].
Qed.

Lemma parse_style_list_total (l : list Element) (hl : gmap string Z) :
  Forall (fun s => is_Some (parse_style ∅ s)) l →
  is_Some (parse_style_list l hl).
Proof.
  intros Hl. revert hl. induction Hl as [|s l Hs _ IH]; intros hl; [done|].
  cbn [parse_style_list].
  destruct (parse_style_total hl ∅ s Hs) as [hl1 ->]. apply IH.
Qed.

(** The round for a style with an outline level and a heading name. *)
Lemma parse_style_heading (hl : gmap string Z)
    (style ppr outline name_el : Element) (style_id val name digits : string)
    (lvl N : Z) :
  ET.get style (_qn "styleId") = Some style_id →
  style_id ≠ "" →
  ET.find_child style (_qn "pPr") = Some ppr →
  ET.find_child ppr (_qn "outlineLvl") = Some outline →
  ET.get outline (_qn "val") = Some val →
  Py.int val = Some lvl →
  0 ≤ lvl ≤ 5 →
  ET.find_child style (_qn "name") = Some name_el →
  ET.get name_el (_qn "val") = Some name →
  StyleSpec.heading_name (Py.lower name) digits →
  Py.int digits = Some N →
  1 ≤ N ≤ 6 →
  style_outline style style_id hl = Some (<[style_id := lvl + 1]> hl)
  ∧ parse_style hl style
    = Some (<[style_id := N]> (<[style_id := lvl + 1]> hl)).
Proof.
  intros Hid Hne Hppr Hout Hval Hlvl Hrange Hname Hnval Hpat Hn HN.
  assert (style_outline style style_id hl
          = Some (<[style_id := lvl + 1]> hl)) as Houtline.
  { unfold style_outline. rewrite Hppr, Hout, Hval, Hlvl.
    destruct (Z.leb_spec 0 lvl); [|lia].
    destruct (Z.leb_spec lvl 5); [|lia]. done. }
  split; [done|].
  unfold parse_style. rewrite Hid.
  apply truthy_true in Hne as ->. simpl negb. cbv iota.
  rewrite Houtline. unfold style_name. rewrite Hname, Hnval. simpl default.
  rewrite (match_heading_name_spec _ _ Hpat), Hn.
  destruct (Z.leb_spec 1 N); [|lia].
  destruct (Z.leb_spec N 6); [|lia]. done.
Qed.

(** C7. A style definition of the style sheet with an explicit outline
    level [lvl] in 0..5 and a display name that, in lower case, is
    "heading" or "标题", white space and the digits of [N] in 1..6, and
    that no later style definition of the same id follows. The outline step
    of its round records [lvl + 1] for the style id; the name step
    overwrites it, so whenever [_parse_styles] returns, the style id is at
    heading level [N]; and [_parse_styles] does return when no other style
    definition makes [int] raise. *)
Theorem name_level_overrides_outline (root : Element)
    (before after : list Element)
    (style ppr outline name_el : Element) (style_id val name digits : string)
    (lvl N : Z) :
  ET.findall_desc root (_qn "style") = before ++ style :: after →
  Forall (fun s => ET.get s (_qn "styleId") ≠ Some style_id) after →
  ET.get style (_qn "styleId") = Some style_id →
  style_id ≠ "" →
  ET.find_child style (_qn "pPr") = Some ppr →
  ET.find_child ppr (_qn "outlineLvl") = Some outline →
  ET.get outline (_qn "val") = Some val →
  Py.int val = Some lvl →
  0 ≤ lvl ≤ 5 →
  ET.find_child style (_qn "name") = Some name_el →
  ET.get name_el (_qn "val") = Some name →
  StyleSpec.heading_name (Py.lower name) digits →
  Py.int digits = Some N →
  1 ≤ N ≤ 6 →
  (∀ hl, style_outline style style_id hl = Some (<[style_id := lvl + 1]> hl))
  ∧ (∀ info, _parse_styles (Some root) = Some info →
       StyleInfo.heading_levels info !! style_id = Some N)
  ∧ (Forall (fun s => is_Some (parse_style ∅ s)) (before ++ after) →
     ∃ info, _parse_styles (Some root) = Some info
       ∧ StyleInfo.heading_levels info !! style_id = Some N).
Proof.
  intros Hall Hafter Hid Hne Hppr Hout Hval Hlvl Hrange Hname Hnval Hpat Hn HN.
  pose proof (fun hl => parse_style_heading hl _ _ _ _ _ _ _ _ _ _
    Hid Hne Hppr Hout Hval Hlvl Hrange Hname Hnval Hpat Hn HN) as Hround.
  assert (∀ info, _parse_styles (Some root) = Some info →
            StyleInfo.heading_levels info !! style_id = Some N) as Hlevel.
  { intros info. unfold _parse_styles. rewrite Hall, parse_style_list_app.
    destruct (parse_style_list before ∅) as [hl0|]; [|done].
    cbn [mbind option_bind parse_style_list].
    destruct (Hround hl0) as [_ ->].
    destruct (parse_style_list after _) as [hl'|] eqn:H2; [|done].
    intros [= <-]. cbn [StyleInfo.heading_levels].
    rewrite (parse_style_list_other _ _ _ _ Hafter H2).
    apply lookup_insert_eq. }
  split; [intros hl; apply Hround|]. split; [done|].
  intros [Hb Ha]%Forall_app.
  assert (is_Some (_parse_styles (Some root))) as [info Hinfo].
  { unfold _parse_styles. rewrite Hall, parse_style_list_app.
    destruct (parse_style_list_total before ∅ Hb) as [hl0 ->].
    cbn [mbind option_bind parse_style_list].
    destruct (Hround hl0) as [_ ->].
    destruct (parse_style_list_total after
                (<[style_id := N]> (<[style_id := lvl + 1]> hl0)) Ha)
      as [hl' ->]. by eexists. }
  exists info. split; [done | by apply Hlevel].
Qed.

Lemma name_level_overrides_outline_witness :
  (∀ hl, style_outline Sample.heading_style "H" hl
         = Some (<["H" := 1 + 1]> hl))
  ∧ (∀ info, _parse_styles (Some Sample.style_sheet) = Some info →
       StyleInfo.heading_levels info !! "H" = Some 1)
  ∧ (Forall (fun s => is_Some (parse_style ∅ s))
       ([Sample.el "style" [(_qn "styleId", "H")] None
           [Sample.el "pPr" [] None
              [Sample.el "outlineLvl" [(_qn "val", "3")] None []]]]
        ++ [Sample.el "style" [(_qn "styleId", "G")] None
              [Sample.el "name" [(_qn "val", "heading 2")] None []]]) →
     ∃ info, _parse_styles (Some Sample.style_sheet) = Some info
       ∧ StyleInfo.heading_levels info !! "H" = Some 1).
Proof.
  apply (name_level_overrides_outline Sample.style_sheet
           [Sample.el "style" [(_qn "styleId", "H")] None
              [Sample.el "pPr" [] None
                 [Sample.el "outlineLvl" [(_qn "val", "3")] None []]]]
           [Sample.el "style" [(_qn "styleId", "G")] None
              [Sample.el "name" [(_qn "val", "heading 2")] None []]]
           Sample.heading_style
           (Sample.el "pPr" [] None
              [Sample.el "outlineLvl" [(_qn "val", "1")] None []])
           (Sample.el "outlineLvl" [(_qn "val", "1")] None [])
           (Sample.el "name" [(_qn "val", "Heading 1")] None [])
           "H" "1" "Heading 1" "1" 1 1);
    try reflexivity; try lia; try discriminate.
  - repeat constructor. discriminate.
  - exists "heading", " ", "". repeat split; try reflexivity.
    + by left.
    + discriminate.
Defined.

(** A name whose digits are ASCII and full-width mixed is read as one
    number, and white space beyond ASCII separates the word from it: the
    name "Heading 1２" is level 12 and records nothing, "Heading" U+00A0 "3"
    is level 3. *)
Example heading_names_by_character :
  match_heading_name
    (Py.lower ("Heading 1" +:+ String "239" (String "188" (String "146" ""))))
  = Some ("1" +:+ String "239" (String "188" (String "146" "")))
  ∧ Py.int ("1" +:+ String "239" (String "188" (String "146" ""))) = Some 12
  ∧ match_heading_name
      (Py.lower ("Heading" +:+ String "194" (String "160" "3")))
    = Some "3".
Proof. by vm_compute. Qed.

(** The style of the specification's example resolves to level 1. *)
Example heading_one_wins :
  (fun info => StyleInfo.heading_levels info !! "H")
    <$> _parse_styles (Some (Sample.el "styles" [] None [Sample.heading_style]))
  = Some (Some 1).
Proof. vm_compute. reflexivity. Qed.

(** ** Revisions inside a comment range *)

Lemma append_text_plain (ps : list string) (text : string)
    (st : RenderState.t) :
  RenderOut.append_text (closed_out ps) text RunContext.default st =
    if Py.truthy text then
      (closed_out (ps ++ [text]), RenderState.append_to_active_ranges st text)
    else (closed_out ps, st).
Proof.
  unfold RenderOut.append_text. by destruct (Py.truthy text).
Qed.

Lemma text_leaf_tests (k : Element) :
  is_text_leaf k = true →
  (tag k =? _qn "rPr") = false ∧ (tag k =? _qn "commentReference") = false.
Proof.
  unfold is_text_leaf. rewrite orb_true_iff, !String.eqb_eq.
  intros [-> | ->]; split; reflexivity.
Qed.

Lemma run_children_plain (leaves : list Element) (ps : list string)
    (st : RenderState.t) :
  forallb is_text_leaf leaves = true →
  render_run_children RunContext.default leaves (closed_out ps) st =
    (closed_out (ps ++ leaf_texts leaves), forward (leaf_texts leaves) st).
Proof.
  revert ps st. induction leaves as [|k leaves IH]; intros ps st Hall.
  { simpl. by rewrite app_nil_r. }
  simpl in Hall. apply andb_true_iff in Hall as [Hk Hall].
  cbn [render_run_children]. unfold render_run_child.
  destruct (text_leaf_tests k Hk) as [-> ->].
  unfold is_text_leaf in Hk. rewrite Hk.
  rewrite append_text_plain. unfold leaf_texts. cbn [List.map List.filter].
  destruct (Py.truthy (default "" (text k))).
  - rewrite (IH _ _ Hall). unfold leaf_texts.
    by rewrite <- app_assoc.
  - by rewrite (IH _ _ Hall).
Qed.

Lemma plain_run_no_props (c : Element) :
  is_plain_run c = true → _get_run_context c = RunContext.default.
Proof.
  unfold is_plain_run. intros [_ Hall]%andb_true_iff.
  unfold _get_run_context, ET.find_child, ET.findall_child.
  assert (List.filter (fun k => tag k =? _qn "rPr") (children c) = []) as ->;
    [|done].
  induction (children c) as [|k ks IH]; [done|].
  simpl in Hall. apply andb_true_iff in Hall as [Hk Hall].
  simpl. destruct (text_leaf_tests k Hk) as [-> _]. by apply IH.
Qed.

Lemma render_plain_run (c : Element) (ps : list string) (st : RenderState.t) :
  is_plain_run c = true →
  _render_node c RunContext.default (closed_out ps) st =
    (closed_out (ps ++ leaf_texts (children c)),
     forward (leaf_texts (children c)) st).
Proof.
  intros Hc. rewrite _render_node_unfold. cbv zeta.
  rewrite (plain_run_no_props c Hc).
  unfold is_plain_run in Hc. apply andb_true_iff in Hc as [Htag Hall].
  apply String.eqb_eq in Htag. rewrite Htag. tag_tests.
  by apply run_children_plain.
Qed.

Lemma forward_app (l1 l2 : list string) (st : RenderState.t) :
  forward (l1 ++ l2) st = forward l2 (forward l1 st).
Proof. apply fold_left_app. Qed.

Lemma render_plain_runs (cs : list Element) (ps : list string)
    (st : RenderState.t) :
  forallb is_plain_run cs = true →
  render_children RunContext.default cs (closed_out ps) st =
    (closed_out (ps ++ run_texts cs), forward (run_texts cs) st).
Proof.
  revert ps st. induction cs as [|c cs IH]; intros ps st Hall.
  { simpl. by rewrite app_nil_r. }
  simpl in Hall. apply andb_true_iff in Hall as [Hc Hall].
  cbn [render_children]. rewrite (render_plain_run c ps st Hc).
  rewrite (IH _ _ Hall). unfold run_texts. cbn [List.map concat].
  by rewrite forward_app, <- app_assoc.
Qed.

Lemma forward_lookup (fragments : list string) (st : RenderState.t)
    (cid : string) (cr : CommentRange.t) :
  RenderState.active_comment_ranges st !! cid = Some cr →
  RenderState.active_comment_ranges (forward fragments st) !! cid =
    Some (CommentRange.mk (CommentRange.comment_id cr)
            (CommentRange.text_parts cr ++ fragments)).
Proof.
  revert st cr. induction fragments as [|f fs IH]; intros st cr Hcr.
  { simpl. rewrite app_nil_r. by destruct cr. }
  simpl. rewrite (IH _ (CommentRange.append f cr)).
  - simpl. by rewrite <- app_assoc.
  - by rewrite append_to_active_lookup, Hcr.
Qed.





(** The collected original text of a plain insertion and of a plain
    deletion inside the range of comment "1". *)
Example revisions_in_range :
  linearize_docx
    (Sample.document
       [Sample.el "p" [] None
          [Sample.range_start "1"; Sample.plain_ins; Sample.plain_del;
           Sample.range_end "1"]])
    Sample.registry Sample.no_numbering Sample.no_styles
  = Some (Py.join NL
            ["{+new+}[-old-]"; "";
             "> **[批注 #1]** Alice (2024-01-02)";
             "> **原文**：new{+new+}old[-old-]"; "> **批注**：fix this"; ""]).
Proof. vm_compute. reflexivity. Qed.

(** * Further properties of the engine *)

(** ** Relations that every rendering step respects *)

Section Closure.

Variable R : RenderState.t → RenderState.t → Prop.
Variable Q : RenderOut.t → RenderOut.t → Prop.

Hypothesis R_refl : ∀ st, R st st.
Hypothesis R_trans : ∀ a b c, R a b → R b c → R a c.
Hypothesis R_start : ∀ st cid, R st (RenderState.start_comment_range st cid).
Hypothesis R_append :
  ∀ st text, R st (RenderState.append_to_active_ranges st text).
Hypothesis R_end : ∀ st cid, R st (RenderState.end_comment_range st cid).
Hypothesis R_reference :
  ∀ st cid, R st (RenderState.handle_comment_reference st cid).

Hypothesis Q_refl : ∀ o, Q o o.
Hypothesis Q_trans : ∀ a b c, Q a b → Q b c → Q a c.
Hypothesis Q_text :
  ∀ o text ctx st, Q o (fst (RenderOut.append_text o text ctx st)).
Hypothesis Q_literal :
  ∀ o literal st, Q o (fst (RenderOut.append_literal o literal st)).

Lemma keeps_refl (o : RenderOut.t) (s : RenderState.t) : keeps R Q o s (o, s).
Proof. split; [apply Q_refl | apply R_refl]. Qed.

Lemma keeps_trans (o o1 : RenderOut.t) (s s1 : RenderState.t)
    (r : RenderOut.t * RenderState.t) :
  keeps R Q o s (o1, s1) → keeps R Q o1 s1 r → keeps R Q o s r.
Proof.
  intros [Hq1 Hr1] [Hq2 Hr2]. split; [eapply Q_trans | eapply R_trans]; eauto.
Qed.

Lemma keeps_with_id (node : Element) (f : string → RenderState.t)
    (o : RenderOut.t) (s : RenderState.t) :
  (∀ cid, R s (f cid)) → keeps R Q o s (o, with_id node f s).
Proof.
  intros Hf. split; [apply Q_refl|]. unfold with_id. simpl.
  destruct (ET.get node (_qn "id")) as [cid|]; [|apply R_refl].
  destruct (Py.truthy cid); [apply Hf | apply R_refl].
Qed.

Lemma keeps_append_text (o : RenderOut.t) (text : string)
    (ctx : RunContext.t) (s : RenderState.t) :
  keeps R Q o s (RenderOut.append_text o text ctx s).
Proof.
  split; [apply Q_text|]. rewrite append_text_state.
  destruct (Py.truthy text); [apply R_append | apply R_refl].
Qed.

Lemma keeps_append_literal (o : RenderOut.t) (literal : string)
    (s : RenderState.t) :
  keeps R Q o s (RenderOut.append_literal o literal s).
Proof.
  split; [apply Q_literal|]. rewrite append_literal_state.
  destruct (Py.truthy literal); [apply R_append | apply R_refl].
Qed.

Lemma keeps_emit_rows (rows : list (list string)) (i max_cols : nat)
    (o : RenderOut.t) (s : RenderState.t) :
  keeps R Q o s (emit_rows i rows max_cols o s).
Proof.
  revert i o s. induction rows as [|row rows IH]; intros i o s.
  { apply keeps_refl. }
  cbn [emit_rows].
  pose proof (keeps_append_literal o
    (table_line (pad_row (max_cols - length row) row) +:+ NL) s) as H1.
  destruct (RenderOut.append_literal o _ s) as [o1 s1].
  destruct (Nat.eqb i 0).
  - pose proof (keeps_append_literal o1
      (table_line (replicate max_cols "---") +:+ NL) s1) as H2.
    destruct (RenderOut.append_literal o1 _ s1) as [o2 s2].
    eapply keeps_trans; [exact H1|].
    eapply keeps_trans; [exact H2 | apply IH].
  - eapply keeps_trans; [exact H1 | apply IH].
Qed.

Lemma keeps_emit_table (rows : list (list string)) (o : RenderOut.t)
    (s : RenderState.t) :
  keeps R Q o s (emit_table rows o s).
Proof.
  unfold emit_table. destruct rows as [|row rows]; [apply keeps_refl|].
  destruct (Nat.eqb _ 0); [apply keeps_refl | apply keeps_emit_rows].
Qed.

Lemma keeps_children (ctx : RunContext.t) (cs : list Element)
    (o : RenderOut.t) (s : RenderState.t) :
  Forall (node_keeps R Q) cs → keeps R Q o s (render_children ctx cs o s).
Proof.
  intros Hcs. revert o s.
  induction Hcs as [|c cs Hc _ IH]; intros o s; [apply keeps_refl|].
  cbn [render_children]. pose proof (proj1 Hc ctx o s) as H1.
  destruct (_render_node c ctx o s) as [o1 s1].
  eapply keeps_trans; [exact H1 | apply IH].
Qed.

Lemma keeps_run_child (merged : RunContext.t) (c : Element)
    (o : RenderOut.t) (s : RenderState.t) :
  node_keeps R Q c → keeps R Q o s (render_run_child merged c o s).
Proof.
  intros Hc. unfold render_run_child.
  repeat match goal with
    | |- context [if ?b then _ else _] => destruct b
    end;
    first [ apply keeps_refl
          | apply keeps_append_text
          | apply keeps_append_literal
          | apply (proj1 Hc)
          | idtac ].
  apply keeps_with_id. intros cid. apply R_reference.
Qed.

Lemma keeps_run_children (merged : RunContext.t) (cs : list Element)
    (o : RenderOut.t) (s : RenderState.t) :
  Forall (node_keeps R Q) cs → keeps R Q o s (render_run_children merged cs o s).
Proof.
  intros Hcs. revert o s.
  induction Hcs as [|c cs Hc _ IH]; intros o s; [apply keeps_refl|].
  cbn [render_run_children]. pose proof (keeps_run_child merged c o s Hc) as H1.
  destruct (render_run_child merged c o s) as [o1 s1].
  eapply keeps_trans; [exact H1 | apply IH].
Qed.

Lemma keeps_para_children (ctx : RunContext.t) (cs : list Element)
    (o : RenderOut.t) (s : RenderState.t) :
  Forall (node_keeps R Q) cs → keeps R Q o s (render_para_children ctx cs o s).
Proof.
  intros Hcs. revert o s.
  induction Hcs as [|c cs Hc _ IH]; intros o s; [apply keeps_refl|].
  cbn [render_para_children]. destruct (tag c =? _qn "pPr"); [apply IH|].
  pose proof (proj1 Hc ctx o s) as H1.
  destruct (_render_node c ctx o s) as [o1 s1].
  eapply keeps_trans; [exact H1 | apply IH].
Qed.

Lemma keeps_rows (cs : list Element) (s : RenderState.t) :
  Forall (node_keeps R Q) cs → R s (snd (render_rows cs s)).
Proof.
  intros Hcs. revert s.
  induction Hcs as [|c cs Hc _ IH]; intros s; [apply R_refl|].
  cbn [render_rows]. destruct (tag c =? _qn "tr"); [|apply IH].
  pose proof (proj1 (proj2 Hc) s) as H1.
  destruct (render_row c s) as [row s1].
  specialize (IH s1). destruct (render_rows cs s1) as [rows s2].
  eapply R_trans; [exact H1 | exact IH].
Qed.

Lemma keeps_cells (cs : list Element) (s : RenderState.t) :
  Forall (node_keeps R Q) cs → R s (snd (render_cells cs s)).
Proof.
  intros Hcs. revert s.
  induction Hcs as [|c cs Hc _ IH]; intros s; [apply R_refl|].
  cbn [render_cells]. destruct (tag c =? _qn "tc"); [|apply IH].
  pose proof (proj2 (proj2 Hc) [] s) as H1.
  destruct (render_cell_paras c [] s) as [parts s1].
  specialize (IH s1). destruct (render_cells cs s1) as [row s2].
  eapply R_trans; [exact H1 | exact IH].
Qed.

Lemma keeps_paras_below (cs : list Element) (acc : list string)
    (s : RenderState.t) :
  Forall (node_keeps R Q) cs → R s (snd (render_paras_below cs acc s)).
Proof.
  intros Hcs. revert acc s.
  induction Hcs as [|c cs Hc _ IH]; intros acc s; [apply R_refl|].
  cbn [render_paras_below]. destruct (tag c =? _qn "p").
  - pose proof (proj2 (proj1 Hc RunContext.default RenderOut.new s)) as H1.
    destruct (_render_node c RunContext.default RenderOut.new s) as [o1 s1].
    match goal with
    | |- context [render_cell_paras c ?a s1] =>
        pose proof (proj2 (proj2 Hc) a s1) as H2;
        destruct (render_cell_paras c a s1) as [acc2 s2]
    end.
    eapply R_trans; [exact H1|].
    eapply R_trans; [exact H2 | apply IH].
  - pose proof (proj2 (proj2 Hc) acc s) as H2.
    destruct (render_cell_paras c acc s) as [acc2 s2].
    eapply R_trans; [exact H2 | apply IH].
Qed.

Lemma keeps_revision (l r : string) (ctx : RunContext.t) (cs : list Element)
    (o : RenderOut.t) (s : RenderState.t) :
  Forall (node_keeps R Q) cs → keeps R Q o s (render_revision l r ctx cs o s).
Proof.
  intros Hcs. unfold render_revision.
  pose proof (proj2 (keeps_children ctx cs RenderOut.new s Hcs)) as H1.
  destruct (render_children ctx cs RenderOut.new s) as [inner s1].
  cbn [snd] in H1. destruct (Py.truthy _).
  - pose proof (keeps_append_literal o
      (l +:+ (RenderOut.finish inner).1 +:+ r) s1) as [H2 H3].
    split; [exact H2 | eapply R_trans; eassumption].
  - split; [apply Q_refl | exact H1].
Qed.

(** Every node keeps R Q both relations, whatever its shape. *)
Lemma every_node_keeps (e : Element) : node_keeps R Q e.
Proof.
  induction e as [t a x cs IH] using Element_tree_ind.
  split; [|split].
  - intros ctx o s. rewrite _render_node_unfold. cbv zeta.
    simpl tag. simpl children.
    repeat match goal with
      | |- context [if ?b then _ else _] => destruct b
      end.
    + apply keeps_with_id. intros cid. apply R_start.
    + apply keeps_with_id. intros cid. apply R_end.
    + by apply keeps_revision.
    + by apply keeps_revision.
    + by apply keeps_run_children.
    + by apply keeps_para_children.
    + pose proof (keeps_rows cs s IH) as H1.
      destruct (render_rows cs s) as [rows s1].
      destruct (keeps_emit_table rows o s1) as [H2 H3].
      split; [exact H2 | eapply R_trans; eassumption].
    + by apply keeps_children.
  - intros s. rewrite render_row_unfold. by apply keeps_cells.
  - intros acc s. rewrite render_cell_paras_unfold. by apply keeps_paras_below.
Qed.

Lemma render_node_keeps (e : Element) (ctx : RunContext.t) (o : RenderOut.t)
    (s : RenderState.t) :
  Q o (fst (_render_node e ctx o s)) ∧ R s (snd (_render_node e ctx o s)).
Proof. apply every_node_keeps. Qed.

Lemma paragraph_content_keeps (p : Element) (s : RenderState.t) :
  R s (snd (_render_paragraph_content p s)).
Proof.
  unfold _render_paragraph_content.
  pose proof (proj2 (render_node_keeps p RunContext.default RenderOut.new s))
    as H1.
  by destruct (_render_node p RunContext.default RenderOut.new s).
Qed.

Lemma render_table_keeps (tbl : Element) (ctx : RunContext.t)
    (o : RenderOut.t) (s : RenderState.t) :
  Q o (fst (_render_table tbl ctx o s)) ∧ R s (snd (_render_table tbl ctx o s)).
Proof.
  unfold _render_table, ET.findall_child. rewrite <- render_rows_findall.
  pose proof (keeps_rows (children tbl) s) as H1.
  destruct (render_rows (children tbl) s) as [rows s1].
  destruct (keeps_emit_table rows o s1) as [H2 H3].
  split; [exact H2|]. eapply R_trans; [|exact H3].
  apply H1. apply Forall_forall. intros c _. apply every_node_keeps.
Qed.

End Closure.

(** ** What rendering a node keeps *)

Lemma same_inputs_end (st : RenderState.t) (cid : string) :
  same_inputs st (RenderState.end_comment_range st cid).
Proof.
  unfold RenderState.end_comment_range.
  destruct (RenderState.active_comment_ranges st !! cid); [|done].
  cbv zeta. destruct (RenderState.comments _ !! cid); [|done].
  by case_bool_decide.
Qed.

Lemma same_inputs_reference (st : RenderState.t) (cid : string) :
  same_inputs st (RenderState.handle_comment_reference st cid).
Proof.
  unfold RenderState.handle_comment_reference. case_bool_decide; [done|].
  destruct (RenderState.active_comment_ranges st !! cid); [done|].
  by destruct (RenderState.comments st !! cid).
Qed.

Lemma same_inputs_trans (a b c : RenderState.t) :
  same_inputs a b → same_inputs b c → same_inputs a c.
Proof.
  intros (H1 & H2 & H3 & H4) (H5 & H6 & H7 & H8).
  repeat split; congruence.
Qed.

(** X1. Rendering a node, whatever its shape, leaves the comment
    registry, the numbering table, the style table and the list counters
    of the traversal state as they were: only the paragraph assembler
    moves a list counter. *)
Theorem render_node_keeps_inputs (e : Element) (ctx : RunContext.t)
    (out : RenderOut.t) (st : RenderState.t) :
  same_inputs st (snd (_render_node e ctx out st)).
Proof.
  apply (render_node_keeps same_inputs (fun _ _ => True)); try done.
  - apply same_inputs_trans.
  - intros s cid. unfold RenderState.start_comment_range.
    by destruct (RenderState.active_comment_ranges s !! cid).
  - apply same_inputs_end.
  - apply same_inputs_reference.
Qed.

Lemma queue_grows_refl (st : RenderState.t) : queue_grows st st.
Proof.
  split; [done|]. split; [done|]. exists []. by rewrite app_nil_r.
Qed.

Lemma queue_grows_trans (a b c : RenderState.t) :
  queue_grows a b → queue_grows b c → queue_grows a c.
Proof.
  intros (Hc1 & He1 & n1 & Hq1 & Hn1) (Hc2 & He2 & n2 & Hq2 & Hn2).
  split; [congruence|]. split; [set_solver|].
  exists (n1 ++ n2). split; [by rewrite Hq2, Hq1, app_assoc|].
  apply Forall_app. split.
  - eapply Forall_impl; [exact Hn1|]. intros x (H1 & H2 & H3).
    split; [done|]. split; [done|]. by apply He2.
  - eapply Forall_impl; [exact Hn2|]. intros x (H1 & H2 & H3).
    rewrite Hc1 in H1. split; [done|]. split; [|done].
    intros Hin. by apply H2, He1.
Qed.

Lemma queue_grows_enqueue (st : RenderState.t) (cid : string)
    (comment : Comment.t) (original : string) :
  RenderState.comments st !! cid = Some comment →
  cid ∉ RenderState.emitted_comment_ids st →
  queue_grows st (RenderState.enqueue st cid comment original).
Proof.
  intros Hreg Hfresh. split; [done|]. split; [simpl; set_solver|].
  eexists [_]. split; [reflexivity|]. constructor; [|constructor].
  split; [by exists comment|]. split; [done|].
  simpl. apply elem_of_union_l, elem_of_singleton. done.
Qed.

Lemma queue_grows_active (st : RenderState.t)
    (a : gmap string CommentRange.t) :
  queue_grows st (RenderState.set_active a st).
Proof. apply (queue_grows_refl st). Qed.

Lemma queue_grows_end (st : RenderState.t) (cid : string) :
  queue_grows st (RenderState.end_comment_range st cid).
Proof.
  unfold RenderState.end_comment_range.
  destruct (RenderState.active_comment_ranges st !! cid) as [cr|];
    [|apply queue_grows_refl].
  cbv zeta.
  destruct (RenderState.comments (RenderState.set_active _ st) !! cid)
    as [comment|] eqn:Hreg; [|apply queue_grows_active].
  case_bool_decide; [apply queue_grows_active|].
  eapply queue_grows_trans; [apply queue_grows_active|].
  by apply queue_grows_enqueue.
Qed.

Lemma queue_grows_reference (st : RenderState.t) (cid : string) :
  queue_grows st (RenderState.handle_comment_reference st cid).
Proof.
  unfold RenderState.handle_comment_reference.
  case_bool_decide; [apply queue_grows_refl|].
  destruct (RenderState.active_comment_ranges st !! cid);
    [apply queue_grows_refl|].
  destruct (RenderState.comments st !! cid) as [comment|] eqn:Hreg;
    [|apply queue_grows_refl].
  by apply queue_grows_enqueue.
Qed.

(** X2. Rendering a node takes nothing from the queue of collected
    comments and forgets no emitted id: the queue after it is the queue
    before it followed by new comments, each of which carries the author,
    date and text of the registry entry of its id, was not emitted before
    and is emitted now. An id that is not in the registry is never queued. *)
Theorem render_node_queue_grows (e : Element) (ctx : RunContext.t)
    (out : RenderOut.t) (st : RenderState.t) :
  queue_grows st (snd (_render_node e ctx out st)).
Proof.
  apply (render_node_keeps queue_grows (fun _ _ => True)); try done.
  - apply queue_grows_refl.
  - apply queue_grows_trans.
  - intros s cid. unfold RenderState.start_comment_range.
    destruct (RenderState.active_comment_ranges s !! cid);
      [apply queue_grows_refl | apply queue_grows_active].
  - intros s text. apply queue_grows_active.
  - apply queue_grows_end.
  - apply queue_grows_reference.
Qed.

Lemma extends_refl (o : RenderOut.t) : extends o o.
Proof. exists []. by rewrite app_nil_r. Qed.

Lemma extends_trans (a b c : RenderOut.t) :
  extends a b → extends b c → extends a c.
Proof.
  intros [s1 H1] [s2 H2]. exists (s1 ++ s2). by rewrite H2, H1, app_assoc.
Qed.

Lemma extends_close (o : RenderOut.t) :
  extends o (RenderOut._close_all_formats o).
Proof.
  destruct o as [parts [] [] []]; simpl; unfold extends; simpl;
    rewrite <- ?app_assoc; eauto using app_nil_r.
Qed.

Lemma extends_append_text (o : RenderOut.t) (text : string)
    (ctx : RunContext.t) (st : RenderState.t) :
  extends o (fst (RenderOut.append_text o text ctx st)).
Proof.
  unfold RenderOut.append_text.
  destruct (Py.truthy text); [|apply extends_refl].
  destruct o as [parts hl b i], ctx as [chl cb ci].
  destruct hl, b, i, chl, cb, ci; simpl; unfold extends; simpl;
    rewrite <- ?app_assoc; eauto.
Qed.

Lemma extends_append_literal (o : RenderOut.t) (literal : string)
    (st : RenderState.t) :
  extends o (fst (RenderOut.append_literal o literal st)).
Proof.
  unfold RenderOut.append_literal.
  destruct (Py.truthy literal); [|apply extends_close].
  eapply extends_trans; [apply extends_close|].
  simpl. by eexists [_].
Qed.

(** X3. Rendering a node only appends to the output buffer: the parts
    that were in the buffer before are still its first parts afterwards,
    in the same order. *)
Theorem render_node_extends_buffer (e : Element) (ctx : RunContext.t)
    (out : RenderOut.t) (st : RenderState.t) :
  extends out (fst (_render_node e ctx out st)).
Proof.
  apply (render_node_keeps (fun _ _ => True) extends); try done.
  - apply extends_refl.
  - apply extends_trans.
  - apply extends_append_text.
  - apply extends_append_literal.
Qed.

(** ** The output buffer *)

(** X4. After [append_text] with a text that is not empty, the markers
    left open are exactly those of the context of that text, and the text
    is the last part of the buffer; with the empty text the buffer and the
    state stay as they are. *)
Theorem append_text_tracks_context (o : RenderOut.t) (text : string)
    (ctx : RunContext.t) (st : RenderState.t) :
  (text = "" → RenderOut.append_text o text ctx st = (o, st))
  ∧ (text ≠ "" →
     open_flags (fst (RenderOut.append_text o text ctx st)) = ctx
     ∧ last (RenderOut.parts (fst (RenderOut.append_text o text ctx st)))
       = Some text).
Proof.
  split.
  - intros ->. reflexivity.
  - intros Hne. apply truthy_true in Hne. unfold RenderOut.append_text.
    rewrite Hne. simpl negb. cbv iota.
    destruct o as [parts hl b i], ctx as [chl cb ci]. split.
    + destruct hl, b, i, chl, cb, ci; reflexivity.
    + cbn [fst RenderOut.parts]. apply last_snoc.
Qed.

(** X5. [append_literal] always leaves every marker closed, also when the
    literal is empty; a literal that is not empty is then the last part of
    the buffer, and the empty literal reaches no comment range. *)
Theorem append_literal_closes (o : RenderOut.t) (literal : string)
    (st : RenderState.t) :
  all_closed (fst (RenderOut.append_literal o literal st))
  ∧ (literal ≠ "" →
     last (RenderOut.parts (fst (RenderOut.append_literal o literal st)))
     = Some literal)
  ∧ (literal = "" → snd (RenderOut.append_literal o literal st) = st).
Proof.
  unfold RenderOut.append_literal. split; [|split].
  - destruct (Py.truthy literal); [|apply close_all_is_closed].
    apply (close_all_is_closed o).
  - intros Hne. apply truthy_true in Hne. rewrite Hne.
    cbn [fst RenderOut.parts]. apply last_snoc.
  - intros ->. reflexivity.
Qed.

(** X6. [finish] can be called again: the second call returns the same
    string as the first and leaves the buffer as the first left it, so no
    closing marker is written twice. *)
Theorem finish_twice (o : RenderOut.t) :
  RenderOut.finish (snd (RenderOut.finish o)) = RenderOut.finish o.
Proof.
  unfold RenderOut.finish. cbn [snd].
  by rewrite (close_all_closed _ (close_all_is_closed o)).
Qed.

Lemma plain_step (ps : list string) (st : RenderState.t) (c : Api.call) :
  plain_call c = true →
  fst (Api.step (closed_out ps) st c) = closed_out (ps ++ Api.payload c).
Proof.
  destruct c as [text [[] [] []]|literal|]; try discriminate; intros _; simpl.
  - rewrite append_text_plain.
    destruct (Py.truthy text); simpl; by rewrite ?app_nil_r.
  - unfold RenderOut.append_literal.
    destruct (Py.truthy literal); simpl; by rewrite ?app_nil_r.
  - by rewrite app_nil_r.
Qed.

Lemma plain_run (calls : list Api.call) (ps : list string)
    (st : RenderState.t) :
  forallb plain_call calls = true →
  fst (Api.run calls (closed_out ps) st)
  = closed_out (ps ++ concat (Api.payload <$> calls)).
Proof.
  revert ps st. induction calls as [|c calls IH]; intros ps st Hall.
  { simpl. by rewrite app_nil_r. }
  simpl in Hall. apply andb_true_iff in Hall as [Hc Hall].
  cbn [Api.run]. pose proof (plain_step ps st c Hc) as H1.
  destruct (Api.step (closed_out ps) st c) as [o1 s1]. simpl in H1. subst o1.
  rewrite (IH _ _ Hall). simpl. by rewrite app_assoc.
Qed.

(** X7. Text that asks for no formatting passes through unchanged: after
    any sequence of literals and of texts in the default context on a fresh
    buffer, [finish] returns the texts handed in, joined, with no marker in
    between. *)
Theorem plain_text_passes_through (calls : list Api.call)
    (st : RenderState.t) :
  forallb plain_call calls = true →
  fst (RenderOut.finish (fst (Api.run calls RenderOut.new st)))
  = Py.join "" (concat (Api.payload <$> calls)).
Proof.
  intros Hall. change RenderOut.new with (closed_out []).
  by rewrite (plain_run calls [] st Hall).
Qed.

Lemma plain_text_passes_through_witness :
  fst (RenderOut.finish
         (fst (Api.run [Api.EmitText "a" RunContext.default;
                        Api.EmitLiteral TAB;
                        Api.EmitText "b" RunContext.default]
                 RenderOut.new Sample.state0)))
  = Py.join ""
      (concat (Api.payload <$> [Api.EmitText "a" RunContext.default;
                                Api.EmitLiteral TAB;
                                Api.EmitText "b" RunContext.default])).
Proof.
  apply (plain_text_passes_through
           [Api.EmitText "a" RunContext.default; Api.EmitLiteral TAB;
            Api.EmitText "b" RunContext.default] Sample.state0).
  reflexivity.
Defined.

(** ** Revisions and the parent buffer *)

Lemma wrapped_truthy (l t r : string) :
  t ≠ "" → Py.truthy (l +:+ t +:+ r) = true.
Proof.
  intros Ht. apply truthy_true. intros Heq.
  destruct l as [|c l]; [|by rewrite append_cons in Heq].
  rewrite append_nil_l in Heq.
  destruct t as [|c t]; [done|]. by rewrite append_cons in Heq.
Qed.

(** X8. An insertion or a deletion whose content renders to the empty
    text writes nothing to the parent buffer, not even its brackets; the
    state is the one its content left. *)
Theorem empty_revision_writes_nothing (node : Element) (ctx : RunContext.t)
    (out : RenderOut.t) (st : RenderState.t) :
  tag node = _qn "ins" ∨ tag node = _qn "del" →
  inner_text node ctx st = "" →
  _render_node node ctx out st = (out, inner_state node ctx st).
Proof.
  intros Hkind Ht. rewrite _render_node_unfold. cbv zeta.
  unfold inner_text, inner_state in *.
  destruct Hkind as [-> | ->]; tag_tests; unfold render_revision;
    destruct (render_children ctx (children node) RenderOut.new st)
      as [inner s1]; cbn [fst snd] in *; by rewrite Ht.
Qed.

Lemma empty_revision_writes_nothing_witness :
  _render_node (Sample.el "ins" [] None [Sample.range_start "1"])
    (RunContext.mk false true false)
    (RenderOut.mk ["**"; "a"] false true false) Sample.state0
  = (RenderOut.mk ["**"; "a"] false true false,
     inner_state (Sample.el "ins" [] None [Sample.range_start "1"])
       (RunContext.mk false true false) Sample.state0).
Proof.
  apply (empty_revision_writes_nothing
           (Sample.el "ins" [] None [Sample.range_start "1"])).
  - left. reflexivity.
  - reflexivity.
Defined.

(** X9. An insertion or a deletion whose content renders to a text [t]
    that is not empty first closes every marker open in the parent buffer
    and then adds one part, [t] between its brackets: the brackets never
    fall inside a marker pair of the parent, and the parent is left with no
    marker open. *)
Theorem revision_is_one_closed_part (node : Element) (l r : string)
    (ctx : RunContext.t) (out : RenderOut.t) (st : RenderState.t) :
  (tag node = _qn "ins" ∧ l = "{+" ∧ r = "+}")
  ∨ (tag node = _qn "del" ∧ l = "[-" ∧ r = "-]") →
  inner_text node ctx st ≠ "" →
  fst (_render_node node ctx out st)
  = closed_out
      (RenderOut.parts (RenderOut._close_all_formats out)
       ++ [l +:+ inner_text node ctx st +:+ r]).
Proof.
  intros Hkind Ht. rewrite _render_node_unfold. cbv zeta.
  unfold inner_text in *.
  destruct Hkind as [(-> & -> & ->) | (-> & -> & ->)]; tag_tests;
    unfold render_revision;
    destruct (render_children ctx (children node) RenderOut.new st)
      as [inner s1]; cbn [fst snd] in *;
    rewrite (proj2 (truthy_true _) Ht);
    unfold RenderOut.append_literal; rewrite (wrapped_truthy _ _ _ Ht);
    cbn [fst]; destruct (close_all_is_closed out) as (-> & -> & ->);
    reflexivity.
Qed.

Lemma revision_is_one_closed_part_witness :
  fst (_render_node Sample.plain_del RunContext.default
         (RenderOut.mk ["=="; "a"] true false false) Sample.state0)
  = closed_out
      (RenderOut.parts
         (RenderOut._close_all_formats
            (RenderOut.mk ["=="; "a"] true false false))
       ++ ["[-" +:+ inner_text Sample.plain_del RunContext.default
                      Sample.state0 +:+ "-]"]).
Proof.
  apply (revision_is_one_closed_part Sample.plain_del "[-" "-]").
  - right. repeat split; reflexivity.
  - discriminate.
Defined.

(** ** The life of one comment range *)

Lemma forward_fields (fragments : list string) (st : RenderState.t) :
  RenderState.comments (forward fragments st) = RenderState.comments st
  ∧ RenderState.collected_comments (forward fragments st)
    = RenderState.collected_comments st
  ∧ RenderState.emitted_comment_ids (forward fragments st)
    = RenderState.emitted_comment_ids st.
Proof.
  revert st. induction fragments as [|f fs IH]; intros st; [done|].
  simpl. destruct (IH (RenderState.append_to_active_ranges st f))
    as (H1 & H2 & H3).
  by rewrite H1, H2, H3.
Qed.

Lemma forward_lookup_none (fragments : list string) (st : RenderState.t)
    (cid : string) :
  RenderState.active_comment_ranges st !! cid = None →
  RenderState.active_comment_ranges (forward fragments st) !! cid = None.
Proof.
  revert st. induction fragments as [|f fs IH]; intros st Hnone; [done|].
  simpl. apply IH. by rewrite append_to_active_lookup, Hnone.
Qed.

(** The state between the opening and the closing of a fresh range. *)
Lemma opened_and_filled (st : RenderState.t) (cid : string)
    (fragments : list string) :
  RenderState.active_comment_ranges st !! cid = None →
  RenderState.active_comment_ranges
    (forward fragments (RenderState.start_comment_range st cid)) !! cid
  = Some (CommentRange.mk cid fragments).
Proof.
  intros Hnone. unfold RenderState.start_comment_range. rewrite Hnone.
  rewrite (forward_lookup _ _ _ (CommentRange.mk cid [])); [done|].
  simpl. apply lookup_insert_eq.
Qed.

Lemma others_filled (st : RenderState.t) (cid other : string)
    (fragments : list string) (cr : CommentRange.t) :
  other ≠ cid →
  RenderState.active_comment_ranges st !! other = Some cr →
  RenderState.active_comment_ranges
    (forward fragments (RenderState.start_comment_range st cid)) !! other
  = Some (CommentRange.mk (CommentRange.comment_id cr)
            (CommentRange.text_parts cr ++ fragments)).
Proof.
  intros Hne Hcr. apply forward_lookup.
  unfold RenderState.start_comment_range.
  destruct (RenderState.active_comment_ranges st !! cid); [done|].
  simpl. by rewrite lookup_insert_ne.
Qed.

Lemma start_fields (st : RenderState.t) (cid : string) :
  RenderState.comments (RenderState.start_comment_range st cid)
  = RenderState.comments st
  ∧ RenderState.collected_comments (RenderState.start_comment_range st cid)
    = RenderState.collected_comments st
  ∧ RenderState.emitted_comment_ids (RenderState.start_comment_range st cid)
    = RenderState.emitted_comment_ids st.
Proof.
  unfold RenderState.start_comment_range.
  by destruct (RenderState.active_comment_ranges st !! cid).
Qed.

(** X10. The life of a range. When a comment of the registry, not yet
    emitted and with no range open, has its range opened, text fragments
    pass, and the range is closed, then exactly one comment is added to the
    queue, with the registry's author, date and text and, as original text,
    the fragments joined, trimmed and with every run of white space turned
    into one space; the id is marked emitted, its range is gone, and every
    other range that was open has received the same fragments. *)
Theorem range_life_cycle (st : RenderState.t) (cid : string)
    (cm : Comment.t) (fragments : list string) :
  RenderState.active_comment_ranges st !! cid = None →
  RenderState.comments st !! cid = Some cm →
  cid ∉ RenderState.emitted_comment_ids st →
  RenderState.collected_comments (range_cycle st cid fragments)
  = RenderState.collected_comments st
    ++ [CollectedComment.mk cid (Comment.author cm) (Comment.date cm)
          (collapsed fragments) (Comment.text cm)]
  ∧ RenderState.emitted_comment_ids (range_cycle st cid fragments)
    = {[cid]} ∪ RenderState.emitted_comment_ids st
  ∧ RenderState.active_comment_ranges (range_cycle st cid fragments) !! cid
    = None
  ∧ ∀ other cr,
      other ≠ cid →
      RenderState.active_comment_ranges st !! other = Some cr →
      RenderState.active_comment_ranges (range_cycle st cid fragments)
        !! other
      = Some (CommentRange.mk (CommentRange.comment_id cr)
                (CommentRange.text_parts cr ++ fragments)).
Proof.
  intros Hnone Hreg Hfresh. unfold range_cycle.
  set (s1 := forward fragments (RenderState.start_comment_range st cid)).
  pose proof (opened_and_filled st cid fragments Hnone) as Hcid. fold s1 in Hcid.
  destruct (forward_fields fragments (RenderState.start_comment_range st cid))
    as (Hc & Hq & He).
  destruct (start_fields st cid) as (Hc0 & Hq0 & He0).
  fold s1 in Hc, Hq, He. rewrite Hc0 in Hc. rewrite Hq0 in Hq.
  rewrite He0 in He.
  unfold RenderState.end_comment_range. rewrite Hcid. cbv zeta.
  cbn [RenderState.comments RenderState.set_active
       RenderState.emitted_comment_ids].
  rewrite Hc, Hreg, He. rewrite bool_decide_eq_false_2 by done.
  cbn. rewrite Hq, He. split; [done|]. split; [done|].
  split; [apply lookup_delete_eq|].
  intros other cr Hne Hcr. rewrite lookup_delete_ne by done.
  by apply others_filled.
Qed.

Lemma range_life_cycle_witness :
  RenderState.collected_comments
    (range_cycle Sample.state0 "1" ["hello  "; "world "])
  = RenderState.collected_comments Sample.state0
    ++ [CollectedComment.mk "1" (Some "Alice") (Some "2024-01-02")
          (collapsed ["hello  "; "world "]) "fix this"]
  ∧ RenderState.emitted_comment_ids
      (range_cycle Sample.state0 "1" ["hello  "; "world "])
    = {["1"]} ∪ RenderState.emitted_comment_ids Sample.state0
  ∧ RenderState.active_comment_ranges
      (range_cycle Sample.state0 "1" ["hello  "; "world "]) !! "1" = None
  ∧ ∀ other cr,
      other ≠ "1" →
      RenderState.active_comment_ranges Sample.state0 !! other = Some cr →
      RenderState.active_comment_ranges
        (range_cycle Sample.state0 "1" ["hello  "; "world "]) !! other
      = Some (CommentRange.mk (CommentRange.comment_id cr)
                (CommentRange.text_parts cr ++ ["hello  "; "world "])).
Proof.
  apply (range_life_cycle Sample.state0 "1"
           (Comment.mk "1" (Some "Alice") (Some "2024-01-02") "fix this")
           ["hello  "; "world "]).
  - reflexivity.
  - reflexivity.
  - vm_compute. discriminate.
Defined.

Example collapsed_hello_world :
  collapsed ["hello  "; "world "] = "hello world".
Proof. reflexivity. Qed.

(** X11. A reference that comes before the range of its comment takes the
    place of the range: the reference queues the comment with an empty
    original text, and when the range is then opened, filled and closed,
    nothing more is queued and the text the range collected is dropped. *)
Theorem reference_before_range (st : RenderState.t) (cid : string)
    (cm : Comment.t) (fragments : list string) :
  RenderState.active_comment_ranges st !! cid = None →
  RenderState.comments st !! cid = Some cm →
  cid ∉ RenderState.emitted_comment_ids st →
  RenderState.collected_comments
    (range_cycle (RenderState.handle_comment_reference st cid) cid fragments)
  = RenderState.collected_comments st
    ++ [CollectedComment.mk cid (Comment.author cm) (Comment.date cm) ""
          (Comment.text cm)]
  ∧ RenderState.active_comment_ranges
      (range_cycle (RenderState.handle_comment_reference st cid) cid
         fragments) !! cid = None.
Proof.
  intros Hnone Hreg Hfresh.
  assert (RenderState.handle_comment_reference st cid
          = RenderState.enqueue st cid cm "") as ->.
  { unfold RenderState.handle_comment_reference.
    rewrite bool_decide_eq_false_2 by done. by rewrite Hnone, Hreg. }
  set (s0 := RenderState.enqueue st cid cm "").
  assert (RenderState.active_comment_ranges s0 !! cid = None) as Hnone0
    by done.
  unfold range_cycle.
  set (s1 := forward fragments (RenderState.start_comment_range s0 cid)).
  pose proof (opened_and_filled s0 cid fragments Hnone0) as Hcid.
  fold s1 in Hcid.
  destruct (forward_fields fragments (RenderState.start_comment_range s0 cid))
    as (Hc & Hq & He).
  destruct (start_fields s0 cid) as (Hc0 & Hq0 & He0).
  fold s1 in Hc, Hq, He. rewrite Hc0 in Hc. rewrite Hq0 in Hq.
  rewrite He0 in He.
  unfold RenderState.end_comment_range. rewrite Hcid. cbv zeta.
  cbn [RenderState.comments RenderState.set_active
       RenderState.emitted_comment_ids].
  rewrite Hc. change (RenderState.comments s0) with (RenderState.comments st).
  rewrite Hreg, He.
  rewrite bool_decide_eq_true_2
    by (simpl; apply elem_of_union_l, elem_of_singleton; done).
  cbn. rewrite Hq. split; [done | apply lookup_delete_eq].
Qed.

Lemma reference_before_range_witness :
  RenderState.collected_comments
    (range_cycle (RenderState.handle_comment_reference Sample.state0 "1")
       "1" ["hello"])
  = RenderState.collected_comments Sample.state0
    ++ [CollectedComment.mk "1" (Some "Alice") (Some "2024-01-02") ""
          "fix this"]
  ∧ RenderState.active_comment_ranges
      (range_cycle (RenderState.handle_comment_reference Sample.state0 "1")
         "1" ["hello"]) !! "1" = None.
Proof.
  apply (reference_before_range Sample.state0 "1"
           (Comment.mk "1" (Some "Alice") (Some "2024-01-02") "fix this")
           ["hello"]).
  - reflexivity.
  - reflexivity.
  - vm_compute. discriminate.
Defined.

(** X12. A comment id that is not in the registry leaves no trace: its
    reference changes nothing, and its range, opened, filled and closed,
    queues nothing and marks nothing as emitted; the collected text is
    dropped with the range. *)
Theorem unknown_comment_id_dropped (st : RenderState.t) (cid : string)
    (fragments : list string) :
  RenderState.comments st !! cid = None →
  RenderState.active_comment_ranges st !! cid = None →
  RenderState.handle_comment_reference st cid = st
  ∧ RenderState.collected_comments (range_cycle st cid fragments)
    = RenderState.collected_comments st
  ∧ RenderState.emitted_comment_ids (range_cycle st cid fragments)
    = RenderState.emitted_comment_ids st
  ∧ RenderState.active_comment_ranges (range_cycle st cid fragments) !! cid
    = None.
Proof.
  intros Hreg Hnone. split.
  { unfold RenderState.handle_comment_reference.
    case_bool_decide; [done|]. by rewrite Hnone, Hreg. }
  unfold range_cycle.
  set (s1 := forward fragments (RenderState.start_comment_range st cid)).
  pose proof (opened_and_filled st cid fragments Hnone) as Hcid. fold s1 in Hcid.
  destruct (forward_fields fragments (RenderState.start_comment_range st cid))
    as (Hc & Hq & He).
  destruct (start_fields st cid) as (Hc0 & Hq0 & He0).
  fold s1 in Hc, Hq, He. rewrite Hc0 in Hc. rewrite Hq0 in Hq.
  rewrite He0 in He.
  unfold RenderState.end_comment_range. rewrite Hcid. cbv zeta.
  cbn [RenderState.comments RenderState.set_active]. rewrite Hc, Hreg.
  cbn. split; [done|]. split; [done | apply lookup_delete_eq].
Qed.

Lemma unknown_comment_id_dropped_witness :
  RenderState.handle_comment_reference Sample.state0 "77" = Sample.state0
  ∧ RenderState.collected_comments (range_cycle Sample.state0 "77" ["x"])
    = RenderState.collected_comments Sample.state0
  ∧ RenderState.emitted_comment_ids (range_cycle Sample.state0 "77" ["x"])
    = RenderState.emitted_comment_ids Sample.state0
  ∧ RenderState.active_comment_ranges (range_cycle Sample.state0 "77" ["x"])
      !! "77" = None.
Proof.
  apply (unknown_comment_id_dropped Sample.state0 "77" ["x"]); reflexivity.
Defined.

(** ** List counters *)

(** X13. [reset_list_counter] puts an ordered list back to its start: the
    marker asked for right after it carries the start value of the level,
    whatever the counter was before. *)
Theorem reset_then_marker (st : RenderState.t) (num_id : string) (ilvl : Z)
    (level : NumberingLevel.t) :
  NumberingInfo.get_level (RenderState.numbering st) num_id ilvl = Some level →
  RenderState.ordered_fmt (NumberingLevel.num_fmt level) = true →
  fst (RenderState.get_list_marker
         (RenderState.reset_list_counter st num_id ilvl) num_id ilvl)
  = Py.mul "  " ilvl +:+ Py.str_of_int (NumberingLevel.start level) +:+ ". ".
Proof.
  intros Hlevel Hord. unfold RenderState.reset_list_counter. rewrite Hlevel.
  rewrite (get_list_marker_ordered _ _ _ level) by done.
  cbn. by rewrite lookup_insert_eq.
Qed.

Lemma reset_then_marker_witness :
  fst (RenderState.get_list_marker
         (RenderState.reset_list_counter
            (snd (RenderState.get_list_marker
                    (RenderState.new Sample.registry Sample.numbering
                       Sample.no_styles) "3" 0)) "3" 0) "3" 0)
  = Py.mul "  " 0 +:+ Py.str_of_int 1 +:+ ". ".
Proof.
  apply (reset_then_marker _ "3" 0 (NumberingLevel.mk "decimal" "%1." 1));
    reflexivity.
Defined.

(** X14. Asking for a list marker touches nothing but the counter of the
    list and depth asked for: every other field of the state and every
    other counter stay as they were, and the counter itself is either left
    alone or set to one more than the number just rendered. *)
Theorem get_list_marker_frame (st : RenderState.t) (num_id : string)
    (ilvl : Z) :
  same_but_counters st (snd (RenderState.get_list_marker st num_id ilvl))
  ∧ (∀ key, key ≠ (num_id, ilvl) →
       RenderState.list_counters
         (snd (RenderState.get_list_marker st num_id ilvl)) !! key
       = RenderState.list_counters st !! key)
  ∧ (RenderState.list_counters
       (snd (RenderState.get_list_marker st num_id ilvl))
     = RenderState.list_counters st
     ∨ ∃ count,
         fst (RenderState.get_list_marker st num_id ilvl)
         = Py.mul "  " ilvl +:+ Py.str_of_int count +:+ ". "
         ∧ RenderState.list_counters
             (snd (RenderState.get_list_marker st num_id ilvl))
             !! (num_id, ilvl) = Some (count + 1)).
Proof.
  unfold RenderState.get_list_marker.
  destruct (NumberingInfo.get_level _ _ _) as [level|];
    [|by repeat split; auto].
  destruct (_ =? "bullet"); [by repeat split; auto|].
  destruct (RenderState.ordered_fmt _); [|by repeat split; auto].
  cbn. split; [done|]. split.
  - intros key Hkey. by rewrite lookup_insert_ne.
  - right. eexists. split; [reflexivity|]. apply lookup_insert_eq.
Qed.

(** ** Paragraphs *)

Lemma content_keeps_inputs (p : Element) (st : RenderState.t) :
  same_inputs st (snd (_render_paragraph_content p st)).
Proof.
  apply (paragraph_content_keeps same_inputs (fun _ _ => True)); try done.
  - apply same_inputs_trans.
  - intros s cid. unfold RenderState.start_comment_range.
    by destruct (RenderState.active_comment_ranges s !! cid).
  - apply same_inputs_end.
  - apply same_inputs_reference.
Qed.

(** X15. A paragraph moves a list counter only when it is a list item
    with text: when its content is empty, or its style resolves to a
    heading, or it names no list, the list counters after the paragraph are
    those before it. *)
Theorem paragraph_keeps_counters (p : Element) (st st' : RenderState.t)
    (lines : list string) (props : ParagraphProps.t) :
  _get_paragraph_props p = Some props →
  _render_paragraph p st = Some (lines, st') →
  fst (_render_paragraph_content p st) = ""
  ∨ heading_on (RenderState.get_heading_level st
                  (ParagraphProps.style_id props)) = true
  ∨ Py.otruthy (ParagraphProps.num_id props) = false →
  RenderState.list_counters st' = RenderState.list_counters st.
Proof.
  intros Hprops. unfold _render_paragraph. rewrite Hprops.
  destruct (content_keeps_inputs p st) as (_ & _ & Hsty & Hcnt).
  destruct (_render_paragraph_content p st) as [content s1].
  cbn [fst snd] in *. unfold RenderState.pop_collected_comments.
  set (s2 := RenderState.set_collected [] s1).
  assert (RenderState.get_heading_level s2 (ParagraphProps.style_id props)
          = RenderState.get_heading_level st (ParagraphProps.style_id props))
    as Hhead.
  { unfold RenderState.get_heading_level. subst s2. simpl. by rewrite Hsty. }
  rewrite Hhead.
  assert (RenderState.list_counters s2 = RenderState.list_counters st) as H2
    by done.
  intros Hrun Hcase.
  assert (∀ l s,
    (if heading_on (RenderState.get_heading_level st
                      (ParagraphProps.style_id props)) && Py.truthy content
     then ([Py.mul "#" (default 0 (RenderState.get_heading_level st
               (ParagraphProps.style_id props))) +:+ " " +:+ content], s2)
     else if Py.otruthy (ParagraphProps.num_id props) && Py.truthy content
     then
       let '(marker, s) :=
         RenderState.get_list_marker s2
           (default "" (ParagraphProps.num_id props))
           (ParagraphProps.ilvl props) in
       ([marker +:+ content], s)
     else if Py.truthy content then ([content], s2) else ([], s2)) = (l, s) →
    RenderState.list_counters s = RenderState.list_counters st) as Hstep.
  { intros l s. destruct Hcase as [-> | [-> | ->]].
    - change (Py.truthy "") with false. rewrite !andb_false_r.
      by intros [= <- <-].
    - destruct (Py.truthy content); cbn [andb]; rewrite ?andb_false_r;
        by intros [= <- <-].
    - cbn [andb]. destruct (heading_on _ && Py.truthy content);
        [by intros [= <- <-]|].
      destruct (Py.truthy content); by intros [= <- <-]. }
  destruct content as [|ch content']; [destruct (RenderState.collected_comments s1)|].
  - revert Hrun. intros [= <- <-]. done.
  - revert Hrun.
    match goal with
    | |- context [match ?e with pair _ _ => _ end] =>
        destruct e as [ls sf] eqn:Hif
    end.
    intros [= <- <-]. by apply (Hstep ls).
  - revert Hrun.
    match goal with
    | |- context [match ?e with pair _ _ => _ end] =>
        destruct e as [ls sf] eqn:Hif
    end.
    intros [= <- <-]. by apply (Hstep ls).
Qed.

Lemma paragraph_keeps_counters_witness :
  ∃ lines st',
    _render_paragraph SampleX.heading_item SampleX.state = Some (lines, st')
    ∧ RenderState.list_counters st'
      = RenderState.list_counters SampleX.state.
Proof.
  eexists _, _. split; [vm_compute; reflexivity|].
  eapply (paragraph_keeps_counters SampleX.heading_item SampleX.state).
  - reflexivity.
  - vm_compute. reflexivity.
  - right. left. reflexivity.
Defined.

(** The heading that is also a list item: "## Title", no marker. *)
Example heading_item_lines :
  fst <$> _render_paragraph SampleX.heading_item SampleX.state
  = Some ["## Title"].
Proof. reflexivity. Qed.





(** The list item with depth "x" stops the conversion. *)
Example bad_item_fails :
  linearize_docx (Sample.document [Sample.el "p" [] None [Sample.run "a"];
                                   SampleX.bad_item])
    Sample.registry Sample.numbering Sample.no_styles = None.
Proof. reflexivity. Qed.

(** ** Right-trimmed text *)

(** X17. The text of a conversion is either empty or ends with exactly
    one line break that follows a character which is no white space: it
    is a body that is not empty and that right-trimming leaves unchanged,
    followed by the line break. *)
Theorem linearize_text_shape (document_root : Element)
    (c : gmap string Comment.t) (n : NumberingInfo.t) (s : StyleInfo.t)
    (text : string) :
  linearize_docx document_root c n s = Some text →
  text = ""
  ∨ ∃ body, text = body +:+ NL ∧ body ≠ "" ∧ Py.rstrip body = body.
Proof.
  unfold linearize_docx, linearize_docx_state.
  destruct (ET.find_desc document_root (_qn "body")) as [body|];
    [|intros [= <-]; by left].
  destruct (body_lines (children body) [] (RenderState.new c n s))
    as [[lines st]|]; [|done].
  unfold RenderState.pop_collected_comments. cbn [fst snd fmap option_fmap
    option_map].
  intros [= <-].
  destruct (Py.truthy _) eqn:Ht; [|by left].
  right. eexists. split; [reflexivity|].
  split; [by apply truthy_true | apply rstrip_idem].
Qed.

Lemma linearize_text_shape_witness :
  "hello" +:+ NL = ""
  ∨ ∃ body, "hello" +:+ NL = body +:+ NL ∧ body ≠ ""
            ∧ Py.rstrip body = body.
Proof.
  apply (linearize_text_shape Sample.unterminated Sample.registry
           Sample.no_numbering Sample.no_styles).
  vm_compute. reflexivity.
Defined.

Lemma marker_keeps_queue (st : RenderState.t) (num_id : string) (ilvl : Z) :
  RenderState.collected_comments
    (snd (RenderState.get_list_marker st num_id ilvl))
  = RenderState.collected_comments st.
Proof.
  unfold RenderState.get_list_marker.
  destruct (NumberingInfo.get_level _ _ _) as [level|]; [|done].
  destruct (_ =? "bullet"); [done|].
  by destruct (RenderState.ordered_fmt _).
Qed.

(** X18. A paragraph hands out the whole queue: after it no collected
    comment is left waiting. Its lines are at most one line of content,
    which ends with the rendered content and is there exactly when the
    content is not empty, followed by the blocks of all the comments that
    were in the queue when its content was rendered. *)
Theorem paragraph_empties_queue (p : Element) (st st' : RenderState.t)
    (lines : list string) :
  _render_paragraph p st = Some (lines, st') →
  RenderState.collected_comments st' = []
  ∧ ∃ head,
      lines = head
              ++ comment_lines
                   (RenderState.collected_comments
                      (snd (_render_paragraph_content p st)))
      ∧ (fst (_render_paragraph_content p st) = "" → head = [])
      ∧ (fst (_render_paragraph_content p st) ≠ "" →
         ∃ prefix,
           head = [prefix +:+ fst (_render_paragraph_content p st)]).
Proof.
  unfold _render_paragraph.
  destruct (_get_paragraph_props p) as [props|]; [|done].
  destruct (_render_paragraph_content p st) as [content s1].
  cbn [fst snd]. unfold RenderState.pop_collected_comments.
  set (comments := RenderState.collected_comments s1).
  set (s2 := RenderState.set_collected [] s1).
  assert (∀ e : list string * RenderState.t,
    e = (if heading_on (RenderState.get_heading_level s2
                          (ParagraphProps.style_id props))
            && Py.truthy content
         then ([Py.mul "#" (default 0 (RenderState.get_heading_level s2
                   (ParagraphProps.style_id props))) +:+ " " +:+ content], s2)
         else if Py.otruthy (ParagraphProps.num_id props)
                 && Py.truthy content
         then
           let '(marker, s) :=
             RenderState.get_list_marker s2
               (default "" (ParagraphProps.num_id props))
               (ParagraphProps.ilvl props) in
           ([marker +:+ content], s)
         else if Py.truthy content then ([content], s2) else ([], s2)) →
    RenderState.collected_comments (snd e) = []
    ∧ (content = "" → fst e = [])
    ∧ (content ≠ "" → ∃ prefix, fst e = [prefix +:+ content])) as Hhead.
  { intros e ->. destruct (Py.truthy content) eqn:Ht.
    - apply truthy_true in Ht.
      destruct (heading_on _); cbn [andb].
      { split; [done|]. split; [done|]. intros _. eexists.
        cbn [fst]. by rewrite <- append_assoc. }
      destruct (Py.otruthy _); cbn [andb].
      + pose proof (marker_keeps_queue s2
                      (default "" (ParagraphProps.num_id props))
                      (ParagraphProps.ilvl props)) as Hq.
        destruct (RenderState.get_list_marker s2 _ _) as [marker s3].
        cbn [fst snd] in *. split; [by rewrite Hq|]. split; [done|].
        intros _. by exists marker.
      + split; [done|]. split; [done|]. intros _. by exists "".
    - apply truthy_false in Ht as ->. rewrite !andb_false_r.
      split; [done|]. split; [done|]. by intros []. }
  destruct content as [|ch content'] eqn:Hcontent;
    [destruct comments as [|c0 cs0] eqn:Hcomments|].
  - intros [= <- <-]. split; [done|]. exists []. by repeat split.
  - match goal with
    | |- context [match ?e with pair _ _ => _ end] =>
        destruct (Hhead e eq_refl) as (Hq & Hempty & Hfull);
        destruct e as [ls sf]
    end.
    intros [= <- <-]. split; [done|]. exists ls. by repeat split.
  - match goal with
    | |- context [match ?e with pair _ _ => _ end] =>
        destruct (Hhead e eq_refl) as (Hq & Hempty & Hfull);
        destruct e as [ls sf]
    end.
    intros [= <- <-]. split; [done|]. exists ls. by repeat split.
Qed.

Lemma paragraph_empties_queue_witness :
  ∃ lines st',
    _render_paragraph
      (Sample.el "p" [] None
         [Sample.range_start "1"; Sample.run "hello"; Sample.range_end "1"])
      Sample.state0 = Some (lines, st')
    ∧ RenderState.collected_comments st' = []
    ∧ ∃ head,
        lines = head
                ++ comment_lines
                     (RenderState.collected_comments
                        (snd (_render_paragraph_content
                                (Sample.el "p" [] None
                                   [Sample.range_start "1";
                                    Sample.run "hello";
                                    Sample.range_end "1"])
                                Sample.state0)))
        ∧ (fst (_render_paragraph_content
                  (Sample.el "p" [] None
                     [Sample.range_start "1"; Sample.run "hello";
                      Sample.range_end "1"])
                  Sample.state0) = "" → head = [])
        ∧ (fst (_render_paragraph_content
                  (Sample.el "p" [] None
                     [Sample.range_start "1"; Sample.run "hello";
                      Sample.range_end "1"])
                  Sample.state0) ≠ "" →
           ∃ prefix,
             head = [prefix
                     +:+ fst (_render_paragraph_content
                                (Sample.el "p" [] None
                                   [Sample.range_start "1";
                                    Sample.run "hello";
                                    Sample.range_end "1"])
                                Sample.state0)]).
Proof.
  eexists _, _. split; [vm_compute; reflexivity|].
  apply (paragraph_empties_queue
           (Sample.el "p" [] None
              [Sample.range_start "1"; Sample.run "hello";
               Sample.range_end "1"]) Sample.state0).
  vm_compute. reflexivity.
Defined.

(** ** The style table *)

Lemma style_outline_levels (style : Element) (style_id : string)
    (old new : gmap string Z) :
  style_outline style style_id old = Some new →
  new = old ∨ ∃ h, 1 ≤ h ≤ 6 ∧ new = <[style_id := h]> old.
Proof.
  unfold style_outline.
  destruct (ET.find_child style (_qn "pPr")) as [ppr|]; [|intros [= <-]; auto].
  destruct (ET.find_child ppr (_qn "outlineLvl")) as [outline|];
    [|intros [= <-]; auto].
  destruct (ET.get outline (_qn "val")) as [val|]; [|intros [= <-]; auto].
  destruct (Py.int val) as [lvl|]; [|done].
  destruct (Z.leb_spec 0 lvl); cbn [andb]; [|intros [= <-]; auto].
  destruct (Z.leb_spec lvl 5); intros [= <-]; [|auto].
  right. exists (lvl + 1). split; [lia | done].
Qed.

Lemma style_name_levels (style : Element) (style_id : string)
    (old new : gmap string Z) :
  style_name style style_id old = Some new →
  new = old ∨ ∃ h, 1 ≤ h ≤ 6 ∧ new = <[style_id := h]> old.
Proof.
  unfold style_name.
  destruct (ET.find_child style (_qn "name")) as [name_el|];
    [|intros [= <-]; auto].
  cbv zeta. destruct (match_heading_name _) as [group1|];
    [|intros [= <-]; auto].
  destruct (Py.int group1) as [lvl|]; [|done].
  destruct (Z.leb_spec 1 lvl); cbn [andb]; [|intros [= <-]; auto].
  destruct (Z.leb_spec lvl 6); intros [= <-]; [|auto].
  right. exists lvl. split; [lia | done].
Qed.

Lemma level_from_insert (style : Element) (style_id : string) (h : Z)
    (old : gmap string Z) :
  ET.get style (_qn "styleId") = Some style_id →
  1 ≤ h ≤ 6 →
  level_from [style] old (<[style_id := h]> old).
Proof.
  intros Hid Hh sid k. destruct (decide (style_id = sid)) as [<-|Hne].
  - rewrite lookup_insert_eq. intros [= <-]. right. split; [done|].
    exists style. split; [apply list_elem_of_singleton; done | done].
  - rewrite lookup_insert_ne by done. auto.
Qed.

Lemma level_from_trans (l1 l2 : list Element) (a b c : gmap string Z) :
  level_from l1 a b → level_from l2 b c → level_from (l1 ++ l2) a c.
Proof.
  intros H1 H2 sid h Hc. destruct (H2 sid h Hc) as [Hb|(Hh & style & Hin & Hid)].
  - destruct (H1 sid h Hb) as [Ha|(Hh & style & Hin & Hid)]; [by left|].
    right. split; [done|]. exists style. split; [|done].
    apply elem_of_app. by left.
  - right. split; [done|]. exists style. split; [|done].
    apply elem_of_app. by right.
Qed.

Lemma level_from_refl (l : list Element) (a : gmap string Z) :
  level_from l a a.
Proof. intros sid h H. by left. Qed.

Lemma parse_style_levels (style : Element) (old new : gmap string Z) :
  parse_style old style = Some new → level_from [style] old new.
Proof.
  unfold parse_style.
  destruct (ET.get style (_qn "styleId")) as [style_id|] eqn:Hid;
    [|intros [= <-]; apply level_from_refl].
  destruct (Py.truthy style_id); cbn [negb];
    [|intros [= <-]; apply level_from_refl].
  destruct (style_outline style style_id old) as [mid|] eqn:Hout; [|done].
  intros Hname.
  assert (level_from [style] old mid) as H1.
  { destruct (style_outline_levels _ _ _ _ Hout) as [-> | (h & Hh & ->)];
      [apply level_from_refl | by apply level_from_insert]. }
  assert (level_from [style] mid new) as H2.
  { destruct (style_name_levels _ _ _ _ Hname) as [-> | (h & Hh & ->)];
      [apply level_from_refl | by apply level_from_insert]. }
  intros sid h Hnew.
  destruct (level_from_trans _ _ _ _ _ H1 H2 sid h Hnew)
    as [Hold|(Hh & st & Hin & Hst)]; [by left|].
  right. split; [done|]. exists st. split; [|done].
  apply elem_of_app in Hin. by destruct Hin.
Qed.

Lemma parse_style_list_levels (l : list Element) (old new : gmap string Z) :
  parse_style_list l old = Some new → level_from l old new.
Proof.
  revert old. induction l as [|style l IH]; intros old.
  { intros [= <-]. apply level_from_refl. }
  cbn [parse_style_list].
  destruct (parse_style old style) as [mid|] eqn:Hstyle; [|done].
  intros Hrest. change (style :: l) with ([style] ++ l).
  eapply level_from_trans; [by apply parse_style_levels | by apply IH].
Qed.

(** X19. Every entry of the style table that [_parse_styles] returns is
    a heading level from 1 to 6, and its key is the id of a style element
    of the styles part: no level lies outside the six Markdown levels and
    no key is made up. *)
Theorem parsed_levels_in_range (root : Element) (info : StyleInfo.t)
    (style_id : string) (h : Z) :
  _parse_styles (Some root) = Some info →
  StyleInfo.heading_levels info !! style_id = Some h →
  1 ≤ h ≤ 6
  ∧ ∃ style,
      style ∈ ET.findall_desc root (_qn "style")
      ∧ ET.get style (_qn "styleId") = Some style_id.
Proof.
  unfold _parse_styles.
  destruct (parse_style_list (ET.findall_desc root (_qn "style")) ∅)
    as [levels|] eqn:Hlist; [|done].
  intros [= <-]. simpl. intros Hh.
  destruct (parse_style_list_levels _ _ _ Hlist style_id h Hh) as [Hold|H];
    [|done].
  by rewrite lookup_empty in Hold.
Qed.

Lemma parsed_levels_in_range_witness :
  1 ≤ 1 ≤ 6
  ∧ ∃ style,
      style ∈ ET.findall_desc
                (Sample.el "styles" [] None [Sample.heading_style])
                (_qn "style")
      ∧ ET.get style (_qn "styleId") = Some "H".
Proof.
  apply (parsed_levels_in_range
           (Sample.el "styles" [] None [Sample.heading_style])
           (StyleInfo.mk {[ "H" := 1 ]}) "H" 1).
  - vm_compute. reflexivity.
  - reflexivity.
Defined.

Lemma chars_nonempty (s : string) : s ≠ "" → Py.chars s ≠ [].
Proof. destruct s; [done|]. by rewrite chars_cons. Qed.

Lemma digit_not_int_space (ch : string) :
  Py.is_digit ch = true → Py.is_int_space ch = false.
Proof.
  intros Hd. unfold Py.is_int_space. rewrite (digit_not_space ch Hd).
  by destruct (Py.code_point ch).
Qed.

Lemma drop_while_head {A} (P : A → bool) (x : A) (l : list A) :
  P x = false → Py.drop_while P (x :: l) = x :: l.
Proof. intros Hx. cbn. by rewrite Hx. Qed.

Lemma forallb_last {A} (P : A → bool) (l : list A) (x : A) (l' : list A) :
  forallb P l = true → rev l = x :: l' → P x = true.
Proof.
  intros Hl Hrev. rewrite forallb_forall in Hl. apply Hl.
  apply in_rev. rewrite Hrev. by left.
Qed.

(** [int] strips nothing from a run of digits. *)
Lemma int_strip_digits (cs : list string) :
  forallb Py.is_digit cs = true →
  rev (Py.drop_while Py.is_int_space
         (rev (Py.drop_while Py.is_int_space cs))) = cs.
Proof.
  intros Hcs.
  assert (Py.drop_while Py.is_int_space cs = cs) as ->.
  { destruct cs as [|ch cs]; [done|]. cbn [forallb] in Hcs.
    apply andb_true_iff in Hcs as [Hch _].
    by rewrite drop_while_head by by apply digit_not_int_space. }
  destruct (rev cs) as [|x l] eqn:Hrev.
  { cbn. rewrite <- (rev_involutive cs). by rewrite Hrev. }
  rewrite drop_while_head.
  - by rewrite <- Hrev, rev_involutive.
  - apply digit_not_int_space. by eapply forallb_last.
Qed.

Lemma digits_go_digits (cs : list string) (acc : Z) (count : nat)
    (after_digit : bool) :
  forallb Py.is_digit cs = true →
  cs ≠ [] ∨ after_digit = true →
  ∃ v, Py.digits_go acc count after_digit cs
       = Some (v, (count + length cs)%nat).
Proof.
  revert acc count after_digit.
  induction cs as [|ch cs IH]; intros acc count b Hcs Hne.
  - destruct Hne as [?| ->]; [done|]. exists acc. cbn. f_equal. f_equal. lia.
  - cbn [forallb] in Hcs. apply andb_true_iff in Hcs as [Hch Hcs].
    cbn [Py.digits_go]. unfold Py.is_digit in Hch.
    destruct (Py.digit_val ch) as [d|]; [|done].
    destruct (IH (10 * acc + d) (S count) true Hcs (or_intror eq_refl))
      as [v ->].
    exists v. cbn [length]. f_equal. f_equal. lia.
Qed.

(** [int] reads a run of digits that is not empty exactly when it has at
    most 4300 of them. *)
Lemma int_of_digits (s : string) :
  StyleSpec.all_chars Py.is_digit s = true →
  s ≠ "" →
  Py.int s = None ↔ (Py.int_max_str_digits < length (Py.chars s))%nat.
Proof.
  unfold StyleSpec.all_chars. intros Hs Hne. unfold Py.int.
  rewrite (int_strip_digits _ Hs).
  pose proof (chars_nonempty s Hne) as Hcs.
  destruct (Py.chars s) as [|ch cs] eqn:Hchars; [done|].
  assert (Py.is_digit ch = true) as Hch.
  { cbn [forallb] in Hs. by apply andb_true_iff in Hs as [? _]. }
  assert ((ch =? "+") = false) as ->.
  { destruct (String.eqb_spec ch "+") as [->|]; done. }
  assert ((ch =? "-") = false) as ->.
  { destruct (String.eqb_spec ch "-") as [->|]; done. }
  destruct (digits_go_digits (ch :: cs) 0 0 false Hs (or_introl Hcs))
    as [v ->].
  cbn [Nat.add]. destruct (Nat.leb_spec (length (ch :: cs))
                             Py.int_max_str_digits); split; try done; lia.
Qed.

Lemma span_digits_all (s : string) :
  StyleSpec.all_chars Py.is_digit (fst (Py.span_digits s)) = true.
Proof.
  unfold Py.span_digits, StyleSpec.all_chars. cbn [fst].
  rewrite (chars_prefix s _ (Py.drop_while Py.is_digit (Py.chars s)))
    by by rewrite take_drop_while.
  apply take_while_forall.
Qed.

Lemma match_heading_name_digits (s group1 : string) :
  match_heading_name s = Some group1 →
  StyleSpec.all_chars Py.is_digit group1 = true ∧ group1 ≠ "".
Proof.
  unfold match_heading_name.
  destruct (match Py.starts_with "heading" s with
            | Some r => Some r
            | None => Py.starts_with "标题" s
            end) as [r|]; [|done].
  pose proof (span_digits_all (Py.lstrip r)) as Hall.
  destruct (Py.span_digits (Py.lstrip r)) as [digits rest]. simpl in Hall.
  destruct (Py.truthy digits) eqn:Ht; [|done]. intros [= <-].
  split; [done | by apply truthy_true].
Qed.

(** The name step raises exactly on a heading name with too many
    digits. *)
Lemma style_name_fails (style : Element) (style_id : string)
    (levels : gmap string Z) :
  style_name style style_id levels = None
  ↔ ∃ name_el group1,
      ET.find_child style (_qn "name") = Some name_el
      ∧ match_heading_name
          (Py.lower (default "" (ET.get name_el (_qn "val")))) = Some group1
      ∧ (Py.int_max_str_digits < length (Py.chars group1))%nat.
Proof.
  unfold style_name.
  destruct (ET.find_child style (_qn "name")) as [name_el|];
    [|split; [done | by intros (? & ? & [=] & _)]].
  cbv zeta. destruct (match_heading_name _) as [group1|] eqn:Hm.
  - destruct (match_heading_name_digits _ _ Hm) as [Hds Hne].
    pose proof (int_of_digits group1 Hds Hne) as Hint.
    destruct (Py.int group1) as [lvl|].
    + split.
      * by destruct ((1 <=? lvl) && (lvl <=? 6)).
      * intros (? & g & [= <-] & Hg & Hlong). rewrite Hm in Hg.
        injection Hg as <-. by apply Hint in Hlong.
    + split; [|done]. intros _. exists name_el, group1.
      split; [done|]. split; [done|]. by apply Hint.
  - split; [done|]. intros (? & g & [= <-] & Hg & _). congruence.
Qed.

Lemma style_outline_fails (style : Element) (style_id : string)
    (levels : gmap string Z) :
  style_outline style style_id levels = None
  ↔ ∃ ppr outline val,
      ET.find_child style (_qn "pPr") = Some ppr
      ∧ ET.find_child ppr (_qn "outlineLvl") = Some outline
      ∧ ET.get outline (_qn "val") = Some val
      ∧ Py.int val = None.
Proof.
  unfold style_outline.
  destruct (ET.find_child style (_qn "pPr")) as [ppr|];
    [|split; [done | by intros (? & ? & ? & [=] & _)]].
  destruct (ET.find_child ppr (_qn "outlineLvl")) as [outline|] eqn:H2;
    [|split; [done | intros (? & ? & ? & [= <-] & ? & _); congruence]].
  destruct (ET.get outline (_qn "val")) as [val|] eqn:H3;
    [|split; [done | intros (? & ? & ? & [= <-] & ? & ? & _); congruence]].
  destruct (Py.int val) as [lvl|] eqn:Hint.
  - split; [by destruct ((0 <=? lvl) && (lvl <=? 5))|].
    intros (? & ? & ? & [= <-] & ? & ? & H). congruence.
  - split; [|done]. intros _. by exists ppr, outline, val.
Qed.

Lemma parse_style_fails (style : Element) (levels : gmap string Z) :
  parse_style levels style = None ↔ bad_style style.
Proof.
  unfold parse_style, bad_style, bad_outline, long_heading_name.
  destruct (ET.get style (_qn "styleId")) as [style_id|];
    [|split; [done | by intros [(? & ? & ? & ? & [=] & _)
                                |(? & ? & ? & [=] & _)]]].
  destruct (Py.truthy style_id) eqn:Ht; cbn [negb].
  2:{ assert (style_id = "") as ->.
      { destruct (decide (style_id = "")) as [|Hne]; [done|].
        apply truthy_true in Hne. congruence. }
      split; [done|].
      by intros [(? & ? & ? & ? & [= <-] & ? & _)
                |(? & ? & ? & [= <-] & ? & _)]. }
  apply truthy_true in Ht.
  destruct (style_outline style style_id levels) as [mid|] eqn:Hout.
  - rewrite style_name_fails. split.
    + intros (name_el & g & H1 & H2 & H3). right.
      by exists style_id, name_el, g.
    + intros [(? & ppr & outline & val & [= <-] & _ & H1 & H2 & H3 & H4)
             |(? & name_el & g & [= <-] & _ & H)].
      * assert (style_outline style style_id levels = None) as Hnone.
        { apply style_outline_fails. by exists ppr, outline, val. }
        congruence.
      * by exists name_el, g.
  - split; [|done]. intros _. left.
    apply style_outline_fails in Hout as (ppr & outline & val & H).
    by exists style_id, ppr, outline, val.
Qed.

Lemma parse_style_list_fails (l : list Element) (levels : gmap string Z) :
  parse_style_list l levels = None ↔ Exists bad_style l.
Proof.
  revert levels. induction l as [|style l IH]; intros levels.
  { split; [done | by intros ?%Exists_nil]. }
  cbn [parse_style_list]. rewrite Exists_cons.
  destruct (parse_style levels style) as [mid|] eqn:Hstyle.
  - rewrite IH. split; [by right|]. intros [Hbad|H]; [|done].
    apply (parse_style_fails style levels) in Hbad. congruence.
  - split; [|done]. intros _. left. by apply (parse_style_fails style levels).
Qed.

(** X20. [_parse_styles] fails in two cases only: some style element of
    the styles part has an id and either an outline level whose value
    [int] rejects, or a name that matches the heading pattern with more
    than 4300 digits, which [int] refuses to read. A document without a
    styles part gets the empty table. *)
Theorem parse_styles_failures (styles_root : option Element) :
  _parse_styles styles_root = None
  ↔ ∃ root,
      styles_root = Some root
      ∧ Exists bad_style (ET.findall_desc root (_qn "style")).
Proof.
  unfold _parse_styles. destruct styles_root as [root|].
  - destruct (parse_style_list (ET.findall_desc root (_qn "style")) ∅)
      as [levels|] eqn:Hlist.
    + split; [done|]. intros (r & [= <-] & Hbad).
      apply (parse_style_list_fails _ ∅) in Hbad. congruence.
    + split; [|done]. intros _. exists root. split; [done|].
      by apply (parse_style_list_fails _ ∅).
  - split; [done|]. by intros (r & [=] & _).
Qed.

(** An outline level "one" stops the parser; the full-width digit one is
    an outline level like "1". *)
Example bad_outline_fails :
  _parse_styles
    (Some (Sample.el "styles" [] None
             [Sample.el "style" [(_qn "styleId", "S")] None
                [Sample.el "pPr" [] None
                   [Sample.el "outlineLvl" [(_qn "val", "one")] None []]]]))
  = None
  ∧ _parse_styles
      (Some (Sample.el "styles" [] None
               [Sample.el "style" [(_qn "styleId", "S")] None
                  [Sample.el "pPr" [] None
                     [Sample.el "outlineLvl"
                        [(_qn "val",
                          String "239" (String "188" (String "145" "")))]
                        None []]]]))
    = Some (StyleInfo.mk {[ "S" := 2 ]}).
Proof. split; by vm_compute. Qed.

(** A heading name with 4301 digits stops the parser; with 4300 digits
    the number is read, and is no heading level. *)
Example long_heading_name_fails :
  _parse_styles
    (Some (Sample.el "styles" [] None
             [Sample.el "style" [(_qn "styleId", "S")] None
                [Sample.el "name"
                   [(_qn "val", "Heading " +:+ Py.mul "1" 4301)] None []]]))
  = None
  ∧ _parse_styles
      (Some (Sample.el "styles" [] None
               [Sample.el "style" [(_qn "styleId", "S")] None
                  [Sample.el "name"
                     [(_qn "val", "Heading " +:+ Py.mul "1" 4300)] None []]]))
    = Some (StyleInfo.mk ∅).
Proof. split; by vm_compute. Qed.

(** ** Plain text and the comment registry *)

Lemma _iter_plain_text_nodes_unfold (node : Element) :
  _iter_plain_text_nodes node =
    let ntag := tag node in
    if (ntag =? _qn "t") || (ntag =? _qn "delText") then
      match text node with
      | Some s => if Py.truthy s then [s] else []
      | None => []
      end
    else if ntag =? _qn "tab" then [TAB]
    else if (ntag =? _qn "br") || (ntag =? _qn "cr") then [NL]
    else if ntag =? _qn "noBreakHyphen" then [NO_BREAK_HYPHEN]
    else if ntag =? _qn "softHyphen" then [SOFT_HYPHEN]
    else iter_children (children node).
Proof. destruct node; reflexivity. Qed.

Example parse_comments_sample :
  _parse_comments SampleX2.fromisoformat_date (Some SampleX2.comments_root)
  = {[ "1" := Comment.mk "1" (Some "Alice") (Some "2024-01-02") "fix this";
       "2" := Comment.mk "2" (Some "Alice") (Some "soon") "later" ]}.
Proof. vm_compute. reflexivity. Qed.


Lemma parse_comment_list_entries
    (fromisoformat_date : string → option string) (l : list Element)
    (old : gmap string Comment.t) (cid : string) (cm : Comment.t) :
  parse_comment_list fromisoformat_date l old !! cid = Some cm →
  old !! cid = Some cm
  ∨ ∃ c, c ∈ l ∧ comment_with_id cid c
         ∧ cm = comment_of fromisoformat_date cid c.
Proof.
  revert old. induction l as [|c l IH]; intros old; [by left|].
  cbn [parse_comment_list].
  assert (∀ m, parse_comment_list fromisoformat_date l m !! cid = Some cm →
               m = old →
               old !! cid = Some cm
               ∨ ∃ c0, c0 ∈ c :: l ∧ comment_with_id cid c0
                       ∧ cm = comment_of fromisoformat_date cid c0) as Hskip.
  { intros m Hm ->. destruct (IH _ Hm) as [?|(c0 & Hin & H0)]; [by left|].
    right. exists c0. split; [by apply elem_of_cons; right | done]. }
  destruct (ET.get c (_qn "id")) as [cid0|] eqn:Hid; [|by eauto].
  destruct (Py.truthy cid0) eqn:Ht; cbn [negb]; [|by eauto].
  intros Hm. destruct (IH _ Hm) as [Hold|(c0 & Hin & H0)].
  - destruct (decide (cid0 = cid)) as [->|Hne].
    + rewrite lookup_insert_eq in Hold. injection Hold as <-.
      right. exists c. split; [apply elem_of_cons; by left|].
      split; [|done]. split; [done | by apply truthy_true].
    + rewrite lookup_insert_ne in Hold by done. by left.
  - right. exists c0. split; [by apply elem_of_cons; right | done].
Qed.

Lemma parse_comment_list_keeps
    (fromisoformat_date : string → option string) (l : list Element)
    (old : gmap string Comment.t) (cid : string) :
  is_Some (old !! cid) →
  is_Some (parse_comment_list fromisoformat_date l old !! cid).
Proof.
  revert old. induction l as [|c l IH]; intros old Hold; [done|].
  cbn [parse_comment_list].
  destruct (ET.get c (_qn "id")) as [cid0|]; [|by apply IH].
  destruct (Py.truthy cid0); cbn [negb]; [|by apply IH].
  apply IH. destruct (decide (cid0 = cid)) as [->|Hne].
  - rewrite lookup_insert_eq. by eexists.
  - by rewrite lookup_insert_ne.
Qed.

Lemma parse_comment_list_has
    (fromisoformat_date : string → option string) (l : list Element)
    (old : gmap string Comment.t) (cid : string) (c : Element) :
  c ∈ l → comment_with_id cid c →
  is_Some (parse_comment_list fromisoformat_date l old !! cid).
Proof.
  revert old. induction l as [|c0 l IH]; intros old Hin [Hid Hne].
  { by apply elem_of_nil in Hin. }
  cbn [parse_comment_list]. apply elem_of_cons in Hin as [<- | Hin].
  - rewrite Hid. apply truthy_true in Hne as ->. cbn [negb].
    apply parse_comment_list_keeps. rewrite lookup_insert_eq. by eexists.
  - destruct (ET.get c0 (_qn "id")) as [cid0|]; [|by apply IH].
    destruct (Py.truthy cid0); cbn [negb]; by apply IH.
Qed.

(** X22. The registry [_parse_comments] builds has an entry for an id
    exactly when the comments part holds a comment element with that id,
    the id not being empty; and every entry is built from such an element:
    its [comment_id] is its key, its author is the element's, its date the
    parsed date and its text the white-space-collapsed plain text of the
    element. Without a comments part the registry is empty. *)
Theorem parse_comments_entries
    (fromisoformat_date : string → option string)
    (comments_root : option Element) (cid : string) :
  (is_Some (_parse_comments fromisoformat_date comments_root !! cid)
   ↔ ∃ root c,
       comments_root = Some root
       ∧ c ∈ ET.findall_desc root (_qn "comment")
       ∧ comment_with_id cid c)
  ∧ ∀ cm,
      _parse_comments fromisoformat_date comments_root !! cid = Some cm →
      Comment.comment_id cm = cid
      ∧ ∃ root c,
          comments_root = Some root
          ∧ c ∈ ET.findall_desc root (_qn "comment")
          ∧ comment_with_id cid c
          ∧ cm = comment_of fromisoformat_date cid c.
Proof.
  assert (∀ cm,
    _parse_comments fromisoformat_date comments_root !! cid = Some cm →
    ∃ root c,
      comments_root = Some root
      ∧ c ∈ ET.findall_desc root (_qn "comment")
      ∧ comment_with_id cid c
      ∧ cm = comment_of fromisoformat_date cid c) as Hentry.
  { intros cm. unfold _parse_comments.
    destruct comments_root as [root|]; [|by rewrite lookup_empty].
    intros Hcm.
    destruct (parse_comment_list_entries _ _ _ _ _ Hcm)
      as [Hold|(c & Hin & Hc & ->)]; [by rewrite lookup_empty in Hold|].
    by exists root, c. }
  split.
  - split.
    + intros [cm Hcm]. destruct (Hentry cm Hcm) as (root & c & ? & ? & ? & _).
      by exists root, c.
    + intros (root & c & -> & Hin & Hc). unfold _parse_comments.
      by apply (parse_comment_list_has _ _ _ _ c).
  - intros cm Hcm. destruct (Hentry cm Hcm) as (root & c & ? & ? & ? & ->).
    split; [done|]. by exists root, c.
Qed.

Lemma iter_text_leaves (leaves : list Element) :
  forallb is_text_leaf leaves = true →
  iter_children leaves = leaf_texts leaves.
Proof.
  induction leaves as [|k leaves IH]; [done|]. simpl forallb.
  intros [Hk Hall]%andb_true_iff. cbn [iter_children].
  rewrite _iter_plain_text_nodes_unfold. cbv zeta.
  unfold is_text_leaf in Hk. rewrite Hk, (IH Hall).
  unfold leaf_texts. cbn [List.map List.filter].
  destruct (text k) as [s|]; [|done]. simpl default.
  by destruct (Py.truthy s).
Qed.

Lemma iter_plain_run (c : Element) :
  is_plain_run c = true →
  _iter_plain_text_nodes c = leaf_texts (children c).
Proof.
  unfold is_plain_run. intros [Htag Hall]%andb_true_iff.
  apply String.eqb_eq in Htag.
  rewrite _iter_plain_text_nodes_unfold. cbv zeta. rewrite Htag. tag_tests.
  cbn [orb]. by apply iter_text_leaves.
Qed.

Lemma iter_plain_runs (cs : list Element) :
  forallb is_plain_run cs = true → iter_children cs = run_texts cs.
Proof.
  induction cs as [|c cs IH]; [done|]. simpl forallb.
  intros [Hc Hall]%andb_true_iff. cbn [iter_children].
  rewrite (iter_plain_run c Hc), (IH Hall). done.
Qed.

Lemma para_children_plain (cs : list Element) (ps : list string)
    (st : RenderState.t) :
  forallb is_plain_run cs = true →
  render_para_children RunContext.default cs (closed_out ps) st
  = render_children RunContext.default cs (closed_out ps) st.
Proof.
  revert ps st. induction cs as [|c cs IH]; intros ps st; [done|].
  simpl forallb. intros [Hc Hall]%andb_true_iff.
  cbn [render_para_children render_children].
  assert ((tag c =? _qn "pPr") = false) as ->.
  { unfold is_plain_run in Hc. apply andb_true_iff in Hc as [Htag _].
    apply String.eqb_eq in Htag. by rewrite Htag. }
  rewrite (render_plain_run c ps st Hc). by apply IH.
Qed.

(** X23. On plain text the two readers of the tree agree: for a paragraph
    whose children are all runs of text leaves, the content the renderer
    produces is the right-trimmed plain text that [_text_of] (the reader
    used for the comment registry) extracts, with no marker added. *)
Theorem plain_paragraph_content_is_text (p : Element) (st : RenderState.t) :
  tag p = _qn "p" →
  forallb is_plain_run (children p) = true →
  fst (_render_paragraph_content p st) = Py.rstrip (_text_of p).
Proof.
  intros Htag Hplain. unfold _render_paragraph_content, _text_of.
  rewrite _render_node_unfold, _iter_plain_text_nodes_unfold. cbv zeta.
  rewrite Htag. tag_tests. cbn [orb].
  change RenderOut.new with (closed_out []).
  rewrite (para_children_plain _ _ _ Hplain).
  rewrite (render_plain_runs _ _ _ Hplain), (iter_plain_runs _ Hplain).
  reflexivity.
Qed.

Lemma plain_paragraph_content_is_text_witness :
  fst (_render_paragraph_content
         (Sample.el "p" [] None [Sample.run "fix "; Sample.run "this  "])
         Sample.state_1)
  = Py.rstrip
      (_text_of (Sample.el "p" [] None
                   [Sample.run "fix "; Sample.run "this  "])).
Proof.
  apply (plain_paragraph_content_is_text
           (Sample.el "p" [] None [Sample.run "fix "; Sample.run "this  "])
           Sample.state_1); reflexivity.
Defined.
